(** * NullForge Security Auditor: a shallow embedding of
    [security_auditor/src/auditor.py] and the properties of its reports.

    Conventions of the embedding.
    - A Python [str] is a Rocq [string]; a character is a code point below
      256 (the Latin-1 range), which covers every character the rule
      registry mentions.
    - A Python [int] that only counts (line numbers, the id counter, scores)
      is a [nat].
    - An exception is a value of [exn]; code that may raise returns a
      [result]; methods of [SecurityAuditor] run in the monad [M], which
      threads [self] and keeps the state reached when an exception leaves.
    - What the standard library does outside this file's reach (the regex
      compiler, [ast.parse], [json.loads], the clock arithmetic) is a field
      of [Runtime]; the file system is a value of [FileTree]. *)

From Stdlib Require Import List String Ascii Arith ZArith Lia Bool.
From Stdlib Require Import Permutation Sorted DecimalString DecimalNat.
Import ListNotations.
Set Warnings "-register-all".
Set Warnings "-notation-overridden".
Local Open Scope string_scope.
Local Open Scope list_scope.
Local Open Scope nat_scope.

(* ------------------------------------------------------------------ *)
(** ** Text helpers: the [str] methods the auditor calls *)

Module Text.

Definition chr (n : nat) : ascii := ascii_of_nat n.
Definition ord (c : ascii) : nat := nat_of_ascii c.

(** Line boundaries of [str.splitlines] among the code points below 256:
    LF, VT, FF, CR, FS, GS, RS and NEL. *)
Definition is_linebreak (c : ascii) : bool :=
  let n := ord c in
  (n =? 10) || (n =? 11) || (n =? 12) || (n =? 13)
  || (n =? 28) || (n =? 29) || (n =? 30) || (n =? 133).

Definition is_cr (c : ascii) : bool := ord c =? 13.
Definition is_lf (c : ascii) : bool := ord c =? 10.

(** [cur] is the line being read. A boundary closes it; CR LF is one
    boundary; text after the last boundary is a line when not empty. *)
Fixpoint splitlines_from (cur s : string) : list string :=
  match s with
  | EmptyString => match cur with EmptyString => [] | _ => [cur] end
  | String c rest =>
      if is_linebreak c then
        cur :: match rest with
               | String d rest' =>
                   if is_cr c && is_lf d then splitlines_from EmptyString rest'
                   else splitlines_from EmptyString rest
               | EmptyString => splitlines_from EmptyString rest
               end
      else splitlines_from (cur ++ String c EmptyString)%string rest
  end.

Definition splitlines (s : string) : list string := splitlines_from EmptyString s.

(** [str.lower] on the Latin-1 range. *)
Definition lower_char (c : ascii) : ascii :=
  let n := ord c in
  if (65 <=? n) && (n <=? 90) then chr (n + 32)
  else if (192 <=? n) && (n <=? 222) && negb (n =? 215) then chr (n + 32)
  else c.

Fixpoint lower (s : string) : string :=
  match s with
  | EmptyString => EmptyString
  | String c rest => String (lower_char c) (lower rest)
  end.

Fixpoint startswith (p s : string) : bool :=
  match p, s with
  | EmptyString, _ => true
  | String a p', String b s' => Ascii.eqb a b && startswith p' s'
  | String _ _, EmptyString => false
  end.

(** [needle in hay] *)
Fixpoint contains (needle hay : string) : bool :=
  startswith needle hay
  || match hay with
     | EmptyString => false
     | String _ rest => contains needle rest
     end.

Definition endswith (suffix s : string) : bool :=
  let n := String.length suffix in
  let m := String.length s in
  (n <=? m) && String.eqb (substring (m - n) n s) suffix.

(** [sep.join(l)] *)
Fixpoint join (sep : string) (l : list string) : string :=
  match l with
  | [] => EmptyString
  | [x] => x
  | x :: rest => (x ++ sep ++ join sep rest)%string
  end.

(** [s.split(sep)[0]] for a one-character [sep] *)
Fixpoint before (sep : ascii) (s : string) : string :=
  match s with
  | EmptyString => EmptyString
  | String c rest => if Ascii.eqb c sep then EmptyString
                     else String c (before sep rest)
  end.

(** [str(n)] and [f"{n}"] *)
Definition str_of_nat (n : nat) : string :=
  NilEmpty.string_of_uint (Nat.to_uint n).

Fixpoint zeros (k : nat) : string :=
  match k with 0 => EmptyString | S k' => String "0" (zeros k') end.

(** [f"{n:04d}"]: decimal, padded with zeros on the left up to width 4 *)
Definition format_04d (n : nat) : string :=
  let s := str_of_nat n in (zeros (4 - String.length s) ++ s)%string.

(** [Path.suffix] of a final path component *)
Fixpoint rfind_dot (s : string) (pos : nat) (found : option nat) : option nat :=
  match s with
  | EmptyString => found
  | String c rest =>
      rfind_dot rest (S pos) (if Ascii.eqb c "." then Some pos else found)
  end.

Definition path_suffix (name : string) : string :=
  match rfind_dot name 0 None with
  | Some i =>
      if (0 <? i) && (i <? String.length name - 1)
      then substring i (String.length name - i) name
      else EmptyString
  | None => EmptyString
  end.

(** Characters a Rocq literal cannot spell: line feed, double quote. *)
Definition nl : string := String (chr 10) EmptyString.
Definition dq : string := String (chr 34) EmptyString.

End Text.

(** A [datetime], in microseconds. *)
Definition datetime_t : Set := Z.

(* ------------------------------------------------------------------ *)
(** ** Exceptions and results *)

Inductive exn : Set :=
| SyntaxError | ValueError | RecursionError | MemoryError
| re_error | OSError | UnicodeDecodeError | JSONDecodeError
| AttributeError | TypeError.

Inductive result (A : Type) : Type :=
| Ok (a : A)
| Raise (e : exn).
Arguments Ok {A} a.
Arguments Raise {A} e.

(* ------------------------------------------------------------------ *)
(** ** Compiled patterns and [Pattern.search]

    A compiled pattern is a regular expression over characters. None of
    the registry's patterns has an anchor, a look-around or a
    back-reference, so [regex.search(line)] is truthy exactly when some
    substring of [line] belongs to the language; that is decided here with
    derivatives. *)

Module Re.

Inductive regex : Type :=
| Never
| Empty
| Class (p : ascii -> bool)
| Seq (r s : regex)
| Or (r s : regex)
| Star (r : regex).

Fixpoint nullable (r : regex) : bool :=
  match r with
  | Never => false
  | Empty => true
  | Class _ => false
  | Seq r s => nullable r && nullable s
  | Or r s => nullable r || nullable s
  | Star _ => true
  end.

Definition seq_ (r s : regex) : regex :=
  match r, s with
  | Never, _ => Never
  | _, Never => Never
  | Empty, _ => s
  | _, _ => Seq r s
  end.

Definition or_ (r s : regex) : regex :=
  match r, s with
  | Never, _ => s
  | _, Never => r
  | _, _ => Or r s
  end.

Fixpoint deriv (c : ascii) (r : regex) : regex :=
  match r with
  | Never => Never
  | Empty => Never
  | Class p => if p c then Empty else Never
  | Seq r s =>
      or_ (seq_ (deriv c r) s) (if nullable r then deriv c s else Never)
  | Or r s => or_ (deriv c r) (deriv c s)
  | Star r => seq_ (deriv c r) (Star r)
  end.

(** [regex.match(s)]: a prefix of [s] is in the language. *)
Fixpoint match_ (r : regex) (s : string) : bool :=
  nullable r
  || match s with
     | EmptyString => false
     | String c rest => match_ (deriv c r) rest
     end.

(** [regex.search(s)], as the truth value the scanner tests. *)
Fixpoint search (r : regex) (s : string) : bool :=
  match_ r s
  || match s with
     | EmptyString => false
     | String _ rest => search r rest
     end.

(** *** Pattern syntax, as combinators *)

Definition is_ascii_upper (c : ascii) : bool :=
  let n := Text.ord c in (65 <=? n) && (n <=? 90).
Definition is_ascii_lower (c : ascii) : bool :=
  let n := Text.ord c in (97 <=? n) && (n <=? 122).
Definition is_digit (c : ascii) : bool :=
  let n := Text.ord c in (48 <=? n) && (n <=? 57).

(** [\s] of a [str] pattern: the characters with [str.isspace()]. *)
Definition is_space (c : ascii) : bool :=
  let n := Text.ord c in
  ((9 <=? n) && (n <=? 13)) || ((28 <=? n) && (n <=? 32))
  || (n =? 133) || (n =? 160).

(** Case folding of [re.IGNORECASE] below 256: ASCII letters. *)
Definition fold_case (c : ascii) : ascii :=
  if is_ascii_upper c then Text.chr (Text.ord c + 32) else c.

Definition char (c : ascii) : regex := Class (Ascii.eqb c).
Definition ichar (c : ascii) : regex :=
  Class (fun x => Ascii.eqb (fold_case x) (fold_case c)).

Fixpoint lit (s : string) : regex :=
  match s with
  | EmptyString => Empty
  | String c rest => Seq (char c) (lit rest)
  end.

Fixpoint ilit (s : string) : regex :=
  match s with
  | EmptyString => Empty
  | String c rest => Seq (ichar c) (ilit rest)
  end.

Fixpoint mem (c : ascii) (s : string) : bool :=
  match s with
  | EmptyString => false
  | String d rest => Ascii.eqb c d || mem c rest
  end.

Definition any_of (s : string) : regex := Class (fun c => mem c s).
Definition none_of (s : string) : regex := Class (fun c => negb (mem c s)).
(** [.] without [re.DOTALL] *)
Definition dot : regex := none_of Text.nl.
(** [\s*] *)
Definition ws : regex := Star (Class is_space).
Definition opt (r : regex) : regex := Or r Empty.
Definition plus (r : regex) : regex := Seq r (Star r).

(** [r{n,}] *)
Fixpoint at_least (n : nat) (r : regex) : regex :=
  match n with
  | 0 => Star r
  | S k => Seq r (at_least k r)
  end.

Fixpoint seqs (l : list regex) : regex :=
  match l with
  | [] => Empty
  | [r] => r
  | r :: rest => Seq r (seqs rest)
  end.

Fixpoint alts (l : list regex) : regex :=
  match l with
  | [] => Never
  | [r] => r
  | r :: rest => Or r (alts rest)
  end.

End Re.

(* ------------------------------------------------------------------ *)
(** ** JSON values, as [json.loads] returns them and [to_dict] builds them *)

Inductive json : Type :=
| JNull
| JBool (b : bool)
| JInt (z : Z)
| JStr (s : string)
| JList (l : list json)
| JDict (d : list (string * json)).

Module Dict.

(** A [dict] with [str] keys, in insertion order. *)
Definition t : Type := list (string * json).

Fixpoint get (key : string) (d : t) : option json :=
  match d with
  | [] => None
  | (k, v) :: rest => if String.eqb k key then Some v else get key rest
  end.

(** [key in d] *)
Definition mem (key : string) (d : t) : bool :=
  match get key d with Some _ => true | None => false end.

(** [d[key] = v] *)
Fixpoint set (key : string) (v : json) (d : t) : t :=
  match d with
  | [] => [(key, v)]
  | (k, w) :: rest =>
      if String.eqb k key then (k, v) :: rest else (k, w) :: set key v rest
  end.

(** [{**a, **b}] *)
Definition merge (a b : t) : t :=
  fold_left (fun acc kv => set (fst kv) (snd kv) acc) b a.

End Dict.

(** [pkg_data.get(key, {})]: only a [dict] has [get]. *)
Definition json_get_or_empty (pkg_data : json) (key : string) : result json :=
  match pkg_data with
  | JDict d => Ok (match Dict.get key d with Some v => v | None => JDict [] end)
  | _ => Raise AttributeError
  end.

(** The operand of [**] must be a mapping. *)
Definition json_mapping (v : json) : result Dict.t :=
  match v with
  | JDict d => Ok d
  | _ => Raise TypeError
  end.

(* ------------------------------------------------------------------ *)
(** ** Syntax trees, as far as the structural inspector looks at them *)

Inductive node_kind : Set :=
| Assert (lineno : nat)
| ExceptHandler (type_is_None : bool) (lineno : nat)
| Import (names : list string) (lineno : nat)
| OtherNode.

Inductive ast : Set :=
| Node (kind : node_kind) (children : list ast).

Definition kind_of (n : ast) : node_kind := match n with Node k _ => k end.
Definition iter_child_nodes (n : ast) : list ast :=
  match n with Node _ ch => ch end.

Fixpoint ast_size (n : ast) : nat :=
  match n with
  | Node _ ch => S (list_sum (map ast_size ch))
  end.

(** [ast.walk]: pop the first node of the queue, queue its children, yield
    it. Every step yields one node, so the number of nodes is fuel enough. *)
Fixpoint walk_queue (fuel : nat) (todo : list ast) : list ast :=
  match fuel with
  | 0 => []
  | S fuel' =>
      match todo with
      | [] => []
      | node :: rest => node :: walk_queue fuel' (rest ++ iter_child_nodes node)
      end
  end.

Definition ast_walk (tree : ast) : list ast := walk_queue (ast_size tree) [tree].

(* ------------------------------------------------------------------ *)
(** ** What the interpreter and its library decide *)

Record Runtime : Type := mkRuntime {
  (** [re.compile(pattern)]: the compiled pattern, or [re.error] *)
  re_compile : string -> result Re.regex;
  (** [ast.parse(content)]: the tree, [SyntaxError], or what else the
      parser raises (on a null byte or on too deep a nesting) *)
  ast_parse : string -> result ast;
  (** [json.loads(text)] *)
  json_loads : string -> result json;
  (** the order in which this process iterates a [set] of strings built
      from the given literal; it depends on the process's hash seed *)
  set_iter : list string -> list string;
  (** [int((end - start).total_seconds() * 1000)] *)
  elapsed_ms : datetime_t -> datetime_t -> Z;
  (** [datetime.isoformat()] *)
  isoformat : datetime_t -> string
}.

(* ------------------------------------------------------------------ *)
(** ** Severity, Finding, AuditReport *)

Inductive Severity : Set := CRITICAL | HIGH | MEDIUM | LOW | INFO.

Definition Severity_eqb (a b : Severity) : bool :=
  match a, b with
  | CRITICAL, CRITICAL | HIGH, HIGH | MEDIUM, MEDIUM
  | LOW, LOW | INFO, INFO => true
  | _, _ => false
  end.

(** [Severity.value] *)
Definition Severity_value (s : Severity) : string :=
  match s with
  | CRITICAL => "critical"
  | HIGH => "high"
  | MEDIUM => "medium"
  | LOW => "low"
  | INFO => "info"
  end.

Definition json_of_optional (o : option string) : json :=
  match o with Some s => JStr s | None => JNull end.

Module Finding.

Record t : Set := mk {
  id : string;
  title : string;
  severity : Severity;
  category : string;
  file_path : string;
  line_number : nat;
  code_snippet : string;
  description : string;
  recommendation : string;
  cwe_id : option string;
  owasp_category : option string
}.

Definition to_dict (self : t) : json :=
  JDict [
    ("id", JStr (id self));
    ("title", JStr (title self));
    ("severity", JStr (Severity_value (severity self)));
    ("category", JStr (category self));
    ("location", JDict [
       ("file", JStr (file_path self));
       ("line", JInt (Z.of_nat (line_number self)))]);
    ("code_snippet", JStr (code_snippet self));
    ("description", JStr (description self));
    ("recommendation", JStr (recommendation self));
    ("references", JDict [
       ("cwe", json_of_optional (cwe_id self));
       ("owasp", json_of_optional (owasp_category self))])
  ].

End Finding.

Module AuditReport.

(** The [summary] field of the dataclass, which nothing writes or reads, is
    left out. [findings] is the list of the auditor at the time the report
    is built. *)
Record t : Set := mk {
  project_path : string;
  scan_time : datetime_t;
  duration_ms : Z;
  files_scanned : nat;
  lines_scanned : nat;
  findings : list Finding.t
}.

(** [len([f for f in self.findings if f.severity == s])] *)
Definition count (s : Severity) (self : t) : nat :=
  List.length
    (filter (fun f => Severity_eqb (Finding.severity f) s) (findings self)).

Definition critical_count (self : t) : nat := count CRITICAL self.

Definition high_count (self : t) : nat := count HIGH self.

(** The [weights] table of [risk_score]. *)
Definition weights (s : Severity) : nat :=
  match s with
  | CRITICAL => 25
  | HIGH => 15
  | MEDIUM => 5
  | LOW => 2
  | INFO => 0
  end.

Definition risk_score (self : t) : nat :=
  match findings self with
  | [] => 0
  | _ =>
      let score :=
        list_sum (map (fun f => weights (Finding.severity f)) (findings self)) in
      Nat.min 100 score
  end.

Definition to_dict (rt : Runtime) (self : t) : json :=
  JDict [
    ("meta", JDict [
       ("project", JStr (project_path self));
       ("scan_time", JStr (isoformat rt (scan_time self)));
       ("duration_ms", JInt (duration_ms self));
       ("files_scanned", JInt (Z.of_nat (files_scanned self)));
       ("lines_scanned", JInt (Z.of_nat (lines_scanned self)))]);
    ("summary", JDict [
       ("total_findings", JInt (Z.of_nat (List.length (findings self))));
       ("critical", JInt (Z.of_nat (critical_count self)));
       ("high", JInt (Z.of_nat (high_count self)));
       ("medium", JInt (Z.of_nat (count MEDIUM self)));
       ("low", JInt (Z.of_nat (count LOW self)));
       ("info", JInt (Z.of_nat (count INFO self)));
       ("risk_score", JInt (Z.of_nat (risk_score self)))]);
    ("findings", JList (map Finding.to_dict (findings self)))
  ].

End AuditReport.

(** The status [main] hands to [sys.exit] once the report is printed. *)
Definition exit_code (report : AuditReport.t) : nat :=
  if 0 <? AuditReport.critical_count report then 2
  else if 0 <? AuditReport.high_count report then 1
  else 0.

(* ------------------------------------------------------------------ *)
(** ** The file system under the project path *)

(** A path is the list of its components, as [Path.parts] gives them. *)
Definition Path : Set := list string.

(** [str(path)] *)
Definition path_str (p : Path) : string :=
  match p with
  | [] => "."
  | first :: rest =>
      if String.eqb first "/" then ("/" ++ Text.join "/" rest)%string
      else Text.join "/" p
  end.

Record FileEntry : Type := mkFileEntry {
  (** the components below the project path, the file name last *)
  rel_parts : Path;
  (** [read_text(errors='ignore')] *)
  read_text_ignore : result string
}.

Definition entry_name (e : FileEntry) : string := last (rel_parts e) EmptyString.

Record FileTree : Type := mkFileTree {
  (** every path below the root, in the order [rglob] walks them *)
  walk : list FileEntry;
  (** [requirements.txt] at the root when it exists, with what the strict
      [read_text()] gives *)
  requirements_txt : option (result string);
  (** [package.json] at the root when it exists, likewise *)
  package_json : option (result string)
}.

(** [path.rglob("*" + ext)] *)
Definition rglob (tree : FileTree) (ext : string) : list FileEntry :=
  filter (fun e => Text.endswith ext (entry_name e)) (walk tree).

(* ------------------------------------------------------------------ *)
(** ** [list.sort(key=...)]: the stable sort by a numeric key *)

Section SortByKey.
Variable A : Type.
Variable key : A -> nat.

(** [x] comes from the left of everything in [l], so it stays to the left
    of the elements with its key. *)
Fixpoint insert_by_key (x : A) (l : list A) : list A :=
  match l with
  | [] => [x]
  | y :: rest =>
      if key x <=? key y then x :: y :: rest
      else y :: insert_by_key x rest
  end.

Definition sort_by_key (l : list A) : list A :=
  fold_right insert_by_key [] l.
End SortByKey.
Arguments insert_by_key {A} key x l.
Arguments sort_by_key {A} key l.

(** [range(a, b)] and [enumerate(l, start)] *)
Definition range (a b : nat) : list nat := seq a (b - a).

Definition enumerate {A : Type} (l : list A) (start : nat) : list (nat * A) :=
  combine (seq start (List.length l)) l.

(* ------------------------------------------------------------------ *)
(** ** The pattern registry *)

Module PatternDef.
Record t : Set := mk {
  pattern : string;
  title : string;
  severity : Severity;
  cwe : option string;
  owasp : option string;
  description : string;
  recommendation : string
}.
End PatternDef.

(** A [dict] from category to rules, in insertion order. *)
Definition Registry : Set := list (string * list PatternDef.t).

Definition all_rules (reg : Registry) : list PatternDef.t :=
  flat_map snd reg.

Section RegistryLiteral.
Local Abbreviation Q := Text.dq.
Local Notation "a +++ b" := (String.append a b)
  (at level 60, right associativity).
Local Abbreviation rule := PatternDef.mk.

Definition secrets_rules : list PatternDef.t := [
  rule ("(?i)(password|passwd|pwd)\s*=\s*[" +++ Q +++ "\'][^" +++ Q
          +++ "\']+[" +++ Q +++ "\']")
    "Hardcoded Password" CRITICAL (Some "CWE-798") (Some "A07:2021")
    "Hardcoded password found in source code. This is a critical security vulnerability."
    "Use environment variables or a secure secrets manager.";
  rule ("(?i)(api[_-]?key|apikey|secret[_-]?key)\s*=\s*[" +++ Q
          +++ "\'][A-Za-z0-9+/=]{16,}[" +++ Q +++ "\']")
    "Hardcoded API Key" CRITICAL (Some "CWE-798") (Some "A07:2021")
    "API key or secret key hardcoded in source code."
    "Store API keys in environment variables or secure vault.";
  rule ("(?i)(aws[_-]?access[_-]?key|aws[_-]?secret)\s*=\s*[" +++ Q
          +++ "\'][A-Z0-9]{16,}[" +++ Q +++ "\']")
    "AWS Credentials Exposed" CRITICAL (Some "CWE-798") (Some "A07:2021")
    "AWS credentials found hardcoded in source code."
    "Use IAM roles or AWS Secrets Manager.";
  rule "-----BEGIN (RSA |DSA |EC )?PRIVATE KEY-----"
    "Private Key in Source" CRITICAL (Some "CWE-321") (Some "A07:2021")
    "Private key found in source code."
    "Never commit private keys. Use secure key management."
].

Definition injection_rules : list PatternDef.t := [
  rule ("execute\s*\(\s*[" +++ Q +++ "\']?\s*SELECT.*%s")
    "Potential SQL Injection" HIGH (Some "CWE-89") (Some "A03:2021")
    "String formatting in SQL query may allow SQL injection."
    "Use parameterized queries or ORM methods.";
  rule "cursor\.(execute|executemany)\s*\([^,]+\s*%"
    "SQL Injection Risk" HIGH (Some "CWE-89") (Some "A03:2021")
    "Dynamic SQL query construction detected."
    "Use query parameters: cursor.execute(sql, (param,))";
  rule "subprocess\.(call|run|Popen)\s*\([^)]*shell\s*=\s*True"
    "Command Injection Risk" HIGH (Some "CWE-78") (Some "A03:2021")
    "Shell=True with subprocess may allow command injection."
    "Avoid shell=True, use list of arguments instead.";
  rule "eval\s*\([^)]*\)"
    "Dangerous eval() Usage" HIGH (Some "CWE-95") (Some "A03:2021")
    "eval() can execute arbitrary code if input is not sanitized."
    "Use ast.literal_eval() for safe evaluation or avoid eval entirely.";
  rule "exec\s*\([^)]*\)"
    "Dangerous exec() Usage" HIGH (Some "CWE-95") (Some "A03:2021")
    "exec() can execute arbitrary code."
    "Avoid exec() with user-controlled input."
].

Definition xss_rules : list PatternDef.t := [
  rule "innerHTML\s*="
    "Potential XSS via innerHTML" MEDIUM (Some "CWE-79") (Some "A03:2021")
    "Setting innerHTML can lead to XSS if content is not sanitized."
    "Use textContent or sanitize HTML before insertion.";
  rule "\|\s*safe\s*}}"
    "Jinja2 Safe Filter Risk" MEDIUM (Some "CWE-79") (Some "A03:2021")
    "The |safe filter disables auto-escaping in Jinja2."
    "Only use |safe with trusted, sanitized content.";
  rule "mark_safe\s*\("
    "Django mark_safe Risk" MEDIUM (Some "CWE-79") (Some "A03:2021")
    "mark_safe() marks content as safe HTML without escaping."
    "Ensure content is properly sanitized before using mark_safe."
].

Definition crypto_rules : list PatternDef.t := [
  rule "(?i)(md5|sha1)\s*\("
    "Weak Hash Algorithm" MEDIUM (Some "CWE-328") (Some "A02:2021")
    "MD5 and SHA1 are cryptographically weak."
    "Use SHA-256 or stronger for security-sensitive hashing.";
  rule "(?i)DES|RC4|Blowfish"
    "Weak Encryption Algorithm" HIGH (Some "CWE-327") (Some "A02:2021")
    "Using outdated or weak encryption algorithm."
    "Use AES-256 or ChaCha20 for encryption.";
  rule "random\.random\s*\(|random\.randint\s*\("
    "Insecure Random Number Generator" MEDIUM (Some "CWE-330") (Some "A02:2021")
    "Using non-cryptographic random for potentially sensitive operations."
    "Use secrets module for security-sensitive random values."
].

Definition auth_rules : list PatternDef.t := [
  rule "verify\s*=\s*False"
    "SSL Certificate Verification Disabled" HIGH (Some "CWE-295") (Some "A07:2021")
    "SSL certificate verification is disabled, enabling MITM attacks."
    "Always verify SSL certificates in production.";
  rule "(?i)debug\s*=\s*True"
    "Debug Mode Enabled" MEDIUM (Some "CWE-489") (Some "A05:2021")
    "Debug mode should not be enabled in production."
    "Use environment-based configuration for debug settings.";
  rule ("ALLOWED_HOSTS\s*=\s*\[\s*[" +++ Q +++ "\']?\*[" +++ Q
          +++ "\']?\s*\]")
    "Django ALLOWED_HOSTS Wildcard" MEDIUM (Some "CWE-183") (Some "A05:2021")
    "Wildcard ALLOWED_HOSTS enables host header attacks."
    "Specify explicit allowed hostnames."
].

Definition logging_rules : list PatternDef.t := [
  rule "print\s*\([^)]*password"
    "Password Logged to Console" HIGH (Some "CWE-532") (Some "A09:2021")
    "Sensitive data may be logged to console output."
    "Never log passwords or sensitive data.";
  rule "logging\.(debug|info|warning|error)\s*\([^)]*password"
    "Password in Log Statement" HIGH (Some "CWE-532") (Some "A09:2021")
    "Sensitive data may be written to log files."
    "Sanitize sensitive data before logging."
].
End RegistryLiteral.

(** [SecurityAuditor._load_security_patterns] *)
Definition _load_security_patterns : Registry := [
  ("secrets", secrets_rules);
  ("injection", injection_rules);
  ("xss", xss_rules);
  ("crypto", crypto_rules);
  ("auth", auth_rules);
  ("logging", logging_rules)
].

(* ------------------------------------------------------------------ *)
(** ** SecurityAuditor *)

Module SecurityAuditor.

Record t : Type := mk {
  project_path : Path;
  findings : list Finding.t;
  finding_counter : nat;
  patterns : Registry
}.

(** A method body: it reads and updates [self], and returns or raises. *)
Definition M (A : Type) : Type := t -> result A * t.

Definition ret {A : Type} (a : A) : M A := fun self => (Ok a, self).

Definition bind {A B : Type} (m : M A) (k : A -> M B) : M B :=
  fun self =>
    match m self with
    | (Ok a, self') => k a self'
    | (Raise e, self') => (Raise e, self')
    end.

Definition lift {A : Type} (r : result A) : M A := fun self => (r, self).

Definition get : M t := fun self => (Ok self, self).

(** [try: m  except: handler] with a bare [except] *)
Definition try_except {A : Type} (m : M A) (handler : M A) : M A :=
  fun self =>
    match m self with
    | (Ok a, self') => (Ok a, self')
    | (Raise _, self') => handler self'
    end.

Notation "x <- m ;; k" := (bind m (fun x => k))
  (at level 61, m at next level, right associativity).
Notation "' pat <- m ;; k" := (bind m (fun pat => k))
  (at level 61, pat pattern, m at next level, right associativity).

(** [for x in l: body], where [acc] holds the local variables the body
    assigns *)
Fixpoint for_each {A S : Type} (l : list A) (body : A -> S -> M S) (acc : S)
  : M S :=
  match l with
  | [] => ret acc
  | x :: rest => acc' <- body x acc ;; for_each rest body acc'
  end.

Definition __init__ (project_path : Path) : t :=
  mk project_path [] 0 _load_security_patterns.

Definition _generate_finding_id : M string :=
  fun self =>
    let self' := mk (project_path self) (findings self)
                    (finding_counter self + 1) (patterns self) in
    (Ok ("NF-" ++ Text.format_04d (finding_counter self'))%string, self').

(** [findings.append(Finding(id=self._generate_finding_id(), title=...,
    ...))] *)
Definition append_finding (findings : list Finding.t)
  (title : string) (severity : Severity) (category file_path : string)
  (line_number : nat) (code_snippet description recommendation : string)
  (cwe_id owasp_category : option string) : M (list Finding.t) :=
  fid <- _generate_finding_id ;;
  ret (findings ++ [Finding.mk fid title severity category file_path
                      line_number code_snippet description recommendation
                      cwe_id owasp_category]).

(** The context of a match on line [i] ([scan_file], lines 367-369). *)
Definition snippet (lines : list string) (i : nat) : string :=
  let start := Nat.max 0 (i - 3) in
  let end_ := Nat.min (List.length lines) (i + 2) in
  Text.join Text.nl
    (map (fun j => (Text.str_of_nat j ++ ": " ++ nth (j - 1) lines EmptyString)%string)
         (range (start + 1) (end_ + 1))).

Definition _analyze_python_ast (rt : Runtime) (file_path : FileEntry)
  (content rel_path : string) : M (list Finding.t) :=
  match ast_parse rt content with
  | Raise SyntaxError => ret []
  | Raise e => lift (Raise e)
  | Ok tree =>
      for_each (ast_walk tree) (fun node findings =>
        match kind_of node with
        | Assert lineno =>
            append_finding findings
              "Security Assert Statement" LOW "code_quality"
              rel_path lineno
              (Text.str_of_nat lineno ++ ": assert ...")%string
              "Assert statements are removed when Python runs with -O flag."
              "Use explicit if/raise for security checks."
              (Some "CWE-617") None
        | ExceptHandler true lineno =>
            append_finding findings
              "Bare Except Clause" LOW "code_quality"
              rel_path lineno
              (Text.str_of_nat lineno ++ ": except:")%string
              "Bare except catches all exceptions including KeyboardInterrupt."
              "Catch specific exceptions: except Exception:"
              (Some "CWE-396") None
        | ExceptHandler false _ => ret findings
        | Import names lineno =>
            for_each names (fun alias findings =>
              if String.eqb alias "pickle" then
                append_finding findings
                  "Pickle Deserialization Risk" MEDIUM "injection"
                  rel_path lineno
                  (Text.str_of_nat lineno ++ ": import pickle")%string
                  "Pickle can execute arbitrary code during deserialization."
                  "Use JSON or other safe serialization formats for untrusted data."
                  (Some "CWE-502") (Some "A08:2021")
              else ret findings) findings
        | OtherNode => ret findings
        end) []
  end.

(** The pattern-based part of [scan_file] (lines 359-384). *)
Definition scan_patterns (rt : Runtime) (lines : list string)
  (rel_path : string) : M (list Finding.t) :=
  self <- get ;;
  for_each (patterns self) (fun '(category, patterns) findings =>
    for_each patterns (fun pattern_def findings =>
      regex <- lift (re_compile rt (PatternDef.pattern pattern_def)) ;;
      for_each (enumerate lines 1) (fun '(i, line) findings =>
        if Re.search regex line then
          append_finding findings
            (PatternDef.title pattern_def)
            (PatternDef.severity pattern_def)
            category rel_path i (snippet lines i)
            (PatternDef.description pattern_def)
            (PatternDef.recommendation pattern_def)
            (PatternDef.cwe pattern_def)
            (PatternDef.owasp pattern_def)
        else ret findings) findings) findings) [].

Definition scan_file (rt : Runtime) (file_path : FileEntry)
  : M (list Finding.t) :=
  match read_text_ignore file_path with
  | Raise _ => ret []
  | Ok content =>
      let lines := Text.splitlines content in
      let rel_path := path_str (rel_parts file_path) in
      findings <- scan_patterns rt lines rel_path ;;
      if String.eqb (Text.path_suffix (entry_name file_path)) ".py" then
        ast_findings <- _analyze_python_ast rt file_path content rel_path ;;
        ret (findings ++ ast_findings)
      else ret findings
  end.

(** The [vulnerable_packages] table of [scan_dependencies]. *)
Definition vulnerable_packages : list (string * (string * Severity)) := [
  ("django<3.2", ("Django Security Update Required", HIGH));
  ("flask<2.0", ("Flask Security Update Recommended", MEDIUM));
  ("requests<2.20", ("Requests CVE-2018-18074", HIGH));
  ("pyyaml<5.4", ("PyYAML Arbitrary Code Execution", CRITICAL));
  ("urllib3<1.26.5", ("urllib3 CVE-2021-33503", MEDIUM))
].

(** [any(vuln_pattern.split("<")[0] in line.lower()
         for line in content.splitlines())] *)
Definition mentions (vuln_pattern content : string) : bool :=
  existsb (fun line => Text.contains (Text.before "<" vuln_pattern) (Text.lower line))
          (Text.splitlines content).

(** The [requirements.txt] block of [scan_dependencies] (lines 456-484): the
    read is not under any handler. *)
Definition scan_requirements (tree : FileTree) : M (list Finding.t) :=
  match requirements_txt tree with
  | None => ret []
  | Some read_text =>
      content <- lift read_text ;;
      for_each vulnerable_packages (fun '(vuln_pattern, (title, severity)) findings =>
        if mentions vuln_pattern content then
          append_finding findings
            title severity "dependencies" "requirements.txt" 1
            "Check requirements.txt"
            ("Potentially vulnerable dependency: " ++ vuln_pattern)%string
            "Update to the latest secure version."
            (Some "CWE-1104") (Some "A06:2021")
        else ret findings) []
  end.

(** The [package.json] block of [scan_dependencies] (lines 486-507), under
    its bare [except: pass]. *)
Definition scan_package_json (rt : Runtime) (tree : FileTree)
  (findings : list Finding.t) : M (list Finding.t) :=
  match package_json tree with
  | None => ret findings
  | Some read_text =>
      try_except
        (text <- lift read_text ;;
         pkg_data <- lift (json_loads rt text) ;;
         dependencies <- lift (json_get_or_empty pkg_data "dependencies") ;;
         d1 <- lift (json_mapping dependencies) ;;
         devDependencies <- lift (json_get_or_empty pkg_data "devDependencies") ;;
         d2 <- lift (json_mapping devDependencies) ;;
         let deps := Dict.merge d1 d2 in
         if Dict.mem "lodash" deps then
           append_finding findings
              "Check Lodash Version" INFO "dependencies"
               "package.json" 1 "lodash in dependencies"
               "Lodash has had multiple CVEs. Ensure version is current."
               "Run 'npm audit' for detailed vulnerability check."
               None None
         else ret findings)
        (ret findings)
  end.

Definition scan_dependencies (rt : Runtime) (tree : FileTree)
  : M (list Finding.t) :=
  findings <- scan_requirements tree ;;
  scan_package_json rt tree findings.

Definition extensions : list string :=
  [".py"; ".js"; ".ts"; ".jsx"; ".tsx"; ".java"; ".go"; ".rb"; ".php"].

Definition skipped_directories : list string :=
  ["node_modules"; ".git"; "__pycache__"; "venv"; ".venv";
   "target"; "build"; "dist"; ".tox"].

(** [any(part in file_path.parts for part in [...])] *)
Definition in_skipped_directory (parts : Path) : bool :=
  existsb (fun part => existsb (String.eqb part) parts) skipped_directories.

Definition severity_order (s : Severity) : nat :=
  match s with
  | CRITICAL => 0
  | HIGH => 1
  | MEDIUM => 2
  | LOW => 3
  | INFO => 4
  end.

(** [self.findings.extend(more)] *)
Definition extend_findings (more : list Finding.t) : M unit :=
  fun self =>
    (Ok tt, mk (project_path self) (findings self ++ more)
               (finding_counter self) (patterns self)).

(** [self.findings.sort(key=lambda f: severity_order[f.severity])] *)
Definition sort_findings : M unit :=
  fun self =>
    (Ok tt, mk (project_path self)
               (sort_by_key (fun f => severity_order (Finding.severity f))
                            (findings self))
               (finding_counter self) (patterns self)).

(** The loop of [scan] over the source files. The value is
    [(files_scanned, lines_scanned)]. *)
Definition scan_files (rt : Runtime) (tree : FileTree) : M (nat * nat) :=
  self <- get ;;
  for_each (set_iter rt extensions) (fun ext counters =>
    for_each (rglob tree ext) (fun file_path '(files_scanned, lines_scanned) =>
      if in_skipped_directory (project_path self ++ rel_parts file_path)
      then ret (files_scanned, lines_scanned)
      else
        match read_text_ignore file_path with
        | Raise _ => ret (files_scanned, lines_scanned)
        | Ok content =>
            let lines_scanned :=
              lines_scanned + List.length (Text.splitlines content) in
            let files_scanned := files_scanned + 1 in
            try_except
              (file_findings <- scan_file rt file_path ;;
               _ <- extend_findings file_findings ;;
               ret (files_scanned, lines_scanned))
              (ret (files_scanned, lines_scanned))
        end) counters) (0, 0).

(** [scan] up to the sort: the files, then the dependencies. *)
Definition scan_collect (rt : Runtime) (tree : FileTree) : M (nat * nat) :=
  counters <- scan_files rt tree ;;
  dependency_findings <- scan_dependencies rt tree ;;
  _ <- extend_findings dependency_findings ;;
  ret counters.

Definition scan (rt : Runtime) (tree : FileTree)
  (start_time end_time : datetime_t) : M AuditReport.t :=
  '(files_scanned, lines_scanned) <- scan_collect rt tree ;;
  _ <- sort_findings ;;
  self <- get ;;
  ret (AuditReport.mk (path_str (project_path self)) start_time
         (elapsed_ms rt start_time end_time)
         files_scanned lines_scanned (findings self)).

End SecurityAuditor.

(* ------------------------------------------------------------------ *)
(** ** More [str] methods, for the report document *)

Module Str.

(** [str(z)] for an [int] *)
Definition str_of_Z (z : Z) : string := NilEmpty.string_of_int (Z.to_int z).

(** Commas between groups of three digits; [until_comma] digits are left
    in the group being read. *)
Fixpoint commas (digits : string) (until_comma : nat) : string :=
  match digits with
  | EmptyString => EmptyString
  | String c rest =>
      match rest with
      | EmptyString => String c EmptyString
      | String _ _ =>
          if until_comma =? 1 then String c (String "," (commas rest 3))
          else String c (commas rest (until_comma - 1))
      end
  end.

(** [f"{n:,}"] *)
Definition format_thousands (n : nat) : string :=
  let digits := Text.str_of_nat n in
  commas digits ((String.length digits - 1) mod 3 + 1).

(** [str.upper] on text of ASCII letters, as the severity values are *)
Definition upper_char (c : ascii) : ascii :=
  let n := Text.ord c in
  if (97 <=? n) && (n <=? 122) then Text.chr (n - 32) else c.

Fixpoint upper (s : string) : string :=
  match s with
  | EmptyString => EmptyString
  | String c rest => String (upper_char c) (upper rest)
  end.

(** [s.split(sep)] for a one-character [sep]; [cur] is the part being
    read. *)
Fixpoint split_from (sep : ascii) (cur s : string) : list string :=
  match s with
  | EmptyString => [cur]
  | String c rest =>
      if Ascii.eqb c sep then cur :: split_from sep EmptyString rest
      else split_from sep (cur ++ String c EmptyString)%string rest
  end.

Definition split (sep : ascii) (s : string) : list string :=
  split_from sep EmptyString s.

(** [l.index(x)]: the first position of [x], the length of [l] when there
    is none *)
Fixpoint index (x : string) (l : list string) : nat :=
  match l with
  | [] => 0
  | y :: rest => if String.eqb y x then 0 else S (index x rest)
  end.

End Str.

(* ------------------------------------------------------------------ *)
(** ** The report as a Markdown document

    The document holds characters beyond the Latin-1 range, so its text is
    a list of code points. *)

Definition ustr : Set := list N.

(** The code points of a [str] of the Latin-1 range. *)
Definition u (s : string) : ustr :=
  map N_of_ascii (list_ascii_of_string s).

(** Every line with its line feed. *)
Definition unlines (lines : list ustr) : ustr :=
  flat_map (fun line => line ++ [10]%N) lines.

(** What [generate_report_markdown] comes to: the document, or the
    [IndexError] of [cwe_id.split('-')[1]]. *)
Inductive document : Set :=
| Document (md : ustr)
| IndexError.

(** The [risk_level] of [generate_report_markdown]. *)
Definition risk_level (risk : nat) : ustr :=
  if 75 <=? risk then [128308]%N ++ u " CRITICAL"
  else if 50 <=? risk then [128992]%N ++ u " HIGH"
  else if 25 <=? risk then [128993]%N ++ u " MEDIUM"
  else if 0 <? risk then [128994]%N ++ u " LOW"
  else [9989]%N ++ u " CLEAN".

Definition severity_icon (s : Severity) : ustr :=
  match s with
  | CRITICAL => [128308]%N
  | HIGH => [128992]%N
  | MEDIUM => [128993]%N
  | LOW => [128994]%N
  | INFO => [8505; 65039]%N
  end.

(** The three rows of the compliance table. *)
Definition owasp_status (report : AuditReport.t) : ustr :=
  match AuditReport.findings report with
  | [] => [9989]%N ++ u " Compliant"
  | _ :: _ => [9888; 65039]%N ++ u " Issues Found"
  end.

Definition cwe_status (report : AuditReport.t) : ustr :=
  if 0 <? AuditReport.critical_count report
  then [9888; 65039]%N ++ u " Review Required"
  else [9989]%N ++ u " No Critical Issues".

Definition pci_status (report : AuditReport.t) : ustr :=
  if 0 <? AuditReport.high_count report
  then [10060]%N ++ u " Action Required"
  else [9989]%N ++ u " Passing".

(** What the loop over the findings appends: a heading when the severity
    changes, then the finding. *)
Inductive piece : Set :=
| Heading (s : Severity)
| Entry (finding : Finding.t).

Fixpoint pieces (current_severity : option Severity)
  (findings : list Finding.t) : list piece :=
  match findings with
  | [] => []
  | finding :: rest =>
      let entry :=
        Entry finding :: pieces (Some (Finding.severity finding)) rest in
      match current_severity with
      | Some s =>
          if Severity_eqb (Finding.severity finding) s then entry
          else Heading (Finding.severity finding) :: entry
      | None => Heading (Finding.severity finding) :: entry
      end
  end.

Definition render_heading (s : Severity) : ustr :=
  [10]%N ++ u "### " ++ severity_icon s ++ u " "
  ++ u (Str.upper (Severity_value s)) ++ u " Severity" ++ [10; 10]%N.

(** [if value:] for an optional [str] *)
Definition truthy (value : option string) : option string :=
  match value with
  | Some EmptyString => None
  | other => other
  end.

(** The line of the CWE link; [None] is the [IndexError] of a [cwe_id]
    without hyphen. *)
Definition render_cwe (cwe_id : option string) : option ustr :=
  match truthy cwe_id with
  | None => Some []
  | Some cwe =>
      match nth_error (Str.split "-" cwe) 1 with
      | Some number =>
          Some (u "**CWE:** [" ++ u cwe
                ++ u "](https://cwe.mitre.org/data/definitions/" ++ u number
                ++ u ".html)  " ++ [10]%N)
      | None => None
      end
  end.

Definition render_owasp (owasp_category : option string) : ustr :=
  match truthy owasp_category with
  | None => []
  | Some owasp => u "**OWASP:** " ++ u owasp ++ u "  " ++ [10]%N
  end.

Definition render_finding (finding : Finding.t) : option ustr :=
  match render_cwe (Finding.cwe_id finding) with
  | None => None
  | Some cwe_line =>
      Some
        (unlines [
           u "#### [" ++ u (Finding.id finding) ++ u "] "
             ++ u (Finding.title finding);
           [];
           u "**Location:** `" ++ u (Finding.file_path finding)
             ++ u "` (line " ++ u (Text.str_of_nat (Finding.line_number finding))
             ++ u ")  ";
           u "**Category:** " ++ u (Finding.category finding) ++ u "  "]
         ++ cwe_line
         ++ render_owasp (Finding.owasp_category finding)
         ++ unlines [
           [];
           u "**Description:** " ++ u (Finding.description finding);
           [];
           u "**Code:**";
           u "```";
           u (Finding.code_snippet finding);
           u "```";
           [];
           u "**Recommendation:** " ++ u (Finding.recommendation finding);
           [];
           u "---";
           []])
  end.

(** The pieces one after the other, up to the first that raises. *)
Fixpoint render_pieces (l : list piece) : option ustr :=
  match l with
  | [] => Some []
  | Heading s :: rest =>
      match render_pieces rest with
      | Some md => Some (render_heading s ++ md)
      | None => None
      end
  | Entry finding :: rest =>
      match render_finding finding with
      | None => None
      | Some text =>
          match render_pieces rest with
          | Some md => Some (text ++ md)
          | None => None
          end
      end
  end.

Definition generate_report_markdown (strftime : datetime_t -> string)
  (report : AuditReport.t) : document :=
  let risk := AuditReport.risk_score report in
  let md := unlines [
    u "# " ++ [128293]%N ++ u " NullForge Security Audit Report";
    [];
    u "**Project:** `" ++ u (AuditReport.project_path report) ++ u "`  ";
    u "**Scan Time:** " ++ u (strftime (AuditReport.scan_time report)) ++ u "  ";
    u "**Duration:** " ++ u (Str.str_of_Z (AuditReport.duration_ms report)) ++ u "ms  ";
    [];
    u "---";
    [];
    u "## Executive Summary";
    [];
    u "| Metric | Value |";
    u "|--------|-------|";
    u "| **Risk Score** | **" ++ u (Text.str_of_nat risk) ++ u " / 100** (" ++ risk_level risk ++ u ") |";
    u "| **Files Scanned** | " ++ u (Text.str_of_nat (AuditReport.files_scanned report)) ++ u " |";
    u "| **Lines Analyzed** | " ++ u (Str.format_thousands (AuditReport.lines_scanned report)) ++ u " |";
    u "| **Total Findings** | " ++ u (Text.str_of_nat (List.length (AuditReport.findings report))) ++ u " |";
    [];
    u "### Findings by Severity";
    [];
    u "| Severity | Count |";
    u "|----------|-------|";
    u "| " ++ [128308]%N ++ u " Critical | " ++ u (Text.str_of_nat (AuditReport.critical_count report)) ++ u " |";
    u "| " ++ [128992]%N ++ u " High | " ++ u (Text.str_of_nat (AuditReport.high_count report)) ++ u " |";
    u "| " ++ [128993]%N ++ u " Medium | " ++ u (Text.str_of_nat (AuditReport.count MEDIUM report)) ++ u " |";
    u "| " ++ [128994]%N ++ u " Low | " ++ u (Text.str_of_nat (AuditReport.count LOW report)) ++ u " |";
    u "| " ++ [8505; 65039]%N ++ u " Info | " ++ u (Text.str_of_nat (AuditReport.count INFO report)) ++ u " |";
    [];
    u "---";
    [];
    u "## Detailed Findings";
    []] in
  let compliance := unlines [
    [];
    u "## Compliance Summary";
    [];
    u "| Framework | Status |";
    u "|-----------|--------|";
    u "| OWASP Top 10 2021 | " ++ owasp_status report ++ u " |";
    u "| CWE Top 25 | " ++ cwe_status report ++ u " |";
    u "| PCI DSS | " ++ pci_status report ++ u " |";
    [];
    u "---";
    [];
    u "## Recommendations";
    [];
    u "1. **Immediate Actions:** Address all CRITICAL and HIGH severity findings";
    u "2. **Short-term:** Review and fix MEDIUM severity issues";
    u "3. **Ongoing:** Implement security scanning in CI/CD pipeline";
    u "4. **Training:** Review secure coding guidelines with development team";
    [];
    u "---";
    [];
    u "*Generated by " ++ [128293]%N ++ u " NullForge Security Auditor v2.0*"] in
  match AuditReport.findings report with
  | [] =>
      Document
        (md ++ u "> " ++ [9989]%N
         ++ u " **No security issues found!** Great job maintaining secure code."
         ++ [10]%N ++ compliance)
  | _ :: _ =>
      match render_pieces (pieces None (AuditReport.findings report)) with
      | Some body => Document (md ++ body ++ compliance)
      | None => IndexError
      end
  end.

(* ------------------------------------------------------------------ *)
(** ** The arguments of [main] *)

(** What [main] reads off [sys.argv] (lines 690-707): nothing with fewer
    than two arguments, else the project path, whether [--json] occurs, and
    the argument after the first [--output] when there is one. *)
Definition main_arguments (argv : list string)
  : option (string * bool * option string) :=
  if List.length argv <? 2 then None
  else
    let project_path := nth 1 argv EmptyString in
    let output_json := existsb (String.eqb "--json") argv in
    let output_file :=
      if existsb (String.eqb "--output") argv then
        let idx := Str.index "--output" argv in
        if idx + 1 <? List.length argv
        then Some (nth (idx + 1) argv EmptyString)
        else None
      else None in
    Some (project_path, output_json, output_file).

(* ------------------------------------------------------------------ *)
(** ** A runtime and file trees to run the auditor on *)

Module Sample.

Local Abbreviation Q := Text.dq.
Local Notation "a +++ b" := (String.append a b)
  (at level 60, right associativity).

(** [["\']] and [[^"\']] *)
Definition quote : Re.regex := Re.any_of (Q +++ "'").
Definition not_quote : Re.regex := Re.none_of (Q +++ "'").
(** [[_-]?] *)
Definition sep : Re.regex := Re.opt (Re.any_of "_-").
(** [[A-Za-z0-9+/=]] and, under [(?i)], [[A-Z0-9]] *)
Definition base64_char : Re.regex :=
  Re.Class (fun c => Re.is_ascii_upper c || Re.is_ascii_lower c
                     || Re.is_digit c || Re.mem c "+/=").
Definition alnum_char : Re.regex :=
  Re.Class (fun c => Re.is_ascii_upper c || Re.is_ascii_lower c
                     || Re.is_digit c).
(** [\s*\(] *)
Definition open_paren : Re.regex := Re.Seq Re.ws (Re.lit "(").
(** [\s*=\s*] *)
Definition equals : Re.regex := Re.seqs [Re.ws; Re.lit "="; Re.ws].
(** [[^)]*] *)
Definition arguments : Re.regex := Re.Star (Re.none_of ")").

(** The registry's patterns as [re.compile] reads them, in registry order. *)
Definition compiled_patterns : list Re.regex := [
  (* secrets *)
  Re.seqs [Re.alts [Re.ilit "password"; Re.ilit "passwd"; Re.ilit "pwd"];
           equals; quote; Re.plus not_quote; quote];
  Re.seqs [Re.alts [Re.seqs [Re.ilit "api"; sep; Re.ilit "key"];
                    Re.ilit "apikey";
                    Re.seqs [Re.ilit "secret"; sep; Re.ilit "key"]];
           equals; quote; Re.at_least 16 base64_char; quote];
  Re.seqs [Re.alts [Re.seqs [Re.ilit "aws"; sep; Re.ilit "access"; sep;
                             Re.ilit "key"];
                    Re.seqs [Re.ilit "aws"; sep; Re.ilit "secret"]];
           equals; quote; Re.at_least 16 alnum_char; quote];
  Re.seqs [Re.lit "-----BEGIN ";
           Re.opt (Re.alts [Re.lit "RSA "; Re.lit "DSA "; Re.lit "EC "]);
           Re.lit "PRIVATE KEY-----"];
  (* injection *)
  Re.seqs [Re.lit "execute"; open_paren; Re.ws; Re.opt quote; Re.ws;
           Re.lit "SELECT"; Re.Star Re.dot; Re.lit "%s"];
  Re.seqs [Re.lit "cursor."; Re.alts [Re.lit "execute"; Re.lit "executemany"];
           open_paren; Re.plus (Re.none_of ","); Re.ws; Re.lit "%"];
  Re.seqs [Re.lit "subprocess.";
           Re.alts [Re.lit "call"; Re.lit "run"; Re.lit "Popen"];
           open_paren; arguments; Re.lit "shell"; equals; Re.lit "True"];
  Re.seqs [Re.lit "eval"; open_paren; arguments; Re.lit ")"];
  Re.seqs [Re.lit "exec"; open_paren; arguments; Re.lit ")"];
  (* xss *)
  Re.seqs [Re.lit "innerHTML"; Re.ws; Re.lit "="];
  Re.seqs [Re.lit "|"; Re.ws; Re.lit "safe"; Re.ws; Re.lit "}}"];
  Re.seqs [Re.lit "mark_safe"; open_paren];
  (* crypto *)
  Re.seqs [Re.alts [Re.ilit "md5"; Re.ilit "sha1"]; open_paren];
  Re.alts [Re.ilit "DES"; Re.ilit "RC4"; Re.ilit "Blowfish"];
  Re.alts [Re.seqs [Re.lit "random.random"; open_paren];
           Re.seqs [Re.lit "random.randint"; open_paren]];
  (* auth *)
  Re.seqs [Re.lit "verify"; equals; Re.lit "False"];
  Re.seqs [Re.ilit "debug"; equals; Re.ilit "True"];
  Re.seqs [Re.lit "ALLOWED_HOSTS"; equals; Re.lit "["; Re.ws; Re.opt quote;
           Re.lit "*"; Re.opt quote; Re.ws; Re.lit "]"];
  (* logging *)
  Re.seqs [Re.lit "print"; open_paren; arguments; Re.lit "password"];
  Re.seqs [Re.lit "logging.";
           Re.alts [Re.lit "debug"; Re.lit "info"; Re.lit "warning";
                    Re.lit "error"];
           open_paren; arguments; Re.lit "password"]
].

Fixpoint lookup {A : Type} (key : string) (table : list (string * A))
  : option A :=
  match table with
  | [] => None
  | (k, v) :: rest => if String.eqb k key then Some v else lookup key rest
  end.

(** [re.compile] on the patterns of the registry; the one other pattern the
    examples use, an unclosed group, is an [re.error]. *)
Definition sample_re_compile (pattern : string) : result Re.regex :=
  match lookup pattern
          (combine (map PatternDef.pattern (all_rules _load_security_patterns))
                   compiled_patterns) with
  | Some r => Ok r
  | None => Raise re_error
  end.

Definition lines_text (lines : list string) : string :=
  Text.join Text.nl lines.

Definition null_byte : string := String (Text.chr 0) EmptyString.

Definition src_eval_x : string := "eval(x)".
Definition src_eval_null : string := "eval(x)" +++ null_byte.
Definition src_eval_broken : string := lines_text ["eval(x)"; "def f(:"].
Definition src_assert_pickle : string :=
  lines_text ["import pickle"; "assert eval(x)"; "try:"; "    pass";
              "except:"; "    pass"].
Definition src_password : string := "password = " +++ Q +++ "hunter2" +++ Q.
Definition src_seven_lines : string :=
  lines_text ["a = 1"; "b = 2"; "c = 3"; "d = 4"; "eval(x)"; "f = 6"; "g = 7"].

Definition leaf : ast := Node OtherNode [].

(** [Name(ctx=Load())] or [Name(ctx=Store())]: the context is a node too. *)
Definition name_node : ast := Node OtherNode [leaf].

(** [Call(func=Name, args=[Name])] *)
Definition call_node : ast := Node OtherNode [name_node; name_node].

(** [Assign(targets=[Name], value=Constant)] *)
Definition assign_node : ast := Node OtherNode [name_node; leaf].

(** [ast.parse] on the sources above. The second one holds a null byte, on
    which the parser raises [ValueError]; [src_eval_broken] and whatever is
    not listed is a [SyntaxError]. *)
Definition sample_ast_parse (content : string) : result ast :=
  match lookup content [
    (src_eval_x, Ok (Node OtherNode [Node OtherNode [call_node]]));
    (src_eval_null, Raise ValueError);
    (src_assert_pickle,
       Ok (Node OtherNode [
             Node (Import ["pickle"] 1) [leaf];
             Node (Assert 2) [call_node];
             Node OtherNode [leaf; Node (ExceptHandler true 5) [leaf]]]));
    (src_password, Ok (Node OtherNode [assign_node]));
    (src_seven_lines,
       Ok (Node OtherNode [assign_node; assign_node; assign_node; assign_node;
                           Node OtherNode [call_node];
                           assign_node; assign_node]))
  ] with
  | Some r => r
  | None => Raise SyntaxError
  end.

Definition json_lodash : string :=
  "{" +++ Q +++ "dependencies" +++ Q +++ ": {" +++ Q +++ "lodash" +++ Q
      +++ ": " +++ Q +++ "4.17.0" +++ Q +++ "}}".
Definition json_list : string := "[1, 2]".
Definition json_truncated : string := "{" +++ Q +++ "dependencies" +++ Q +++ ": {".

(** [json.loads] on the manifests above; the last one, and whatever is not
    listed, is a [JSONDecodeError]. *)
Definition sample_json_loads (text : string) : result json :=
  match lookup text [
    (json_lodash, JDict [("dependencies", JDict [("lodash", JStr "4.17.0")])]);
    (json_list, JList [JInt 1%Z; JInt 2%Z])
  ] with
  | Some v => Ok v
  | None => Raise JSONDecodeError
  end.

(** [isoformat()] for the times within the first second of the epoch, in
    microseconds after its start: the fraction is left out when it is 0. *)
Definition sample_isoformat (time : datetime_t) : string :=
  if (time =? 0)%Z then "1970-01-01T00:00:00"
  else
    let digits := Text.str_of_nat (Z.to_nat time) in
    "1970-01-01T00:00:00." +++ Text.zeros (6 - String.length digits) +++ digits.

(** [int((end_time - start_time).total_seconds() * 1000)] for times within
    one second of each other: [int] cuts the fraction off towards zero. *)
Definition sample_elapsed_ms (start_time end_time : datetime_t) : Z :=
  Z.quot (end_time - start_time) 1000.

Definition runtime : Runtime :=
  mkRuntime sample_re_compile sample_ast_parse sample_json_loads
    (fun literal => literal)
    sample_elapsed_ms
    sample_isoformat.

(** The same interpreter under a hash seed that iterates sets the other way
    round. *)
Definition runtime_reversed : Runtime :=
  mkRuntime sample_re_compile sample_ast_parse sample_json_loads
    (fun literal => rev literal)
    sample_elapsed_ms
    sample_isoformat.

Definition file (name content : string) : FileEntry :=
  mkFileEntry [name] (Ok content).

Definition auditor : SecurityAuditor.t := SecurityAuditor.__init__ ["project"].

(** One Python file and one JavaScript file, a finding in each. *)
Definition tree_two_languages : FileTree :=
  mkFileTree [file "a.py" src_eval_x; file "b.js" src_eval_x] None None.

(** The Python file holds a null byte after its [eval] call. *)
Definition tree_null_byte : FileTree :=
  mkFileTree [file "a.py" src_eval_null; file "b.js" src_eval_x] None None.

(** A [requirements.txt] of bytes the default codec does not decode, such
    as a UTF-16 file with its byte order mark. *)
Definition tree_undecodable_requirements : FileTree :=
  mkFileTree [file "a.py" src_eval_x] (Some (Raise UnicodeDecodeError)) None.

Definition requirements_text : string :=
  lines_text ["Django==2.0"; "django-rest==1.0"; "flask"; "numpy"].

(** Dependencies in [requirements.txt], a truncated [package.json]. *)
Definition tree_manifests : FileTree :=
  mkFileTree [] (Some (Ok requirements_text)) (Some (Ok json_truncated)).

Definition tree_lodash : FileTree :=
  mkFileTree [] None (Some (Ok json_lodash)).

(** A registry with a rule whose pattern is an unclosed group. *)
Definition broken_registry : Registry := [
  ("injection", injection_rules);
  ("custom", [PatternDef.mk "(" "Unclosed Group" LOW None None
                "A rule that does not compile." "Fix the rule."])
].

Definition auditor_broken_registry : SecurityAuditor.t :=
  SecurityAuditor.mk ["project"] [] 0 broken_registry.

Definition tree_manifest_and_source : FileTree :=
  mkFileTree [file "a.py" src_eval_x; file "b.js" src_eval_x]
    (Some (Ok requirements_text)) None.

(** The interpreter from version 3.12 on: a null byte in the source is a
    [SyntaxError] like any other. *)
Definition runtime_312 : Runtime :=
  mkRuntime sample_re_compile
    (fun content =>
       match sample_ast_parse content with
       | Ok tree => Ok tree
       | Raise _ => Raise SyntaxError
       end)
    sample_json_loads
    (fun literal => literal)
    sample_elapsed_ms
    sample_isoformat.

(** A password, a pickle import, an assertion and a bare handler. *)
Definition tree_mixed : FileTree :=
  mkFileTree [file "x.py" src_assert_pickle; file "y.py" src_password;
              file "z.js" src_seven_lines]
    (Some (Ok requirements_text)) (Some (Ok json_lodash)).

(** Two calls of [eval] on the first line; [exec] around [eval] on the
    second. *)
Definition lines_two_matches : list string :=
  ["eval(a) + eval(b)"; "exec(eval(x))"; "x = 1"].

Definition finding_of (severity : Severity) : Finding.t :=
  Finding.mk "NF-0001" "A finding" severity "injection" "a.py" 1 "1: x"
    "A description." "A recommendation." None None.

Definition report_of (severities : list Severity) : AuditReport.t :=
  AuditReport.mk "project" 0%Z 0%Z 1 1 (map finding_of severities).

End Sample.

(* ------------------------------------------------------------------ *)
(** ** Vocabulary of the statements *)

Import SecurityAuditor.

(** The id the counter value [n] is printed as. *)
Definition finding_id (n : nat) : string :=
  ("NF-" ++ Text.format_04d n)%string.

(** [self] after [k] more ids were handed out. *)
Definition bump (k : nat) (self : SecurityAuditor.t) : SecurityAuditor.t :=
  SecurityAuditor.mk (project_path self) (findings self)
    (finding_counter self + k) (patterns self).

Definition rank (f : Finding.t) : nat := severity_order (Finding.severity f).

Definition has_severity (s : Severity) (f : Finding.t) : bool :=
  Severity_eqb (Finding.severity f) s.

(** A computation that only hands out ids and appends the findings that
    carry them to [acc]: it leaves [self] as it was but for the counter, and
    when it returns, the new findings carry the consecutive ids that follow
    the counter it started from. *)
Definition emits (m : M (list Finding.t)) (acc : list Finding.t) : Prop :=
  forall self,
  exists k,
    snd (m self) = bump k self /\
    match fst (m self) with
    | Ok out =>
        exists new,
          out = acc ++ new /\ List.length new = k /\
          map Finding.id new = map finding_id (seq (S (finding_counter self)) k)
    | Raise _ => True
    end.

(** The sum [risk_score] takes over the findings, severity by severity. *)
Definition weighted_counts (r : AuditReport.t) : nat :=
  AuditReport.weights CRITICAL * AuditReport.count CRITICAL r
  + AuditReport.weights HIGH * AuditReport.count HIGH r
  + AuditReport.weights MEDIUM * AuditReport.count MEDIUM r
  + AuditReport.weights LOW * AuditReport.count LOW r
  + AuditReport.weights INFO * AuditReport.count INFO r.

(** The order [sort_by_key] sorts into. *)
Definition key_le {A : Type} (key : A -> nat) (x y : A) : Prop :=
  key x <= key y.

(** The lodash finding, once it has its id. *)
Definition lodash_finding (fid : string) : Finding.t :=
  Finding.mk fid "Check Lodash Version" INFO "dependencies" "package.json" 1
    "lodash in dependencies"
    "Lodash has had multiple CVEs. Ensure version is current."
    "Run 'npm audit' for detailed vulnerability check." None None.

(** The ids in the list are those of strictly increasing counter values,
    none above the counter. *)
Definition ids_increasing (self : SecurityAuditor.t) : Prop :=
  exists ns,
    map Finding.id (findings self) = map finding_id ns
    /\ StronglySorted lt ns
    /\ Forall (fun n => 1 <= n <= finding_counter self) ns.

(** The ids in the list are those of every counter value so far. *)
Definition ids_complete (self : SecurityAuditor.t) : Prop :=
  map Finding.id (findings self)
  = map finding_id (seq 1 (finding_counter self)).

(** [self] after the findings [new] got their ids and joined the list. *)
Definition with_new (self : SecurityAuditor.t) (new : list Finding.t)
  : SecurityAuditor.t :=
  SecurityAuditor.mk (project_path self) (findings self ++ new)
    (finding_counter self + List.length new) (patterns self).

(** Every rule of the registry has a pattern that compiles. *)
Definition registry_compiles (rt : Runtime) (reg : Registry) : Prop :=
  forall rule_, In rule_ (all_rules reg) ->
    exists regex, re_compile rt (PatternDef.pattern rule_) = Ok regex.

(** The parser rejects a source with [SyntaxError] and nothing else. *)
Definition parser_raises_only_SyntaxError (rt : Runtime) : Prop :=
  forall content e, ast_parse rt content = Raise e -> e = SyntaxError.

Definition returns {A : Type} (m : M A) : Prop :=
  forall self, exists a, fst (m self) = Ok a.

Fixpoint leading_zeros (k : nat) (d : Decimal.uint) : Decimal.uint :=
  match k with
  | 0 => d
  | S k' => Decimal.D0 (leading_zeros k' d)
  end.

(** [f] with the id [fid]. *)
Definition set_id (fid : string) (f : Finding.t) : Finding.t :=
  Finding.mk fid (Finding.title f) (Finding.severity f) (Finding.category f)
    (Finding.file_path f) (Finding.line_number f) (Finding.code_snippet f)
    (Finding.description f) (Finding.recommendation f) (Finding.cwe_id f)
    (Finding.owasp_category f).

(** The findings [hits], in this order, get the ids after the counter
    value [c]. *)
Fixpoint assign_ids (c : nat) (hits : list Finding.t) : list Finding.t :=
  match hits with
  | [] => []
  | h :: rest => set_id (finding_id (S c)) h :: assign_ids (S c) rest
  end.

(** A finding without id yet. *)
Definition pending (title : string) (severity : Severity)
  (category file_path : string) (line_number : nat)
  (code_snippet description recommendation : string)
  (cwe_id owasp_category : option string) : Finding.t :=
  Finding.mk EmptyString title severity category file_path line_number
    code_snippet description recommendation cwe_id owasp_category.

(** What [requirements.txt] with the text [content] is reported for. *)
Definition requirement_hits (content : string) : list Finding.t :=
  flat_map
    (fun '(vuln_pattern, (title, severity)) =>
       if mentions vuln_pattern content then
         [pending title severity "dependencies" "requirements.txt" 1
            "Check requirements.txt"
            ("Potentially vulnerable dependency: " ++ vuln_pattern)%string
            "Update to the latest secure version."
            (Some "CWE-1104") (Some "A06:2021")]
       else [])
    vulnerable_packages.

Definition at_line_1_of (manifest : string) (f : Finding.t) : Prop :=
  Finding.file_path f = manifest /\ Finding.line_number f = 1
  /\ Finding.category f = "dependencies".

Definition has_title (title : string) (f : Finding.t) : bool :=
  String.eqb (Finding.title f) title.

Definition is_clock_key (key : string) : bool :=
  String.eqb key "scan_time" || String.eqb key "duration_ms".

(** The structured output without the [scan_time] and [duration_ms]
    entries of its [meta] part. *)
Definition without_clock (structured : json) : json :=
  match structured with
  | JDict ((key, JDict meta) :: rest) =>
      if String.eqb key "meta" then
        JDict ((key,
                JDict (filter (fun kv => negb (is_clock_key (fst kv))) meta))
               :: rest)
      else structured
  | _ => structured
  end.

(** The lines [first] to [last] of a file, each behind its number. *)
Definition numbered_lines (lines : list string) (first last : nat) : string :=
  Text.join Text.nl
    (map (fun j => (Text.str_of_nat j ++ ": " ++ nth (j - 1) lines EmptyString)%string)
         (range first (last + 1))).

(** The window as the specification words it: the line range
    [[i-3, i+2]] clamped to the lines [[1, L]] of the file. *)
Definition claimed_window (lines : list string) (i : nat) : string :=
  numbered_lines lines (Nat.max 1 (i - 3))
    (Nat.min (List.length lines) (i + 2)).

(** Some rule of the registry has a pattern [re.compile] rejects. *)
Definition has_broken_rule (rt : Runtime) (reg : Registry) : Prop :=
  exists category rules rule_ e,
    In (category, rules) reg /\ In rule_ rules
    /\ re_compile rt (PatternDef.pattern rule_) = Raise e.

(** [regex.search(line)] for the pattern of a rule. *)
Definition line_matches (rt : Runtime) (rule_ : PatternDef.t) (line : string)
  : bool :=
  match re_compile rt (PatternDef.pattern rule_) with
  | Ok regex => Re.search regex line
  | Raise _ => false
  end.

(** What one rule reports in a file. *)
Definition rule_hits (rt : Runtime) (category rel_path : string)
  (lines : list string) (rule_ : PatternDef.t) : list Finding.t :=
  flat_map
    (fun '(i, line) =>
       if line_matches rt rule_ line then
         [pending (PatternDef.title rule_) (PatternDef.severity rule_)
            category rel_path i (snippet lines i)
            (PatternDef.description rule_) (PatternDef.recommendation rule_)
            (PatternDef.cwe rule_) (PatternDef.owasp rule_)]
       else [])
    (enumerate lines 1).

(** What the registry reports in a file. *)
Definition textual_hits (rt : Runtime) (reg : Registry) (rel_path : string)
  (lines : list string) : list Finding.t :=
  flat_map
    (fun '(category, rules) =>
       flat_map (rule_hits rt category rel_path lines) rules)
    reg.


Definition title_and_line (f : Finding.t) : string * nat :=
  (Finding.title f, Finding.line_number f).


(** The nodes in a queue of [ast.walk], with those below them. *)
Definition forest_size (todo : list ast) : nat := list_sum (map ast_size todo).


Definition all_compile (rt : Runtime) (reg : Registry) : bool :=
  forallb (fun rule_ =>
             match re_compile rt (PatternDef.pattern rule_) with
             | Ok _ => true
             | Raise _ => false
             end)
          (all_rules reg).

(* ------------------------------------------------------------------ *)
(** ** What a scan reports, as lists *)

(** What the structural inspector reports for one node. *)
Definition node_hits (rel_path : string) (node : ast) : list Finding.t :=
  match kind_of node with
  | Assert lineno =>
      [pending "Security Assert Statement" LOW "code_quality" rel_path lineno
         (Text.str_of_nat lineno ++ ": assert ...")%string
         "Assert statements are removed when Python runs with -O flag."
         "Use explicit if/raise for security checks."
         (Some "CWE-617") None]
  | ExceptHandler true lineno =>
      [pending "Bare Except Clause" LOW "code_quality" rel_path lineno
         (Text.str_of_nat lineno ++ ": except:")%string
         "Bare except catches all exceptions including KeyboardInterrupt."
         "Catch specific exceptions: except Exception:"
         (Some "CWE-396") None]
  | ExceptHandler false _ => []
  | Import names lineno =>
      flat_map
        (fun alias =>
           if String.eqb alias "pickle" then
             [pending "Pickle Deserialization Risk" MEDIUM "injection"
                rel_path lineno
                (Text.str_of_nat lineno ++ ": import pickle")%string
                "Pickle can execute arbitrary code during deserialization."
                "Use JSON or other safe serialization formats for untrusted data."
                (Some "CWE-502") (Some "A08:2021")]
           else [])
        names
  | OtherNode => []
  end.

(** What the structural inspector reports for a source: nothing when it
    does not parse. *)
Definition structural_hits (rt : Runtime) (content rel_path : string)
  : list Finding.t :=
  match ast_parse rt content with
  | Ok tree => flat_map (node_hits rel_path) (ast_walk tree)
  | Raise _ => []
  end.

(** What [scan_file] reports for a file: the textual findings, then the
    structural ones of a Python file. *)
Definition file_hits (rt : Runtime) (reg : Registry) (e : FileEntry)
  : list Finding.t :=
  match read_text_ignore e with
  | Raise _ => []
  | Ok content =>
      textual_hits rt reg (path_str (rel_parts e)) (Text.splitlines content)
      ++ (if String.eqb (Text.path_suffix (entry_name e)) ".py"
          then structural_hits rt content (path_str (rel_parts e))
          else [])
  end.

(** The files [scan] reads: those of the extensions, outside the skipped
    directories, that can be read. *)
Definition eligible (path : Path) (e : FileEntry) : bool :=
  negb (in_skipped_directory (path ++ rel_parts e))
  && match read_text_ignore e with Ok _ => true | Raise _ => false end.

Definition eligible_files (rt : Runtime) (path : Path) (tree : FileTree)
  : list FileEntry :=
  flat_map (fun ext => filter (eligible path) (rglob tree ext))
           (set_iter rt extensions).

Definition line_count (e : FileEntry) : nat :=
  match read_text_ignore e with
  | Ok content => List.length (Text.splitlines content)
  | Raise _ => 0
  end.

(** [f] is, but for its id, a finding of a file that [scan] reads. *)
Definition from_file (rt : Runtime) (reg : Registry) (path : Path)
  (tree : FileTree) (f : Finding.t) : Prop :=
  exists e h,
    In e (eligible_files rt path tree)
    /\ In h (file_hits rt reg e)
    /\ f = set_id (Finding.id f) h.

(** [f] is, but for its id, a finding of one of the two manifests. *)
Definition from_manifest (tree : FileTree) (f : Finding.t) : Prop :=
  (exists content h,
     requirements_txt tree = Some (Ok content)
     /\ In h (requirement_hits content)
     /\ f = set_id (Finding.id f) h)
  \/ (package_json tree <> None /\ f = lodash_finding (Finding.id f)).

(** The categories of the auditor: those of the registry, of the structural
    inspector and of the dependency scanner. *)
Definition known_categories : list string :=
  ["secrets"; "injection"; "xss"; "crypto"; "auth"; "logging";
   "code_quality"; "dependencies"].

(** The nodes of a tree, parents before children. *)
Fixpoint nodes (tree : ast) : list ast :=
  match tree with
  | Node kind children => Node kind children :: flat_map nodes children
  end.

(** What the structural inspector says of a node: titles and lines. *)
Definition node_report (node : ast) : list (string * nat) :=
  match kind_of node with
  | Assert lineno => [("Security Assert Statement", lineno)]
  | ExceptHandler true lineno => [("Bare Except Clause", lineno)]
  | ExceptHandler false _ => []
  | Import names lineno =>
      map (fun _ => ("Pickle Deserialization Risk", lineno))
          (filter (fun alias => String.eqb alias "pickle") names)
  | OtherNode => []
  end.

(** One turn of the loop of [scan] over the files. *)
Definition scan_one (rt : Runtime) (path : Path) (file_path : FileEntry)
  (counters : nat * nat) : M (nat * nat) :=
  let '(files_scanned, lines_scanned) := counters in
  if in_skipped_directory (path ++ rel_parts file_path)
  then ret (files_scanned, lines_scanned)
  else
    match read_text_ignore file_path with
    | Raise _ => ret (files_scanned, lines_scanned)
    | Ok content =>
        let lines_scanned :=
          lines_scanned + List.length (Text.splitlines content) in
        let files_scanned := files_scanned + 1 in
        try_except
          (file_findings <- scan_file rt file_path ;;
           _ <- extend_findings file_findings ;;
           ret (files_scanned, lines_scanned))
          (ret (files_scanned, lines_scanned))
    end.

(** The scan of the file [e], when [scan] gets to it, keeps [P]. *)
Definition kept_by (rt : Runtime) (P : SecurityAuditor.t -> Prop)
  (e : FileEntry) : Prop :=
  forall (c : nat * nat) s,
    P s ->
    exists s',
      try_except (ff <- scan_file rt e ;;
                  _ <- extend_findings ff ;; ret c) (ret c) s
      = (Ok c, s') /\ P s'.

(* ------------------------------------------------------------------ *)
(** ** Vocabulary for the report document *)

Fixpoint occurrences (c : ascii) (s : string) : nat :=
  match s with
  | EmptyString => 0
  | String d rest => (if Ascii.eqb d c then 1 else 0) + occurrences c rest
  end.

(** The finding has a [cwe_id] that is not empty and holds no hyphen. *)
Definition cwe_without_hyphen (f : Finding.t) : Prop :=
  exists cwe,
    Finding.cwe_id f = Some cwe /\ cwe <> EmptyString
    /\ occurrences "-" cwe = 0.

(** The same, decided on the field. *)
Definition cwe_renders (cwe_id : option string) : bool :=
  match truthy cwe_id with
  | None => true
  | Some cwe => 0 <? occurrences "-" cwe
  end.

Definition all_severities : list Severity :=
  [CRITICAL; HIGH; MEDIUM; LOW; INFO].

(** One heading for each severity that occurs, in rank order, each
    followed by the findings of that severity in their order. *)
Definition by_severity (findings : list Finding.t) : list piece :=
  flat_map
    (fun s =>
       match filter (has_severity s) findings with
       | [] => []
       | f :: group => Heading s :: map Entry (f :: group)
       end)
    all_severities.

(** The entry of the structured output at a path of keys. *)
Fixpoint json_at (keys : list string) (value : json) : option json :=
  match keys with
  | [] => Some value
  | key :: rest =>
      match value with
      | JDict d =>
          match Dict.get key d with
          | Some inner => json_at rest inner
          | None => None
          end
      | _ => None
      end
  end.

(** Every rule of the registry has a [cwe] the document can link. *)
Definition registry_cwe_render (reg : Registry) : bool :=
  forallb (fun rule_ => cwe_renders (PatternDef.cwe rule_)) (all_rules reg).

(** The severity the loop of the document last wrote a heading for is not
    in [sevs]. *)
Definition not_current (current : option Severity) (sevs : list Severity)
  : Prop :=
  match current with
  | Some s => ~ In s sevs
  | None => True
  end.

(** A section of [package.json] as [scan_dependencies] takes it: empty when
    the key is missing, nothing when its value is not an object. *)
Definition section_of (pkg : Dict.t) (key : string) : option Dict.t :=
  match Dict.get key pkg with
  | None => Some []
  | Some (JDict d) => Some d
  | Some _ => None
  end.

(** [lodash] is a key of [dependencies] or of [devDependencies], where
    both are objects or missing. *)
Definition declares_lodash (pkg : Dict.t) : bool :=
  match section_of pkg "dependencies", section_of pkg "devDependencies" with
  | Some dependencies, Some devDependencies =>
      Dict.mem "lodash" dependencies || Dict.mem "lodash" devDependencies
  | _, _ => false
  end.

(* ------------------------------------------------------------------ *)
(** ** What two scans of one tree have in common *)

(** [f] without its id. *)
Definition anonymous (f : Finding.t) : Finding.t := set_id EmptyString f.

(** The parser returns a tree or raises [SyntaxError], the one exception
    [_analyze_python_ast] handles. *)
Definition parses (rt : Runtime) (content : string) : bool :=
  match ast_parse rt content with
  | Ok _ => true
  | Raise SyntaxError => true
  | Raise _ => false
  end.

(** [scan_file] returns for the file: every pattern compiles and, for a
    Python file, the source parses. *)
Definition file_scan_returns (rt : Runtime) (reg : Registry) (e : FileEntry)
  : bool :=
  match read_text_ignore e with
  | Raise _ => true
  | Ok content =>
      all_compile rt reg
      && (if String.eqb (Text.path_suffix (entry_name e)) ".py"
          then parses rt content
          else true)
  end.

(** What the loop of [scan] keeps of a file: nothing when [scan_file]
    raises. *)
Definition kept_hits (rt : Runtime) (reg : Registry) (e : FileEntry)
  : list Finding.t :=
  if file_scan_returns rt reg e then file_hits rt reg e else [].

(** What [package.json] is reported for. *)
Definition lodash_hits (rt : Runtime) (tree : FileTree) : list Finding.t :=
  match package_json tree with
  | Some (Ok text) =>
      match json_loads rt text with
      | Ok (JDict pkg) =>
          if declares_lodash pkg then [lodash_finding EmptyString] else []
      | _ => []
      end
  | _ => []
  end.

(** What the two manifests are reported for. *)
Definition dependency_hits (rt : Runtime) (tree : FileTree)
  : list Finding.t :=
  match requirements_txt tree with
  | Some (Ok content) => requirement_hits content
  | _ => []
  end ++ lodash_hits rt tree.

(** Everything a scan collects, but for the ids: what it keeps of the
    files it reads, in the order it reads them, then the findings of the
    manifests. *)
Definition collected_hits (rt : Runtime) (reg : Registry) (path : Path)
  (tree : FileTree) : list Finding.t :=
  flat_map (kept_hits rt reg) (eligible_files rt path tree)
  ++ dependency_hits rt tree.

(** Two processes run the same regular expression engine, parser and JSON
    reader; the hash seed, and so the order in which a set is iterated, and
    the clock are their own. *)
Definition same_library (rt rt' : Runtime) : Prop :=
  re_compile rt = re_compile rt'
  /\ ast_parse rt = ast_parse rt'
  /\ json_loads rt = json_loads rt'.

(* ------------------------------------------------------------------ *)
(** ** More sample inputs *)

Module Example.

(** A Python file whose scan fails on a null byte, a JavaScript file,
    files under [node_modules], [.venv], [target] and [.tox], and a Python
    file that cannot be read. *)
Definition tree_counts : FileTree :=
  mkFileTree
    [Sample.file "a.py" Sample.src_eval_null;
     Sample.file "b.js" Sample.src_eval_x;
     mkFileEntry ["node_modules"; "x.js"] (Ok Sample.src_eval_x);
     mkFileEntry [".venv"; "lib"; "y.py"] (Ok Sample.src_eval_x);
     mkFileEntry ["target"; "z.java"] (Ok Sample.src_eval_x);
     mkFileEntry ["pkg"; ".tox"; "w.py"] (Ok Sample.src_eval_x);
     mkFileEntry ["c.py"] (Raise OSError)]
    None None.

(** The auditor after one scan of the tree with two languages. *)
Definition scanned_once : SecurityAuditor.t :=
  snd (SecurityAuditor.scan Sample.runtime Sample.tree_two_languages
         0%Z 5%Z Sample.auditor).

Definition argv_output_last : list string :=
  ["auditor.py"; "project"; "--json"; "--output"].

Definition argv_output_file : list string :=
  ["auditor.py"; "project"; "--output"; "report.md"; "--output"; "other.md"].

(** A report with a finding whose [cwe_id] has no hyphen. *)
Definition report_cwe_without_hyphen : AuditReport.t :=
  AuditReport.mk "project" 0%Z 0%Z 1 1
    [Finding.mk "NF-0001" "A finding" LOW "custom" "a.py" 1 "1: x"
       "A description." "A recommendation." (Some "CWE798") None].

End Example.

(* ------------------------------------------------------------------ *)
(** ** The monad and its loops *)

Lemma bump_0 self : bump 0 self = self.
Proof.
  destruct self; unfold bump; simpl. f_equal. lia.
Qed.

Lemma bump_bump j k self : bump k (bump j self) = bump (j + k) self.
Proof.
  unfold bump; simpl. f_equal. lia.
Qed.

Lemma emits_ret acc : emits (ret acc) acc.
Proof.
  intros self. exists 0. simpl. split.
  - symmetry. apply bump_0.
  - exists []. rewrite app_nil_r. auto.
Qed.

Lemma emits_raise e acc : emits (lift (Raise e)) acc.
Proof.
  intros self. exists 0. simpl. split; [symmetry; apply bump_0 | exact I].
Qed.

Lemma emits_append acc ti se ca fp ln cs de re cw ow :
  emits (append_finding acc ti se ca fp ln cs de re cw ow) acc.
Proof.
  intros self. exists 1. simpl. split; [reflexivity|].
  eexists [_]. repeat split. simpl. unfold finding_id.
  now rewrite Nat.add_1_r.
Qed.

Lemma emits_bind m k acc :
  emits m acc -> (forall out, emits (k out) out) -> emits (bind m k) acc.
Proof.
  intros Hm Hk self. unfold bind.
  destruct (Hm self) as (k1 & Hs & Hr).
  destruct (m self) as [[out|e] self1]; simpl in *; subst self1.
  - destruct Hr as (new1 & -> & Hlen & Hids).
    destruct (Hk (acc ++ new1) (bump k1 self)) as (k2 & Hs2 & Hr2).
    exists (k1 + k2). rewrite Hs2, bump_bump. split; [reflexivity|].
    destruct (fst (k (acc ++ new1) (bump k1 self))) as [out2|]; [|exact I].
    destruct Hr2 as (new2 & -> & Hlen2 & Hids2).
    exists (new1 ++ new2). rewrite app_assoc, length_app, map_app.
    repeat split; [lia|].
    rewrite Hids, Hids2, seq_app, map_app. reflexivity.
  - exists k1. auto.
Qed.

Lemma emits_lift {A} (r : result A) (k : A -> M (list Finding.t)) acc :
  (forall a, emits (k a) acc) -> emits (bind (lift r) k) acc.
Proof.
  intros Hk. destruct r as [a|e]; unfold bind, lift; simpl.
  - apply Hk.
  - apply (emits_raise e).
Qed.

Lemma emits_for_each {A} (l : list A) body acc :
  (forall x acc, emits (body x acc) acc) -> emits (for_each l body acc) acc.
Proof.
  intros Hb. revert acc.
  induction l as [|x l IH]; intros acc; simpl.
  - apply emits_ret.
  - apply emits_bind; [apply Hb | intros out; apply IH].
Qed.

(** [more <- m ;; ret (acc ++ more)], for [m] that starts from no finding. *)
Lemma emits_extend m acc :
  emits m [] -> emits (bind m (fun more => ret (acc ++ more))) acc.
Proof.
  intros Hm self. unfold bind, ret.
  destruct (Hm self) as (k & Hs & Hr).
  destruct (m self) as [[out|e] self1]; simpl in *; exists k; split; auto.
  destruct Hr as (new & -> & Hlen & Hids). exists new. auto.
Qed.

(* ------------------------------------------------------------------ *)
(** ** Counts, risk score and exit status *)

Lemma Severity_eqb_eq a b : Severity_eqb a b = true <-> a = b.
Proof.
  destruct a, b; simpl; split; intros H; try reflexivity; discriminate.
Qed.

Lemma count_positive s r :
  0 < AuditReport.count s r <->
  exists f, In f (AuditReport.findings r) /\ Finding.severity f = s.
Proof.
  unfold AuditReport.count.
  induction (AuditReport.findings r) as [|f fs IH]; simpl.
  - split; [lia | intros (f & [] & _)].
  - destruct (Severity_eqb (Finding.severity f) s) eqn:E; simpl.
    + apply Severity_eqb_eq in E. split; [|lia].
      intros _. exists f. auto.
    + rewrite IH. split.
      * intros (g & Hin & Hs). exists g. auto.
      * intros (g & [<- | Hin] & Hs); [|exists g; auto].
        apply Severity_eqb_eq in Hs. congruence.
Qed.

Lemma count_zero s r :
  AuditReport.count s r = 0 <->
  forall f, In f (AuditReport.findings r) -> Finding.severity f <> s.
Proof.
  split.
  - intros H f Hin Hs.
    assert (0 < AuditReport.count s r) by (apply count_positive; eauto).
    lia.
  - intros H. destruct (AuditReport.count s r) eqn:E; [reflexivity|].
    assert (Hpos : 0 < AuditReport.count s r) by lia.
    apply count_positive in Hpos. destruct Hpos as (f & Hin & Hs).
    now destruct (H f Hin).
Qed.

Lemma sum_of_weights r :
  list_sum (map (fun f => AuditReport.weights (Finding.severity f))
                (AuditReport.findings r))
  = weighted_counts r.
Proof.
  unfold weighted_counts, AuditReport.count.
  induction (AuditReport.findings r) as [|f fs IH]; [reflexivity|].
  simpl map. simpl list_sum. rewrite IH. cbn [filter].
  destruct (Finding.severity f);
    cbn [Severity_eqb AuditReport.weights List.length]; lia.
Qed.

Lemma risk_score_clamped_sum r :
  AuditReport.risk_score r = Nat.min 100 (weighted_counts r).
Proof.
  unfold AuditReport.risk_score. rewrite <- sum_of_weights.
  destruct (AuditReport.findings r); reflexivity.
Qed.

(** C3. The risk score is the sum of the per-severity counts weighted 25,
    15, 5, 2 and 0 (strictly decreasing from CRITICAL to LOW, nothing for
    INFO), cut off at 100; it lies in [0, 100]; and it does not decrease
    when the CRITICAL, HIGH, MEDIUM and LOW counts do not. *)
Theorem risk_score_weighted_clamped_monotone :
  (AuditReport.weights CRITICAL > AuditReport.weights HIGH
   /\ AuditReport.weights HIGH > AuditReport.weights MEDIUM
   /\ AuditReport.weights MEDIUM > AuditReport.weights LOW
   /\ AuditReport.weights LOW > AuditReport.weights INFO
   /\ AuditReport.weights INFO = 0)
  /\ (forall r,
        AuditReport.risk_score r = Nat.min 100 (weighted_counts r)
        /\ 0 <= AuditReport.risk_score r <= 100)
  /\ (forall r r',
        AuditReport.count CRITICAL r <= AuditReport.count CRITICAL r' ->
        AuditReport.count HIGH r <= AuditReport.count HIGH r' ->
        AuditReport.count MEDIUM r <= AuditReport.count MEDIUM r' ->
        AuditReport.count LOW r <= AuditReport.count LOW r' ->
        AuditReport.risk_score r <= AuditReport.risk_score r').
Proof.
  split; [simpl; lia|]. split.
  - intros r. rewrite risk_score_clamped_sum. lia.
  - intros r r' Hc Hh Hm Hl. rewrite !risk_score_clamped_sum.
    unfold weighted_counts. simpl AuditReport.weights.
    apply Nat.min_le_compat_l. nia.
Qed.

(** C4. The exit status is 0 without CRITICAL and HIGH findings, 1 with a
    HIGH finding and no CRITICAL one, 2 with a CRITICAL finding. *)
Theorem exit_code_by_worst_severity (r : AuditReport.t) :
  ((forall f, In f (AuditReport.findings r) ->
      Finding.severity f <> CRITICAL /\ Finding.severity f <> HIGH) ->
   exit_code r = 0)
  /\ ((exists f, In f (AuditReport.findings r) /\ Finding.severity f = HIGH) ->
      (forall f, In f (AuditReport.findings r) -> Finding.severity f <> CRITICAL) ->
      exit_code r = 1)
  /\ ((exists f, In f (AuditReport.findings r) /\ Finding.severity f = CRITICAL) ->
      exit_code r = 2).
Proof.
  unfold exit_code, AuditReport.critical_count, AuditReport.high_count.
  repeat split.
  - intros H.
    assert (Hc : AuditReport.count CRITICAL r = 0)
      by (apply count_zero; intros f Hin; apply (H f Hin)).
    assert (Hh : AuditReport.count HIGH r = 0)
      by (apply count_zero; intros f Hin; apply (H f Hin)).
    now rewrite Hc, Hh.
  - intros Hh Hc.
    apply count_positive in Hh. apply count_zero in Hc. rewrite Hc. simpl.
    apply Nat.ltb_lt in Hh. now rewrite Hh.
  - intros Hc. apply count_positive in Hc. apply Nat.ltb_lt in Hc.
    now rewrite Hc.
Qed.

(* ------------------------------------------------------------------ *)
(** ** The stable sort *)

Section SortFacts.
Variable A : Type.
Variable key : A -> nat.

Lemma insert_by_key_perm x l : Permutation (insert_by_key key x l) (x :: l).
Proof.
  induction l as [|y l IH]; simpl; [reflexivity|].
  destruct (key x <=? key y); [reflexivity|].
  rewrite IH. apply perm_swap.
Qed.

Lemma sort_by_key_perm l : Permutation (sort_by_key key l) l.
Proof.
  induction l as [|x l IH]; simpl; [reflexivity|].
  rewrite insert_by_key_perm. now constructor.
Qed.

Lemma insert_by_key_sorted x l :
  StronglySorted (key_le key) l -> StronglySorted (key_le key) (insert_by_key key x l).
Proof.
  induction 1 as [|y l Hs IH Hy]; simpl.
  - repeat constructor.
  - destruct (key x <=? key y) eqn:E.
    + apply Nat.leb_le in E. constructor; [now constructor|].
      constructor; [exact E|].
      eapply Forall_impl; [|exact Hy]. unfold key_le. intros; lia.
    + apply Nat.leb_gt in E. constructor; [exact IH|].
      eapply Permutation_Forall; [symmetry; apply insert_by_key_perm|].
      constructor; [unfold key_le; lia | exact Hy].
Qed.

Lemma sort_by_key_sorted l : StronglySorted (key_le key) (sort_by_key key l).
Proof.
  induction l as [|x l IH]; simpl; [constructor|].
  now apply insert_by_key_sorted.
Qed.

(** Stability: the elements of one key keep the order they came in. *)
Lemma insert_by_key_filter k x l :
  filter (fun y => key y =? k) (insert_by_key key x l)
  = filter (fun y => key y =? k) (x :: l).
Proof.
  induction l as [|y l IH]; [reflexivity|].
  simpl insert_by_key. destruct (key x <=? key y) eqn:E; [reflexivity|].
  apply Nat.leb_gt in E. cbn [filter] in *. rewrite IH.
  destruct (key x =? k) eqn:Ex, (key y =? k) eqn:Ey; try reflexivity.
  apply Nat.eqb_eq in Ex, Ey. lia.
Qed.

Lemma sort_by_key_filter k l :
  filter (fun y => key y =? k) (sort_by_key key l)
  = filter (fun y => key y =? k) l.
Proof.
  induction l as [|x l IH]; [reflexivity|].
  simpl sort_by_key. rewrite insert_by_key_filter. cbn [filter].
  now rewrite IH.
Qed.

Lemma sorted_adjacent l before a b after :
  StronglySorted (key_le key) l -> l = before ++ a :: b :: after -> key a <= key b.
Proof.
  intros Hs ->. revert Hs.
  induction before as [|c before IH]; simpl; intros Hs.
  - inversion Hs as [|? ? _ Hall]; subst. now inversion Hall.
  - inversion Hs; subst. auto.
Qed.

End SortFacts.

Lemma has_severity_rank s f :
  has_severity s f = (rank f =? severity_order s).
Proof.
  unfold has_severity, rank. now destruct (Finding.severity f), s.
Qed.

Lemma sort_findings_stable s fs :
  filter (has_severity s) (sort_by_key rank fs) = filter (has_severity s) fs.
Proof.
  rewrite !(filter_ext _ _ (has_severity_rank s)).
  apply sort_by_key_filter.
Qed.

(** C1. The findings of a report come out of [scan] in ascending severity
    rank, CRITICAL first: of two adjacent findings the first has the lower
    or the same rank. The findings of one severity are in the order in
    which the scan discovered them, which is their order in the auditor's
    list before the sort. *)
Theorem scan_findings_sorted_stable rt tree start_time end_time self r self' :
  scan rt tree start_time end_time self = (Ok r, self') ->
  exists counters collected,
    scan_collect rt tree self = (Ok counters, collected)
    /\ (forall before a b after,
          AuditReport.findings r = before ++ a :: b :: after ->
          rank a <= rank b)
    /\ (forall s,
          filter (has_severity s) (AuditReport.findings r)
          = filter (has_severity s) (findings collected)).
Proof.
  unfold scan, bind.
  destruct (scan_collect rt tree self) as [[[files lines]|e] collected];
    [|discriminate].
  simpl. intros H. injection H as <- <-. simpl.
  exists (files, lines), collected. split; [reflexivity|]. split.
  - intros before a b after Heq.
    eapply sorted_adjacent with (key := rank); [|exact Heq].
    apply sort_by_key_sorted.
  - intros s. apply sort_findings_stable.
Qed.

(* ------------------------------------------------------------------ *)
(** ** The scanners hand out consecutive ids *)

Lemma emits_get (k : SecurityAuditor.t -> M (list Finding.t)) acc :
  (forall s, emits (k s) acc) -> emits (bind get k) acc.
Proof.
  intros H self. unfold bind, get. apply H.
Qed.

Lemma emits_scan_patterns rt lines rel_path :
  emits (scan_patterns rt lines rel_path) [].
Proof.
  unfold scan_patterns. apply emits_get. intros s.
  apply emits_for_each. intros [category rules] acc.
  apply emits_for_each. intros pattern_def acc1.
  apply emits_lift. intros regex.
  apply emits_for_each. intros [i line] acc2.
  destruct (Re.search regex line); [apply emits_append | apply emits_ret].
Qed.

Lemma emits_analyze_python_ast rt file_path content rel_path :
  emits (_analyze_python_ast rt file_path content rel_path) [].
Proof.
  unfold _analyze_python_ast.
  destruct (ast_parse rt content) as [tree|e].
  - apply emits_for_each. intros node acc.
    destruct (kind_of node) as [lineno|[|] lineno|names lineno|];
      try apply emits_append; try apply emits_ret.
    apply emits_for_each. intros alias acc1.
    destruct (String.eqb alias "pickle");
      [apply emits_append | apply emits_ret].
  - destruct e; try apply emits_raise. apply emits_ret.
Qed.

Lemma emits_scan_file rt file_path : emits (scan_file rt file_path) [].
Proof.
  unfold scan_file.
  destruct (read_text_ignore file_path) as [content|e]; [|apply emits_ret].
  apply emits_bind; [apply emits_scan_patterns|].
  intros out.
  destruct (String.eqb _ ".py"); [|apply emits_ret].
  apply emits_extend, emits_analyze_python_ast.
Qed.

Lemma emits_scan_requirements tree : emits (scan_requirements tree) [].
Proof.
  unfold scan_requirements.
  destruct (requirements_txt tree) as [read_text|]; [|apply emits_ret].
  apply emits_lift. intros content.
  apply emits_for_each. intros [vuln_pattern [title severity]] acc.
  destruct (mentions vuln_pattern content);
    [apply emits_append | apply emits_ret].
Qed.

(** [package.json] adds the lodash finding or nothing, and never raises. *)
Lemma scan_package_json_cases rt tree acc self :
  scan_package_json rt tree acc self = (Ok acc, self)
  \/ scan_package_json rt tree acc self
     = (Ok (acc ++ [lodash_finding (finding_id (S (finding_counter self)))]),
        bump 1 self).
Proof.
  unfold scan_package_json.
  destruct (package_json tree) as [read_text|]; [|now left].
  unfold try_except, bind, lift.
  destruct read_text as [text|]; [|now left].
  destruct (json_loads rt text) as [pkg_data|]; [|now left].
  destruct (json_get_or_empty pkg_data "dependencies") as [d|]; [|now left].
  destruct (json_mapping d) as [d1|]; [|now left].
  destruct (json_get_or_empty pkg_data "devDependencies") as [d'|]; [|now left].
  destruct (json_mapping d') as [d2|]; [|now left].
  destruct (Dict.mem "lodash" (Dict.merge d1 d2)); [|now left].
  right. unfold append_finding, bind, _generate_finding_id, ret, bump.
  simpl. unfold finding_id, lodash_finding. now rewrite Nat.add_1_r.
Qed.

Lemma emits_scan_package_json rt tree acc :
  emits (scan_package_json rt tree acc) acc.
Proof.
  intros self.
  destruct (scan_package_json_cases rt tree acc self) as [-> | ->].
  - exists 0. simpl. split; [symmetry; apply bump_0|].
    exists []. rewrite app_nil_r. auto.
  - exists 1. simpl. split; [reflexivity|]. eexists [_]. auto.
Qed.

Lemma emits_scan_dependencies rt tree : emits (scan_dependencies rt tree) [].
Proof.
  unfold scan_dependencies.
  apply emits_bind; [apply emits_scan_requirements|].
  intros out. apply emits_scan_package_json.
Qed.

(* ------------------------------------------------------------------ *)
(** ** The ids in the auditor's list *)

Lemma seq_increasing a k : StronglySorted lt (seq a k).
Proof.
  revert a. induction k as [|k IH]; intros a; simpl; constructor.
  - apply IH.
  - apply Forall_forall. intros x Hx. apply in_seq in Hx. lia.
Qed.

Lemma increasing_app l1 l2 :
  StronglySorted lt l1 -> StronglySorted lt l2 ->
  (forall x y, In x l1 -> In y l2 -> x < y) ->
  StronglySorted lt (l1 ++ l2).
Proof.
  induction 1 as [|x l1 Hs IH Hx]; simpl; intros H2 Hlt; [exact H2|].
  constructor.
  - apply IH; [exact H2|]. intros; apply Hlt; simpl; auto.
  - apply Forall_app. split; [exact Hx|].
    apply Forall_forall. intros y Hy. apply Hlt; simpl; auto.
Qed.

Lemma ids_increasing_bump k self :
  ids_increasing self -> ids_increasing (bump k self).
Proof.
  intros (ns & Hids & Hs & Hb). exists ns. simpl. repeat split; auto.
  eapply Forall_impl; [|exact Hb]. simpl. intros; lia.
Qed.

Lemma ids_increasing_with_new self new :
  map Finding.id new
  = map finding_id (seq (S (finding_counter self)) (List.length new)) ->
  ids_increasing self -> ids_increasing (with_new self new).
Proof.
  intros Hnew (ns & Hids & Hs & Hb).
  exists (ns ++ seq (S (finding_counter self)) (List.length new)). simpl.
  rewrite !map_app, Hids, Hnew. split; [reflexivity|].
  rewrite Forall_forall in Hb. split.
  - apply increasing_app; [exact Hs | apply seq_increasing |].
    intros x y Hx Hy. apply Hb in Hx. apply in_seq in Hy. lia.
  - apply Forall_app. split; apply Forall_forall; intros x Hx.
    + apply Hb in Hx. lia.
    + apply in_seq in Hx. lia.
Qed.

Lemma ids_complete_with_new self new :
  map Finding.id new
  = map finding_id (seq (S (finding_counter self)) (List.length new)) ->
  ids_complete self -> ids_complete (with_new self new).
Proof.
  unfold ids_complete. simpl. intros Hnew Hids.
  now rewrite map_app, Hids, Hnew, seq_app, map_app.
Qed.

(** What [self.findings.extend(m())] does, for a scanner [m]. *)
Lemma extend_after_emits A (m : M (list Finding.t)) (c : A) self :
  emits m [] ->
  match (ff <- m ;; _ <- extend_findings ff ;; ret c) self with
  | (Ok c', self') =>
      c' = c /\
      exists new,
        fst (m self) = Ok new /\ self' = with_new self new /\
        map Finding.id new
        = map finding_id (seq (S (finding_counter self)) (List.length new))
  | (Raise e, self') =>
      fst (m self) = Raise e /\ exists k, self' = bump k self
  end.
Proof.
  intros Hm. destruct (Hm self) as (k & Hs & Hr). unfold bind.
  destruct (m self) as [[out|e] s1]; simpl in *; subst s1.
  - destruct Hr as (new & -> & <- & Hids). split; [reflexivity|].
    exists new. simpl. repeat split; auto.
  - split; [reflexivity|]. now exists k.
Qed.

(** One file of [scan]'s loop: whatever [scan_file] does, the loop goes
    on. *)
Lemma file_step A (m : M (list Finding.t)) (c : A) self :
  emits m [] ->
  exists self',
    try_except (ff <- m ;; _ <- extend_findings ff ;; ret c) (ret c) self
    = (Ok c, self')
    /\ patterns self' = patterns self
    /\ project_path self' = project_path self
    /\ (ids_increasing self -> ids_increasing self')
    /\ ((exists out, fst (m self) = Ok out) ->
        ids_complete self -> ids_complete self')
    /\ ((exists e, fst (m self) = Raise e) -> findings self' = findings self).
Proof.
  intros Hm. pose proof (@extend_after_emits A m c self Hm) as H.
  unfold try_except.
  destruct ((ff <- m ;; _ <- extend_findings ff ;; ret c) self)
    as [[c'|e] self1].
  - destruct H as (-> & new & Hok & -> & Hids).
    exists (with_new self new). repeat split; auto.
    + now apply ids_increasing_with_new.
    + intros _. now apply ids_complete_with_new.
    + intros (e & He). congruence.
  - destruct H as (Hr & k & ->). exists (bump k self). repeat split; auto.
    + apply ids_increasing_bump.
    + intros (out & Hout). congruence.
Qed.

Lemma for_each_preserves A S (P : SecurityAuditor.t -> Prop) (l : list A)
  (body : A -> S -> M S) :
  (forall x acc self, In x l -> P self ->
     exists acc' self', body x acc self = (Ok acc', self') /\ P self') ->
  forall acc self, P self ->
    exists acc' self', for_each l body acc self = (Ok acc', self') /\ P self'.
Proof.
  induction l as [|x l IH]; intros Hb acc self HP; simpl.
  - exists acc, self. auto.
  - destruct (Hb x acc self (or_introl eq_refl) HP) as (acc1 & self1 & E & HP1).
    unfold bind. rewrite E.
    apply IH; [|exact HP1]. intros; apply Hb; simpl; auto.
Qed.

(** The loop over the files keeps whatever every file keeps. *)
Lemma scan_files_preserves rt tree (P : SecurityAuditor.t -> Prop) :
  (forall file_path (c : nat * nat) self content,
     read_text_ignore file_path = Ok content -> P self ->
     exists self',
       try_except (ff <- scan_file rt file_path ;;
                   _ <- extend_findings ff ;; ret c) (ret c) self
       = (Ok c, self') /\ P self') ->
  forall self, P self ->
    exists counters self',
      scan_files rt tree self = (Ok counters, self') /\ P self'.
Proof.
  intros Hstep self HP. unfold scan_files, bind at 1, get.
  apply for_each_preserves; [|exact HP].
  intros ext counters s1 _ HP1.
  apply for_each_preserves; [|exact HP1].
  intros file_path [files lines] s2 _ HP2.
  destruct (in_skipped_directory _); [exists (files, lines), s2; auto|].
  destruct (read_text_ignore file_path) as [content|e] eqn:Hread;
    [|exists (files, lines), s2; auto].
  destruct (Hstep file_path
              (files + 1, lines + List.length (Text.splitlines content))
              s2 content Hread HP2) as (s3 & E & HP3).
  eauto.
Qed.

Lemma scan_files_ids_increasing rt tree self :
  ids_increasing self ->
  exists counters self',
    scan_files rt tree self = (Ok counters, self') /\ ids_increasing self'.
Proof.
  apply scan_files_preserves. intros file_path c s content _ HP.
  destruct (@file_step _ (scan_file rt file_path) c s
              (emits_scan_file rt file_path))
    as (s' & E & _ & _ & Hinc & _).
  eauto.
Qed.

(* ------------------------------------------------------------------ *)
(** ** When [scan_file] returns *)

Lemma returns_ret A (a : A) : returns (ret a).
Proof. intros self. now exists a. Qed.

Lemma returns_bind A B (m : M A) (k : A -> M B) :
  returns m -> (forall a, returns (k a)) -> returns (bind m k).
Proof.
  intros Hm Hk self. unfold bind. destruct (Hm self) as (a & Ha).
  destruct (m self) as [[a'|e] s1]; simpl in Ha; [|discriminate].
  apply Hk.
Qed.

Lemma returns_append acc ti se ca fp ln cs de re cw ow :
  returns (append_finding acc ti se ca fp ln cs de re cw ow).
Proof. intros self. simpl. eauto. Qed.

Lemma returns_for_each A S (l : list A) (body : A -> S -> M S) acc :
  (forall x acc, In x l -> returns (body x acc)) ->
  returns (for_each l body acc).
Proof.
  revert acc. induction l as [|x l IH]; intros acc Hb; simpl.
  - apply returns_ret.
  - apply returns_bind; [apply Hb; simpl; auto|].
    intros a. apply IH. intros; apply Hb; simpl; auto.
Qed.

Lemma scan_patterns_returns rt lines rel_path self :
  registry_compiles rt (patterns self) ->
  exists out, fst (scan_patterns rt lines rel_path self) = Ok out.
Proof.
  intros Hreg. unfold scan_patterns, bind at 1, get.
  apply returns_for_each. intros [category rules] acc Hin.
  apply returns_for_each. intros pattern_def acc1 Hin1.
  destruct (Hreg pattern_def) as (regex & E).
  { unfold all_rules. apply in_flat_map. now exists (category, rules). }
  rewrite E. unfold bind at 1, lift. intros s. simpl.
  apply returns_for_each. intros [i line] acc2 _.
  destruct (Re.search regex line); [apply returns_append | apply returns_ret].
Qed.

Lemma analyze_python_ast_returns rt file_path content rel_path :
  parser_raises_only_SyntaxError rt ->
  returns (_analyze_python_ast rt file_path content rel_path).
Proof.
  intros Hp. unfold _analyze_python_ast.
  destruct (ast_parse rt content) as [tree|e] eqn:E.
  - apply returns_for_each. intros node acc _.
    destruct (kind_of node) as [lineno|[|] lineno|names lineno|];
      try apply returns_append; try apply returns_ret.
    apply returns_for_each. intros alias acc1 _.
    destruct (String.eqb alias "pickle");
      [apply returns_append | apply returns_ret].
  - rewrite (Hp _ _ E). apply returns_ret.
Qed.

Lemma scan_file_returns rt file_path self :
  registry_compiles rt (patterns self) ->
  parser_raises_only_SyntaxError rt ->
  exists out, fst (scan_file rt file_path self) = Ok out.
Proof.
  intros Hreg Hp. unfold scan_file.
  destruct (read_text_ignore file_path) as [content|e]; [|simpl; eauto].
  unfold bind at 1.
  destruct (@scan_patterns_returns rt (Text.splitlines content)
              (path_str (rel_parts file_path)) self Hreg) as (out & E).
  destruct (scan_patterns _ _ _ self) as [[out'|e] s1]; simpl in E;
    [|discriminate].
  destruct (String.eqb _ ".py"); [|simpl; eauto].
  apply returns_bind; [now apply analyze_python_ast_returns|].
  intros a. apply returns_ret.
Qed.

Lemma scan_files_ids_complete rt tree self :
  registry_compiles rt (patterns self) ->
  parser_raises_only_SyntaxError rt ->
  ids_complete self ->
  exists counters self',
    scan_files rt tree self = (Ok counters, self')
    /\ patterns self' = patterns self /\ ids_complete self'.
Proof.
  intros Hreg Hp Hc.
  apply (@scan_files_preserves rt tree
           (fun s => patterns s = patterns self /\ ids_complete s));
    [|auto].
  intros file_path c s content _ (Hpat & Hcs).
  destruct (@file_step _ (scan_file rt file_path) c s
              (emits_scan_file rt file_path))
    as (s' & E & Hpat' & _ & _ & Hcomp & _).
  exists s'. repeat split; [exact E | congruence |].
  apply Hcomp; [|exact Hcs].
  apply scan_file_returns; [now rewrite Hpat | exact Hp].
Qed.

(* ------------------------------------------------------------------ *)
(** ** Different counter values print as different ids *)

Lemma uint_of_string_zeros k s d :
  NilEmpty.uint_of_string s = Some d ->
  NilEmpty.uint_of_string (Text.zeros k ++ s)%string
  = Some (leading_zeros k d).
Proof.
  intros H. induction k as [|k IH]; simpl; [exact H|].
  now rewrite IH.
Qed.

Lemma of_uint_leading_zeros k d :
  Nat.of_uint (leading_zeros k d) = Nat.of_uint d.
Proof.
  induction k as [|k IH]; simpl; [reflexivity|].
  exact IH.
Qed.

Lemma format_04d_inj n m : Text.format_04d n = Text.format_04d m -> n = m.
Proof.
  unfold Text.format_04d, Text.str_of_nat. intros H.
  apply (f_equal NilEmpty.uint_of_string) in H.
  rewrite !(@uint_of_string_zeros _ _ _ (NilEmpty.usu _)) in H.
  injection H as H. apply (f_equal Nat.of_uint) in H.
  now rewrite !of_uint_leading_zeros, !DecimalNat.Unsigned.of_to in H.
Qed.

Lemma finding_id_inj n m : finding_id n = finding_id m -> n = m.
Proof.
  unfold finding_id. simpl. intros H. injection H as H.
  now apply format_04d_inj.
Qed.

Lemma increasing_NoDup ns : StronglySorted lt ns -> NoDup ns.
Proof.
  induction 1 as [|n ns Hs IH Hn]; constructor; [|exact IH].
  intros Hin. rewrite Forall_forall in Hn. apply Hn in Hin. lia.
Qed.

Lemma finding_ids_NoDup ns : NoDup ns -> NoDup (map finding_id ns).
Proof.
  induction 1 as [|n ns Hn Hnd IH]; simpl; constructor; [|exact IH].
  intros Hin. apply in_map_iff in Hin. destruct Hin as (m & Heq & Hin).
  apply finding_id_inj in Heq. now subst.
Qed.

(* ------------------------------------------------------------------ *)
(** ** The ids of a scan *)

Lemma scan_collect_ids rt tree self counters collected :
  scan_collect rt tree self = (Ok counters, collected) ->
  (ids_increasing self -> ids_increasing collected)
  /\ (registry_compiles rt (patterns self) ->
      parser_raises_only_SyntaxError rt ->
      ids_complete self -> ids_complete collected).
Proof.
  unfold scan_collect, bind at 1. intros H.
  destruct (scan_files rt tree self) as [[c|e] s1] eqn:E; [|discriminate].
  pose proof (@extend_after_emits _ (scan_dependencies rt tree) c s1
                (emits_scan_dependencies rt tree)) as Hd.
  rewrite H in Hd. destruct Hd as (_ & new & _ & -> & Hids).
  split.
  - intros Hinc.
    destruct (scan_files_ids_increasing rt tree self Hinc) as (c' & s' & E' & Hs').
    rewrite E in E'. injection E' as <- <-.
    now apply ids_increasing_with_new.
  - intros Hreg Hp Hc.
    destruct (scan_files_ids_complete rt tree self Hreg Hp Hc)
      as (c' & s' & E' & _ & Hs').
    rewrite E in E'. injection E' as <- <-.
    now apply ids_complete_with_new.
Qed.

Lemma scan_collect_then_sort rt tree start_time end_time self r self' :
  scan rt tree start_time end_time self = (Ok r, self') ->
  exists counters collected,
    scan_collect rt tree self = (Ok counters, collected)
    /\ AuditReport.findings r = sort_by_key rank (findings collected)
    /\ finding_counter self' = finding_counter collected.
Proof.
  unfold scan, bind.
  destruct (scan_collect rt tree self) as [[[files lines]|e] collected];
    [|discriminate].
  simpl. intros H. injection H as <- <-. simpl. eauto.
Qed.

Lemma map_finding_id_inj ns ms :
  map finding_id ns = map finding_id ms -> ns = ms.
Proof.
  revert ms. induction ns as [|n ns IH]; intros [|m ms] H;
    try discriminate; [reflexivity|].
  cbn [map] in H. injection H as Hn Hrest.
  apply format_04d_inj in Hn. f_equal; auto.
Qed.

(** What the ids of a scan always satisfy. A scan by an auditor that has no
    finding yet gives the findings the ids [NF-%04d] of strictly increasing
    counter values in the order of discovery across the three scanners, all
    between 1 and the final counter, so no id occurs twice; the sort
    permutes the findings and leaves every id as it is. When every pattern
    of the registry compiles and the parser raises nothing but
    [SyntaxError], no file is cut short and the counter values are exactly
    1 to N for the N findings of the report. *)
Theorem scan_ids_increasing_distinct rt tree start_time end_time self r self' :
  findings self = [] ->
  finding_counter self = 0 ->
  scan rt tree start_time end_time self = (Ok r, self') ->
  exists counters collected ns,
    scan_collect rt tree self = (Ok counters, collected)
    /\ Permutation (AuditReport.findings r) (findings collected)
    /\ map Finding.id (findings collected) = map finding_id ns
    /\ StronglySorted lt ns
    /\ Forall (fun n => 1 <= n <= finding_counter self') ns
    /\ NoDup (map Finding.id (AuditReport.findings r))
    /\ (registry_compiles rt (patterns self) ->
        parser_raises_only_SyntaxError rt ->
        ns = seq 1 (List.length (AuditReport.findings r))).
Proof.
  intros Hnil Hzero Hscan.
  destruct (scan_collect_then_sort _ _ _ _ _ _ _ Hscan)
    as (counters & collected & Hcol & Hsort & Hcnt).
  destruct (scan_collect_ids _ _ _ _ _ Hcol) as (Hinc & Hcomp).
  destruct Hinc as (ns & Hids & Hs & Hb).
  { exists []. rewrite Hnil. repeat split; constructor. }
  assert (Hperm : Permutation (AuditReport.findings r) (findings collected))
    by (rewrite Hsort; apply sort_by_key_perm).
  exists counters, collected, ns. rewrite Hcnt.
  repeat split; auto.
  - eapply Permutation_NoDup;
      [apply Permutation_map, Permutation_sym, Hperm|].
    rewrite Hids. apply finding_ids_NoDup, increasing_NoDup, Hs.
  - intros Hreg Hp.
    assert (Hc : ids_complete collected).
    { apply Hcomp; auto. unfold ids_complete. now rewrite Hnil, Hzero. }
    unfold ids_complete in Hc. rewrite Hids in Hc.
    apply map_finding_id_inj in Hc. subst ns.
    rewrite (Permutation_length Hperm).
    rewrite <- (length_map Finding.id), Hids, length_map, length_seq.
    reflexivity.
Qed.

(* ------------------------------------------------------------------ *)
(** ** Findings that wait for their id *)

Lemma assign_ids_app c h1 h2 :
  assign_ids c (h1 ++ h2)
  = assign_ids c h1 ++ assign_ids (c + List.length h1) h2.
Proof.
  revert c. induction h1 as [|h h1 IH]; intros c; simpl.
  - now rewrite Nat.add_0_r.
  - rewrite IH. do 3 f_equal. lia.
Qed.

Lemma assign_ids_length c hits :
  List.length (assign_ids c hits) = List.length hits.
Proof.
  revert c. induction hits; intros c; simpl; auto.
Qed.

Lemma map_assign_ids B (proj : Finding.t -> B) c hits :
  (forall fid f, proj (set_id fid f) = proj f) ->
  map proj (assign_ids c hits) = map proj hits.
Proof.
  intros Hp. revert c. induction hits as [|h hits IH]; intros c; simpl;
    [reflexivity|].
  now rewrite Hp, IH.
Qed.

Lemma append_finding_pending acc ti se ca fp ln cs de re cw ow self :
  append_finding acc ti se ca fp ln cs de re cw ow self
  = (Ok (acc ++ assign_ids (finding_counter self)
                  [pending ti se ca fp ln cs de re cw ow]),
     bump 1 self).
Proof.
  unfold append_finding, bind, _generate_finding_id, ret, bump, set_id.
  simpl. unfold finding_id. now rewrite Nat.add_1_r.
Qed.

Lemma ret_pending acc self :
  ret acc self
  = (Ok (acc ++ assign_ids (finding_counter self) []), bump 0 self).
Proof.
  unfold ret. simpl. now rewrite app_nil_r, bump_0.
Qed.

Lemma for_each_pending A (l : list A)
  (body : A -> list Finding.t -> M (list Finding.t))
  (hits : A -> list Finding.t) :
  (forall x acc self, In x l ->
     body x acc self
     = (Ok (acc ++ assign_ids (finding_counter self) (hits x)),
        bump (List.length (hits x)) self)) ->
  forall acc self,
    for_each l body acc self
    = (Ok (acc ++ assign_ids (finding_counter self) (flat_map hits l)),
       bump (List.length (flat_map hits l)) self).
Proof.
  induction l as [|x l IH]; intros Hb acc self.
  - apply ret_pending.
  - cbn [for_each flat_map]. unfold bind.
    rewrite (Hb x acc self (or_introl eq_refl)).
    rewrite IH by (intros; apply Hb; simpl; auto).
    rewrite bump_bump, assign_ids_app, length_app, <- app_assoc.
    reflexivity.
Qed.

(* ------------------------------------------------------------------ *)
(** ** The dependency scanner *)

Lemma scan_requirements_hits tree content self :
  requirements_txt tree = Some (Ok content) ->
  scan_requirements tree self
  = (Ok (assign_ids (finding_counter self) (requirement_hits content)),
     bump (List.length (requirement_hits content)) self).
Proof.
  intros Hreq. unfold scan_requirements. rewrite Hreq.
  unfold bind at 1, lift. unfold requirement_hits.
  rewrite (for_each_pending _ vulnerable_packages _
             (fun '(vuln_pattern, (title, severity)) =>
                if mentions vuln_pattern content then
                  [pending title severity "dependencies" "requirements.txt" 1
                     "Check requirements.txt"
                     ("Potentially vulnerable dependency: " ++ vuln_pattern)%string
                     "Update to the latest secure version."
                     (Some "CWE-1104") (Some "A06:2021")]
                else [])); [reflexivity|].
  intros [vuln_pattern [title severity]] acc s _.
  destruct (mentions vuln_pattern content);
    [apply append_finding_pending | apply ret_pending].
Qed.

Lemma requirement_hits_shape c content :
  Forall (at_line_1_of "requirements.txt")
         (assign_ids c (requirement_hits content)).
Proof.
  unfold requirement_hits, vulnerable_packages. cbn [flat_map].
  repeat match goal with
         | |- context [mentions ?p content] => destruct (mentions p content)
         end;
    simpl; repeat constructor.
Qed.

Lemma requirement_hits_once c content vuln_pattern title severity rest :
  In (vuln_pattern, (title, severity)) vulnerable_packages ->
  rest = [] \/ (exists fid, rest = [lodash_finding fid]) ->
  List.length
    (filter (has_title title)
            (assign_ids c (requirement_hits content) ++ rest))
  = if mentions vuln_pattern content then 1 else 0.
Proof.
  intros Hin Hrest.
  assert (Hr : filter (has_title title) rest = []).
  { destruct Hrest as [-> | (fid & ->)]; [reflexivity|].
    simpl in Hin.
    repeat destruct Hin as [Hin | Hin]; try contradiction;
      injection Hin as <- <- <-; reflexivity. }
  rewrite filter_app, Hr, app_nil_r.
  unfold requirement_hits, vulnerable_packages. cbn [flat_map].
  simpl in Hin.
  repeat destruct Hin as [Hin | Hin]; try contradiction;
    injection Hin as <- <- <-;
    repeat match goal with
           | |- context [mentions ?p content] => destruct (mentions p content)
           end;
    reflexivity.
Qed.

Lemma scan_package_json_skips rt tree acc self :
  package_json tree = None
  \/ (exists text e, package_json tree = Some (Ok text)
                     /\ json_loads rt text = Raise e) ->
  scan_package_json rt tree acc self = (Ok acc, self).
Proof.
  unfold scan_package_json. intros [-> | (text & e & -> & Hj)];
    [reflexivity|].
  unfold try_except, bind, lift. now rewrite Hj.
Qed.

(** C10. Whenever the dependency scanner returns, its findings are those of
    [requirements.txt] followed by those of [package.json]; each is on line
    1 of its own manifest, named by its path from the root; an entry of the
    table of vulnerable packages is reported once when some line of
    [requirements.txt] mentions it and not at all otherwise, however many
    lines do; and a [package.json] that does not parse adds nothing. *)
Theorem dependency_findings_shape rt tree self out self' :
  scan_dependencies rt tree self = (Ok out, self') ->
  exists from_requirements from_package,
    out = from_requirements ++ from_package
    /\ Forall (at_line_1_of "requirements.txt") from_requirements
    /\ Forall (at_line_1_of "package.json") from_package
    /\ List.length from_package <= 1
    /\ (requirements_txt tree = None -> from_requirements = [])
    /\ (forall content vuln_pattern title severity,
          requirements_txt tree = Some (Ok content) ->
          In (vuln_pattern, (title, severity)) vulnerable_packages ->
          List.length (filter (has_title title) out)
          = if mentions vuln_pattern content then 1 else 0)
    /\ (package_json tree = None -> from_package = [])
    /\ (forall text e,
          package_json tree = Some (Ok text) ->
          json_loads rt text = Raise e -> from_package = []).
Proof.
  unfold scan_dependencies, bind. intros H.
  destruct (scan_requirements tree self) as [[req|e] s1] eqn:Hreq;
    [|discriminate].
  assert (Hreq' :
    (requirements_txt tree = None /\ req = [])
    \/ (exists content, requirements_txt tree = Some (Ok content)
          /\ req = assign_ids (finding_counter self) (requirement_hits content))).
  { destruct (requirements_txt tree) as [[content|e]|] eqn:E.
    - right. exists content. split; [reflexivity|].
      rewrite (scan_requirements_hits tree content self E) in Hreq.
      now injection Hreq as <- _.
    - unfold scan_requirements in Hreq. rewrite E in Hreq. discriminate.
    - left. unfold scan_requirements in Hreq. rewrite E in Hreq.
      now injection Hreq as <- _. }
  assert (Hpkg : exists pkg, out = req ++ pkg
            /\ (pkg = [] \/ exists fid, pkg = [lodash_finding fid])
            /\ (scan_package_json rt tree req s1 = (Ok req, s1) -> pkg = [])).
  { destruct (scan_package_json_cases rt tree req s1) as [E | E];
      rewrite E in H; injection H as <- _.
    - exists []. rewrite app_nil_r. auto.
    - eexists [_]. repeat split; eauto.
      intros E'. rewrite E' in E. injection E as E _.
      rewrite <- (app_nil_r req) in E at 1. now apply app_inv_head in E. }
  destruct Hpkg as (pkg & -> & Hshape & Hskip).
  exists req, pkg. repeat split.
  - destruct Hreq' as [(_ & ->) | (content & _ & ->)];
      [constructor | apply requirement_hits_shape].
  - destruct Hshape as [-> | (fid & ->)]; repeat constructor.
  - destruct Hshape as [-> | (fid & ->)]; simpl; lia.
  - intros E. destruct Hreq' as [(_ & ->) | (content & E' & _)];
      [reflexivity | congruence].
  - intros content vuln_pattern title severity E Hin.
    destruct Hreq' as [(E' & _) | (content' & E' & ->)]; [congruence|].
    assert (content' = content) by congruence. subst content'.
    now apply requirement_hits_once with (severity := severity).
  - intros E. apply Hskip, scan_package_json_skips. now left.
  - intros text e E Hj. apply Hskip, scan_package_json_skips.
    right. eauto.
Qed.

(* ------------------------------------------------------------------ *)
(** ** The structured output and the clock *)

(** The claim C5 fails on the code in two ways. A second [scan()] of the
    same auditor object reports the findings of the first scan again, under
    their old ids, next to the new ones; and the same tree scanned by a
    fresh auditor in a process that iterates the extension set in another
    order numbers its findings differently. *)
Lemma repeated_scan_differs :
  (exists r after r' after',
     scan Sample.runtime Sample.tree_two_languages 0%Z 5%Z Sample.auditor
     = (Ok r, after)
     /\ scan Sample.runtime Sample.tree_two_languages 0%Z 5%Z after
        = (Ok r', after')
     /\ List.length (AuditReport.findings r) = 2
     /\ List.length (AuditReport.findings r') = 4
     /\ without_clock (AuditReport.to_dict Sample.runtime r)
        <> without_clock (AuditReport.to_dict Sample.runtime r'))
  /\ (exists r after r' after',
        scan Sample.runtime Sample.tree_two_languages 0%Z 5%Z Sample.auditor
        = (Ok r, after)
        /\ scan Sample.runtime_reversed Sample.tree_two_languages 0%Z 5%Z
             Sample.auditor
           = (Ok r', after')
        /\ map (fun f => (Finding.id f, Finding.file_path f))
               (AuditReport.findings r)
           = [("NF-0001", "a.py"); ("NF-0002", "b.js")]
        /\ map (fun f => (Finding.id f, Finding.file_path f))
               (AuditReport.findings r')
           = [("NF-0001", "b.js"); ("NF-0002", "a.py")]
        /\ without_clock (AuditReport.to_dict Sample.runtime r)
           <> without_clock (AuditReport.to_dict Sample.runtime_reversed r')).
Proof.
  split.
  - eexists _, _, _, _.
    split; [vm_compute; reflexivity|].
    split; [vm_compute; reflexivity|].
    split; [reflexivity|]. split; [reflexivity|].
    intros H. vm_compute in H. discriminate H.
  - eexists _, _, _, _.
    split; [vm_compute; reflexivity|].
    split; [vm_compute; reflexivity|].
    split; [reflexivity|]. split; [reflexivity|].
    intros H. vm_compute in H. discriminate H.
Qed.

(* ------------------------------------------------------------------ *)
(** ** The context window of a textual finding *)

(** The window [scan_file] cuts reaches two lines back and two lines on. *)
Lemma snippet_window lines i :
  snippet lines i
  = numbered_lines lines (Nat.max 1 (i - 2))
      (Nat.min (List.length lines) (i + 2)).
Proof.
  unfold snippet, numbered_lines.
  replace (Nat.max 0 (i - 3) + 1) with (Nat.max 1 (i - 2)) by lia.
  reflexivity.
Qed.

(** C6 on a file of seven lines with a match on line 5: the snippet of the
    finding holds the lines 3 to 7. The window of the claim, and the
    comment in [scan_file] that asks for three lines before the match,
    would have line 2 in it as well. *)
Theorem snippet_leaves_out_third_line_before :
  exists f,
    fst (scan_file Sample.runtime (Sample.file "z.js" Sample.src_seven_lines)
           Sample.auditor) = Ok [f]
    /\ Finding.line_number f = 5
    /\ Finding.code_snippet f
       = Sample.lines_text
           ["3: c = 3"; "4: d = 4"; "5: eval(x)"; "6: f = 6"; "7: g = 7"]
    /\ claimed_window (Text.splitlines Sample.src_seven_lines) 5
       = Sample.lines_text
           ["2: b = 2"; "3: c = 3"; "4: d = 4"; "5: eval(x)"; "6: f = 6";
            "7: g = 7"]
    /\ Finding.code_snippet f
       <> claimed_window (Text.splitlines Sample.src_seven_lines) 5.
Proof.
  eexists. split; [vm_compute; reflexivity|].
  split; [reflexivity|]. split; [reflexivity|]. split; [reflexivity|].
  intros H. vm_compute in H. discriminate H.
Qed.

(* ------------------------------------------------------------------ *)
(** ** What [scan] does not catch *)

Lemma scan_files_returns rt tree self :
  exists counters self', scan_files rt tree self = (Ok counters, self').
Proof.
  destruct (scan_files_preserves rt tree (fun _ => True)) with (self := self)
    as (counters & self' & E & _); [|exact I|eauto].
  intros file_path c s content _ _.
  destruct (@file_step _ (scan_file rt file_path) c s
              (emits_scan_file rt file_path)) as (s' & E & _).
  eauto.
Qed.

(** A source that does not parse keeps the findings of its text: when
    [ast.parse] raises [SyntaxError], [scan_file] returns what the patterns
    found and nothing else. *)
Lemma syntax_error_keeps_textual_findings rt file_path content self :
  read_text_ignore file_path = Ok content ->
  ast_parse rt content = Raise SyntaxError ->
  scan_file rt file_path self
  = scan_patterns rt (Text.splitlines content)
      (path_str (rel_parts file_path)) self.
Proof.
  intros Hread Hparse. unfold scan_file. rewrite Hread. unfold bind.
  destruct (scan_patterns _ _ _ self) as [[out|e] s1]; [|reflexivity].
  destruct (String.eqb _ ".py"); [|reflexivity].
  unfold _analyze_python_ast. rewrite Hparse. simpl.
  now rewrite app_nil_r.
Qed.

(** C9 where the code breaks it. The text of [requirements.txt] is read
    outside any handler: when that read raises, the exception leaves
    [scan_dependencies] and [scan], and no report is returned, although the
    root path is valid. *)
Theorem scan_raises_on_unreadable_requirements
  rt tree start_time end_time self e :
  requirements_txt tree = Some (Raise e) ->
  exists self', scan rt tree start_time end_time self = (Raise e, self').
Proof.
  intros Hreq. unfold scan, scan_collect, bind.
  destruct (scan_files_returns rt tree self) as (counters & s1 & ->).
  unfold scan_dependencies, scan_requirements, bind. rewrite Hreq.
  simpl. eauto.
Qed.

(* ------------------------------------------------------------------ *)
(** ** A rule that does not compile *)

Lemma for_each_raises A S (l : list A) (body : A -> S -> M S) :
  (exists x, In x l /\
     forall acc self, exists e, fst (body x acc self) = Raise e) ->
  forall acc self, exists e, fst (for_each l body acc self) = Raise e.
Proof.
  intros (x & Hin & Hx).
  induction l as [|y l IH]; intros acc self; [destruct Hin|].
  simpl. unfold bind.
  destruct (body y acc self) as [[acc1|e] s1] eqn:E; [|simpl; eauto].
  destruct Hin as [-> | Hin]; [|now apply IH].
  destruct (Hx acc self) as (e & He). rewrite E in He. discriminate.
Qed.

Lemma scan_patterns_raises rt lines rel_path self :
  has_broken_rule rt (patterns self) ->
  exists e, fst (scan_patterns rt lines rel_path self) = Raise e.
Proof.
  intros (category & rules & rule_ & e & Hcat & Hrule & Hre).
  unfold scan_patterns, bind at 1, get.
  apply for_each_raises. exists (category, rules). split; [exact Hcat|].
  apply for_each_raises. exists rule_. split; [exact Hrule|].
  intros acc s. unfold bind, lift. rewrite Hre. simpl. eauto.
Qed.

Lemma scan_file_raises rt file_path content self :
  read_text_ignore file_path = Ok content ->
  has_broken_rule rt (patterns self) ->
  exists e, fst (scan_file rt file_path self) = Raise e.
Proof.
  intros Hread Hbroken. unfold scan_file. rewrite Hread. unfold bind.
  destruct (scan_patterns_raises rt (Text.splitlines content)
              (path_str (rel_parts file_path)) self Hbroken) as (e & He).
  destruct (scan_patterns _ _ _ self) as [[out|e'] s1]; simpl in He;
    [discriminate|].
  simpl. eauto.
Qed.

Lemma scan_files_with_broken_rule rt tree self :
  has_broken_rule rt (patterns self) ->
  exists counters self',
    scan_files rt tree self = (Ok counters, self')
    /\ findings self' = findings self.
Proof.
  intros Hbroken.
  destruct (scan_files_preserves rt tree
              (fun s => patterns s = patterns self
                        /\ findings s = findings self)) with (self := self)
    as (counters & self' & E & _ & Hf); [|auto|eauto].
  intros file_path c s content Hread (Hpat & Hf).
  destruct (@file_step _ (scan_file rt file_path) c s
              (emits_scan_file rt file_path))
    as (s' & E & Hpat' & _ & _ & _ & Hraise).
  exists s'. repeat split; [exact E | congruence |].
  rewrite Hraise; [exact Hf|].
  apply scan_file_raises with (content := content); [exact Hread|].
  now rewrite Hpat.
Qed.

Lemma scan_dependencies_returns rt tree self :
  (forall e, requirements_txt tree <> Some (Raise e)) ->
  exists out self', scan_dependencies rt tree self = (Ok out, self').
Proof.
  intros Hreq. unfold scan_dependencies, bind.
  assert (H : exists req s1, scan_requirements tree self = (Ok req, s1)).
  { destruct (requirements_txt tree) as [[content|e]|] eqn:E.
    - rewrite (scan_requirements_hits tree content self E). eauto.
    - now destruct (Hreq e).
    - unfold scan_requirements. rewrite E. unfold ret. eauto. }
  destruct H as (req & s1 & ->).
  destruct (scan_package_json_cases rt tree req s1) as [-> | ->]; eauto.
Qed.

(** C7, as the code has it. Nothing compiles the patterns before the scan:
    [scan_file] compiles each pattern for each file, and the handler of
    [scan] around [scan_file] swallows the error. With a rule whose pattern
    does not compile in the registry, a scan whose [requirements.txt] can be
    read therefore still returns a report, and the report of an auditor
    that had no finding holds no finding of any source file: all it holds
    comes from the dependency scanner. *)
Theorem broken_rule_skips_every_file rt tree start_time end_time self :
  has_broken_rule rt (patterns self) ->
  findings self = [] ->
  (forall e, requirements_txt tree <> Some (Raise e)) ->
  exists r self' dependency_findings after,
    scan rt tree start_time end_time self = (Ok r, self')
    /\ scan_dependencies rt tree after = (Ok dependency_findings, bump
         (List.length dependency_findings) after)
    /\ Permutation (AuditReport.findings r) dependency_findings
    /\ Forall (fun f => Finding.category f = "dependencies")
              (AuditReport.findings r).
Proof.
  intros Hbroken Hnil Hreq.
  destruct (scan_files_with_broken_rule rt tree self Hbroken)
    as (counters & s1 & Hfiles & Hf).
  destruct (scan_dependencies_returns rt tree s1 Hreq) as (out & s2 & Hdep).
  pose proof (emits_scan_dependencies rt tree s1) as (k & Hs & Hr).
  rewrite Hdep in Hs, Hr. simpl in Hs, Hr.
  destruct Hr as (new & Hout & Hlen & _). simpl in Hout. subst out k s2.
  destruct counters as [files lines].
  eexists _, _, new, s1. split.
  { unfold scan, scan_collect, bind. rewrite Hfiles, Hdep. simpl.
    reflexivity. }
  split; [exact Hdep|]. simpl. rewrite Hf, Hnil. simpl.
  split; [apply sort_by_key_perm|].
  eapply Permutation_Forall; [symmetry; apply sort_by_key_perm|].
  destruct (dependency_findings_shape rt tree s1 _ _ Hdep)
    as (req & pkg & -> & Hreqs & Hpkgs & _).
  apply Forall_app. split; (eapply Forall_impl; [|eassumption]);
    intros f (_ & _ & Hc); exact Hc.
Qed.

(* ------------------------------------------------------------------ *)
(** ** The textual scanner *)

Lemma scan_patterns_hits rt lines rel_path self :
  registry_compiles rt (patterns self) ->
  scan_patterns rt lines rel_path self
  = (Ok (assign_ids (finding_counter self)
           (textual_hits rt (patterns self) rel_path lines)),
     bump (List.length (textual_hits rt (patterns self) rel_path lines)) self).
Proof.
  intros Hreg. unfold scan_patterns, bind at 1, get, textual_hits.
  eapply eq_trans; [|reflexivity].
  apply (for_each_pending _ (patterns self) _
           (fun '(category, rules) =>
              flat_map (rule_hits rt category rel_path lines) rules)).
  intros [category rules] acc s Hcat.
  apply (for_each_pending _ rules _ (rule_hits rt category rel_path lines)).
  intros rule_ acc1 s1 Hrule.
  destruct (Hreg rule_) as (regex & E).
  { unfold all_rules. apply in_flat_map. now exists (category, rules). }
  unfold rule_hits, line_matches. rewrite E. unfold bind at 1, lift.
  apply (for_each_pending _ (enumerate lines 1) _
           (fun '(i, line) =>
              if Re.search regex line then
                [pending (PatternDef.title rule_) (PatternDef.severity rule_)
                   category rel_path i (snippet lines i)
                   (PatternDef.description rule_)
                   (PatternDef.recommendation rule_)
                   (PatternDef.cwe rule_) (PatternDef.owasp rule_)]
              else [])).
  intros [i line] acc2 s2 _.
  destruct (Re.search regex line);
    [apply append_finding_pending | apply ret_pending].
Qed.

Lemma scan_patterns_ok_compiles rt lines rel_path self out self' :
  scan_patterns rt lines rel_path self = (Ok out, self') ->
  registry_compiles rt (patterns self).
Proof.
  intros Hok rule_ Hin.
  destruct (re_compile rt (PatternDef.pattern rule_)) as [regex|e] eqn:E;
    [eauto|].
  unfold all_rules in Hin. apply in_flat_map in Hin.
  destruct Hin as ([category rules] & Hcat & Hrule).
  destruct (scan_patterns_raises rt lines rel_path self) as (e' & He).
  { now exists category, rules, rule_, e. }
  rewrite Hok in He. discriminate.
Qed.



Lemma map_flat_map_ B C D (f : B -> list C) (g : C -> D) l :
  map g (flat_map f l) = flat_map (fun x => map g (f x)) l.
Proof.
  induction l as [|x l IH]; simpl; [reflexivity|].
  now rewrite map_app, IH.
Qed.










(* ------------------------------------------------------------------ *)
(** ** [ast.walk] visits the whole tree *)

Lemma forest_size_app l1 l2 :
  forest_size (l1 ++ l2) = forest_size l1 + forest_size l2.
Proof.
  unfold forest_size. now rewrite map_app, list_sum_app.
Qed.

Lemma forest_size_cons node rest :
  forest_size (node :: rest)
  = S (forest_size (rest ++ iter_child_nodes node)).
Proof.
  rewrite forest_size_app. destruct node as [kind children].
  unfold forest_size. simpl. lia.
Qed.

(** More fuel than the nodes in the queue changes nothing. *)
Lemma walk_queue_fuel fuel todo :
  forest_size todo <= fuel ->
  walk_queue fuel todo = walk_queue (forest_size todo) todo.
Proof.
  revert todo. induction fuel as [|fuel IH]; intros todo Hle.
  - destruct (forest_size todo) eqn:E; [reflexivity | lia].
  - destruct todo as [|node rest]; [reflexivity|].
    rewrite forest_size_cons in *. simpl.
    f_equal. apply IH. lia.
Qed.

Lemma walk_queue_length todo :
  List.length (walk_queue (forest_size todo) todo) = forest_size todo.
Proof.
  remember (forest_size todo) as n eqn:E. revert todo E.
  induction n as [|n IH]; intros todo E; [reflexivity|].
  destruct todo as [|node rest]; [discriminate|].
  rewrite forest_size_cons in E. injection E as E.
  simpl. f_equal. now apply IH.
Qed.

Lemma ast_walk_length tree : List.length (ast_walk tree) = ast_size tree.
Proof.
  unfold ast_walk.
  replace (ast_size tree) with (forest_size [tree])
    by (unfold forest_size; simpl; lia).
  apply walk_queue_length.
Qed.

(* ------------------------------------------------------------------ *)
(** ** The registry of the auditor *)



Lemma all_compile_registry_compiles rt reg :
  all_compile rt reg = true -> registry_compiles rt reg.
Proof.
  unfold all_compile. intros H rule_ Hin.
  rewrite forallb_forall in H. specialize (H rule_ Hin).
  destruct (re_compile rt (PatternDef.pattern rule_)) as [regex|e];
    [eauto | discriminate].
Qed.

Lemma registry_compiles_sample :
  registry_compiles Sample.runtime _load_security_patterns.
Proof.
  apply all_compile_registry_compiles. vm_compute. reflexivity.
Qed.

Lemma parser_312_raises_only_SyntaxError :
  parser_raises_only_SyntaxError Sample.runtime_312.
Proof.
  intros content e. simpl.
  destruct (Sample.sample_ast_parse content); [discriminate|].
  now intros [= <-].
Qed.

(** The findings of the patterns come first in what [scan_file] returns,
    and they are all of it for a file that is not Python. *)
Lemma scan_file_textual_first rt file_path content self out self' :
  read_text_ignore file_path = Ok content ->
  scan_file rt file_path self = (Ok out, self') ->
  exists textual structural after,
    scan_patterns rt (Text.splitlines content)
      (path_str (rel_parts file_path)) self = (Ok textual, after)
    /\ out = textual ++ structural
    /\ (Text.path_suffix (entry_name file_path) <> ".py" -> structural = []).
Proof.
  intros Hread. unfold scan_file. rewrite Hread. unfold bind.
  destruct (scan_patterns _ _ _ self) as [[textual|e] s1]; [|discriminate].
  destruct (String.eqb_spec (Text.path_suffix (entry_name file_path)) ".py")
    as [E|E].
  - destruct (_analyze_python_ast _ _ _ _ s1) as [[structural|e] s2];
      [|discriminate].
    simpl. intros [= <- <-]. exists textual, structural, s1. repeat split.
    intros Hne. now destruct Hne.
  - simpl. intros [= <- <-]. exists textual, [], s1.
    rewrite app_nil_r. auto.
Qed.

(* ------------------------------------------------------------------ *)
(** ** The statements on sample scans *)

(** [scan_findings_sorted_stable] on a tree with findings of every
    severity. *)
Lemma scan_findings_sorted_stable_witness :
  exists r after,
    scan Sample.runtime Sample.tree_mixed 0%Z 5%Z Sample.auditor
    = (Ok r, after)
    /\ map (fun f => (Finding.severity f, Finding.id f))
           (AuditReport.findings r)
       = [(CRITICAL, "NF-0005"); (HIGH, "NF-0001"); (HIGH, "NF-0006");
          (HIGH, "NF-0007"); (MEDIUM, "NF-0002"); (MEDIUM, "NF-0008");
          (LOW, "NF-0003"); (LOW, "NF-0004"); (INFO, "NF-0009")]
    /\ forall before a b rest,
         AuditReport.findings r = before ++ a :: b :: rest ->
         rank a <= rank b.
Proof.
  assert (E : exists r after,
            scan Sample.runtime Sample.tree_mixed 0%Z 5%Z Sample.auditor
            = (Ok r, after)
            /\ map (fun f => (Finding.severity f, Finding.id f))
                   (AuditReport.findings r)
               = [(CRITICAL, "NF-0005"); (HIGH, "NF-0001"); (HIGH, "NF-0006");
                  (HIGH, "NF-0007"); (MEDIUM, "NF-0002"); (MEDIUM, "NF-0008");
                  (LOW, "NF-0003"); (LOW, "NF-0004"); (INFO, "NF-0009")])
    by (vm_compute; eauto).
  destruct E as (r & after & E & Hids). exists r, after.
  split; [exact E|]. split; [exact Hids|].
  destruct (scan_findings_sorted_stable _ _ _ _ _ _ _ E)
    as (counters & collected & _ & Hadjacent & _).
  exact Hadjacent.
Defined.

(** C2 where the code breaks it. A Python file whose text matches a pattern
    and holds a null byte gets the id NF-0001 for its finding; then
    [ast.parse] raises [ValueError], which [_analyze_python_ast] does not
    catch and [scan] swallows together with the finding. The one finding of
    the report is NF-0002, not NF-0001. *)
Lemma scan_ids_skip_a_number :
  exists r after,
    scan Sample.runtime Sample.tree_null_byte 0%Z 5%Z Sample.auditor
    = (Ok r, after)
    /\ map Finding.id (AuditReport.findings r) = ["NF-0002"]
    /\ map Finding.id (AuditReport.findings r)
       <> map finding_id (seq 1 (List.length (AuditReport.findings r))).
Proof.
  eexists _, _. split; [vm_compute; reflexivity|].
  split; [reflexivity|]. intros H. vm_compute in H. discriminate H.
Qed.

(** [scan_ids_increasing_distinct] on a scan under an interpreter whose
    parser raises [SyntaxError] only: the ids are NF-0001 to NF-0009. *)
Lemma scan_ids_increasing_distinct_witness :
  exists r after,
    scan Sample.runtime_312 Sample.tree_mixed 0%Z 5%Z Sample.auditor
    = (Ok r, after)
    /\ NoDup (map Finding.id (AuditReport.findings r))
    /\ exists collected,
         Permutation (AuditReport.findings r) collected
         /\ map Finding.id collected
            = map finding_id (seq 1 (List.length (AuditReport.findings r))).
Proof.
  assert (E : exists r after,
            scan Sample.runtime_312 Sample.tree_mixed 0%Z 5%Z Sample.auditor
            = (Ok r, after)) by (vm_compute; eauto).
  destruct E as (r & after & E). exists r, after. split; [exact E|].
  destruct (scan_ids_increasing_distinct _ _ _ _ Sample.auditor _ _
              eq_refl eq_refl E)
    as (counters & collected & ns & _ & Hperm & Hids & _ & _ & Hnodup & Hall).
  split; [exact Hnodup|]. exists (findings collected).
  split; [exact Hperm|]. rewrite Hids. f_equal. apply Hall.
  - apply all_compile_registry_compiles. vm_compute. reflexivity.
  - exact parser_312_raises_only_SyntaxError.
Defined.

(** [risk_score_weighted_clamped_monotone] on two reports that differ by
    one HIGH finding, and on one whose sum passes 100. *)
Lemma risk_score_witness :
  AuditReport.risk_score (Sample.report_of [HIGH; LOW; INFO])
  <= AuditReport.risk_score (Sample.report_of [HIGH; HIGH; LOW])
  /\ AuditReport.risk_score
       (Sample.report_of [CRITICAL; CRITICAL; CRITICAL; CRITICAL; HIGH])
     = 100.
Proof.
  destruct risk_score_weighted_clamped_monotone as (_ & Hsum & Hmono).
  split.
  - apply Hmono; vm_compute; lia.
  - rewrite (proj1 (Hsum _)). reflexivity.
Defined.

(** [exit_code_by_worst_severity] on a report of each kind. *)
Lemma exit_code_witness :
  exit_code (Sample.report_of [MEDIUM; LOW; INFO]) = 0
  /\ exit_code (Sample.report_of [LOW; HIGH; MEDIUM]) = 1
  /\ exit_code (Sample.report_of [HIGH; CRITICAL]) = 2.
Proof.
  split; [|split].
  - apply (exit_code_by_worst_severity (Sample.report_of [MEDIUM; LOW; INFO])).
    intros f Hin. simpl in Hin.
    repeat (destruct Hin as [<- | Hin]; [split; discriminate|]).
    destruct Hin.
  - apply (exit_code_by_worst_severity (Sample.report_of [LOW; HIGH; MEDIUM])).
    + exists (Sample.finding_of HIGH). simpl. auto.
    + intros f Hin. simpl in Hin.
      repeat (destruct Hin as [<- | Hin]; [discriminate|]).
      destruct Hin.
  - apply (exit_code_by_worst_severity (Sample.report_of [HIGH; CRITICAL])).
    exists (Sample.finding_of CRITICAL). simpl. auto.
Defined.

(** The claim C7 fails on the code: with a rule whose pattern is an
    unclosed group, the auditor is built and scans; both source files are
    counted and neither contributes its [eval] finding, which the registry
    of the auditor reports with the same injection rules; the report holds
    the two findings of [requirements.txt]. *)
Lemma broken_rule_yields_report :
  has_broken_rule Sample.runtime (patterns Sample.auditor_broken_registry)
  /\ exists r after,
       scan Sample.runtime Sample.tree_manifest_and_source 0%Z 5%Z
         Sample.auditor_broken_registry = (Ok r, after)
       /\ AuditReport.files_scanned r = 2
       /\ map (fun f => (Finding.id f, Finding.file_path f))
              (AuditReport.findings r)
          = [("NF-0003", "requirements.txt"); ("NF-0004", "requirements.txt")]
       /\ exists r' after',
            scan Sample.runtime Sample.tree_manifest_and_source 0%Z 5%Z
              Sample.auditor = (Ok r', after')
            /\ map (fun f => (Finding.id f, Finding.file_path f))
                   (AuditReport.findings r')
               = [("NF-0001", "a.py"); ("NF-0002", "b.js");
                  ("NF-0003", "requirements.txt");
                  ("NF-0004", "requirements.txt")].
Proof.
  split.
  - exists "custom", (snd (nth 1 Sample.broken_registry (EmptyString, []))).
    eexists _, re_error. simpl. repeat split; auto.
  - eexists _, _. split; [vm_compute; reflexivity|].
    split; [reflexivity|]. split; [reflexivity|].
    eexists _, _. split; [vm_compute; reflexivity|]. reflexivity.
Qed.

(** [broken_rule_skips_every_file] on that scan. *)
Lemma broken_rule_skips_every_file_witness :
  exists r after,
    scan Sample.runtime Sample.tree_manifest_and_source 0%Z 5%Z
      Sample.auditor_broken_registry = (Ok r, after)
    /\ Forall (fun f => Finding.category f = "dependencies")
              (AuditReport.findings r).
Proof.
  destruct (broken_rule_skips_every_file Sample.runtime
              Sample.tree_manifest_and_source 0%Z 5%Z
              Sample.auditor_broken_registry)
    as (r & after & deps & s1 & E & _ & _ & Hall).
  - exists "custom", (snd (nth 1 Sample.broken_registry (EmptyString, []))).
    eexists _, re_error. simpl. repeat split; auto.
  - reflexivity.
  - intros e. discriminate.
  - exists r, after. split; [exact E | exact Hall].
Defined.


(** [scan_raises_on_unreadable_requirements] on a tree whose
    [requirements.txt] does not decode. *)
Lemma scan_raises_on_unreadable_requirements_witness :
  exists after,
    scan Sample.runtime Sample.tree_undecodable_requirements 0%Z 5%Z
      Sample.auditor = (Raise UnicodeDecodeError, after).
Proof.
  apply scan_raises_on_unreadable_requirements. reflexivity.
Defined.

(** [dependency_findings_shape] on a [requirements.txt] with two lines that
    mention django and a truncated [package.json]. *)
Lemma dependency_findings_shape_witness :
  exists out after,
    scan_dependencies Sample.runtime Sample.tree_manifests Sample.auditor
    = (Ok out, after)
    /\ Forall (at_line_1_of "requirements.txt") out
    /\ List.length
         (filter (has_title "Django Security Update Required") out) = 1.
Proof.
  assert (E : exists out after,
            scan_dependencies Sample.runtime Sample.tree_manifests
              Sample.auditor = (Ok out, after)) by (vm_compute; eauto).
  destruct E as (out & after & E). exists out, after. split; [exact E|].
  destruct (dependency_findings_shape _ _ _ _ _ E)
    as (req & pkg & -> & Hreq & _ & _ & _ & Honce & _ & Hmalformed).
  rewrite (Hmalformed Sample.json_truncated JSONDecodeError eq_refl eq_refl)
    in *.
  rewrite app_nil_r in *. split; [exact Hreq|].
  apply (Honce Sample.requirements_text "django<3.2"
           "Django Security Update Required" HIGH eq_refl).
  simpl. auto.
Defined.

(* ------------------------------------------------------------------ *)
(** ** The scanners as lists *)

Lemma analyze_python_ast_hits rt file_path content rel_path self out self' :
  _analyze_python_ast rt file_path content rel_path self = (Ok out, self') ->
  out = assign_ids (finding_counter self) (structural_hits rt content rel_path)
  /\ self' = bump (List.length (structural_hits rt content rel_path)) self.
Proof.
  unfold _analyze_python_ast, structural_hits.
  destruct (ast_parse rt content) as [tree|e].
  - rewrite (for_each_pending _ (ast_walk tree) _ (node_hits rel_path)).
    + intros [= <- <-]. auto.
    + intros node acc s _. unfold node_hits.
      destruct (kind_of node) as [lineno|[|] lineno|names lineno|];
        try apply append_finding_pending; try apply ret_pending.
      apply (for_each_pending _ names _
               (fun alias =>
                  if String.eqb alias "pickle" then
                    [pending "Pickle Deserialization Risk" MEDIUM "injection"
                       rel_path lineno
                       (Text.str_of_nat lineno ++ ": import pickle")%string
                       "Pickle can execute arbitrary code during deserialization."
                       "Use JSON or other safe serialization formats for untrusted data."
                       (Some "CWE-502") (Some "A08:2021")]
                  else [])).
      intros alias acc1 s1 _.
      destruct (String.eqb alias "pickle");
        [apply append_finding_pending | apply ret_pending].
  - destruct e; try discriminate.
    unfold ret. intros [= <- <-]. simpl. now rewrite bump_0.
Qed.

Lemma scan_file_hits rt e self out self' :
  scan_file rt e self = (Ok out, self') ->
  out = assign_ids (finding_counter self) (file_hits rt (patterns self) e)
  /\ self' = bump (List.length (file_hits rt (patterns self) e)) self.
Proof.
  unfold scan_file, file_hits.
  destruct (read_text_ignore e) as [content|err].
  - unfold bind at 1.
    destruct (scan_patterns rt (Text.splitlines content)
                (path_str (rel_parts e)) self) as [[textual|err] s1] eqn:E;
      [|discriminate].
    pose proof (scan_patterns_ok_compiles _ _ _ _ _ _ E) as Hreg.
    rewrite (scan_patterns_hits rt _ _ self Hreg) in E.
    injection E as <- <-.
    destruct (String.eqb _ ".py").
    + unfold bind.
      destruct (_analyze_python_ast rt e content (path_str (rel_parts e)) _)
        as [[structural|err] s2] eqn:E2; [|discriminate].
      apply analyze_python_ast_hits in E2. destruct E2 as (-> & ->).
      unfold ret. intros [= <- <-].
      rewrite assign_ids_app, length_app, bump_bump. auto.
    + unfold ret. intros [= <- <-]. now rewrite app_nil_r.
  - unfold ret. intros [= <- <-]. simpl. now rewrite bump_0.
Qed.

Lemma in_assign_ids c hits f :
  In f (assign_ids c hits) ->
  exists h, In h hits /\ f = set_id (Finding.id f) h.
Proof.
  revert c. induction hits as [|h hits IH]; intros c; simpl; [tauto|].
  intros [<- | Hin].
  - exists h. auto.
  - destruct (IH _ Hin) as (h' & Hh & Heq). exists h'. auto.
Qed.

(* ------------------------------------------------------------------ *)
(** ** The loop of [scan], file by file *)

Lemma scan_files_unfold rt tree self :
  scan_files rt tree self
  = for_each (set_iter rt extensions)
      (fun ext counters =>
         for_each (rglob tree ext) (scan_one rt (project_path self)) counters)
      (0, 0) self.
Proof. reflexivity. Qed.

Section ScanLoop.
Variable rt : Runtime.
Variable path : Path.
Variable P : SecurityAuditor.t -> Prop.

Lemma scan_one_loop l :
  (forall e, In e (filter (eligible path) l) -> kept_by rt P e) ->
  forall files lines s,
    P s ->
    exists s',
      for_each l (scan_one rt path) (files, lines) s
      = (Ok (files + List.length (filter (eligible path) l),
             lines + list_sum (map line_count (filter (eligible path) l))),
         s')
      /\ P s'.
Proof.
  induction l as [|e l IH]; intros Hkept files lines s HP.
  - exists s. simpl. rewrite !Nat.add_0_r. auto.
  - cbn [for_each]. unfold bind at 1, scan_one at 1.
    assert (Hel : eligible path e
                  = negb (in_skipped_directory (path ++ rel_parts e))
                    && match read_text_ignore e with
                       | Ok _ => true
                       | Raise _ => false
                       end) by reflexivity.
    cbn [filter] in *.
    destruct (in_skipped_directory (path ++ rel_parts e)).
    + rewrite Hel in *. cbn [negb andb] in *. unfold ret at 1. now apply IH.
    + destruct (read_text_ignore e) as [content|err] eqn:Hread;
        rewrite Hel in *; cbn [negb andb] in *.
      * destruct (Hkept e (or_introl eq_refl)
                    (files + 1, lines + List.length (Text.splitlines content))
                    s HP) as (s1 & E & HP1).
        cbv zeta. rewrite E.
        destruct (IH (fun e' H => Hkept e' (or_intror H)) (files + 1)
                    (lines + List.length (Text.splitlines content)) s1 HP1)
          as (s2 & E2 & HP2).
        exists s2. split; [|exact HP2]. rewrite E2.
        cbn [List.length map]. unfold line_count at 2.
        rewrite Hread. simpl list_sum.
        apply f_equal2; [|reflexivity]. apply f_equal.
        apply f_equal2; lia.
      * unfold ret at 1. now apply IH.
Qed.

Lemma scan_extensions_loop tree exts :
  (forall e,
     In e (flat_map (fun ext => filter (eligible path) (rglob tree ext)) exts) ->
     kept_by rt P e) ->
  forall files lines s,
    P s ->
    exists s',
      for_each exts
        (fun ext counters =>
           for_each (rglob tree ext) (scan_one rt path) counters)
        (files, lines) s
      = (Ok (files
             + List.length
                 (flat_map (fun ext => filter (eligible path) (rglob tree ext))
                           exts),
             lines
             + list_sum
                 (map line_count
                      (flat_map (fun ext => filter (eligible path)
                                                   (rglob tree ext)) exts))),
         s')
      /\ P s'.
Proof.
  induction exts as [|ext exts IH]; intros Hkept files lines s HP.
  - exists s. simpl. rewrite !Nat.add_0_r. auto.
  - cbn [for_each flat_map] in *. unfold bind at 1.
    destruct (scan_one_loop (rglob tree ext)
                (fun e H => Hkept e (in_or_app _ _ _ (or_introl H)))
                files lines s HP) as (s1 & E1 & HP1).
    rewrite E1.
    destruct (IH (fun e H => Hkept e (in_or_app _ _ _ (or_intror H)))
                (files + List.length (filter (eligible path) (rglob tree ext)))
                (lines + list_sum (map line_count
                                       (filter (eligible path) (rglob tree ext))))
                s1 HP1) as (s2 & E2 & HP2).
    exists s2. split; [|exact HP2]. rewrite E2.
    rewrite length_app, map_app, list_sum_app.
    apply f_equal2; [|reflexivity]. apply f_equal.
    apply f_equal2; lia.
Qed.

End ScanLoop.

(** The loop over the files counts the files it reads and their lines, and
    keeps whatever the scan of each such file keeps. *)
Lemma scan_files_run rt tree self (P : SecurityAuditor.t -> Prop) :
  (forall e, In e (eligible_files rt (project_path self) tree) ->
             kept_by rt P e) ->
  P self ->
  exists s',
    scan_files rt tree self
    = (Ok (List.length (eligible_files rt (project_path self) tree),
           list_sum (map line_count
                         (eligible_files rt (project_path self) tree))),
       s')
    /\ P s'.
Proof.
  intros Hkept HP. rewrite scan_files_unfold.
  apply (scan_extensions_loop rt (project_path self) P tree
           (set_iter rt extensions) Hkept 0 0 self HP).
Qed.

(** X1. The report counts every file that [scan] reads, whether or not the
    scan of the file then fails. [files_scanned] is the number of files
    whose name ends in one of the nine extensions [.py], [.js], [.ts],
    [.jsx], [.tsx], [.java], [.go], [.rb], [.php], taken in the order the
    process iterates the set, that have none of the nine parts
    [node_modules], [.git], [__pycache__], [venv], [.venv], [target],
    [build], [dist], [.tox] in their path and that can be read;
    [lines_scanned] is the number of their lines. *)
Theorem scan_counts_files_read rt tree start_time end_time self r self' :
  scan rt tree start_time end_time self = (Ok r, self') ->
  let read :=
    flat_map
      (fun ext =>
         filter
           (fun e =>
              negb (existsb
                      (fun part =>
                         existsb (String.eqb part)
                                 (project_path self ++ rel_parts e))
                      ["node_modules"; ".git"; "__pycache__"; "venv"; ".venv";
                       "target"; "build"; "dist"; ".tox"])
              && match read_text_ignore e with
                 | Ok _ => true
                 | Raise _ => false
                 end)
           (filter (fun e => Text.endswith ext (entry_name e)) (walk tree)))
      (set_iter rt [".py"; ".js"; ".ts"; ".jsx"; ".tsx"; ".java"; ".go";
                    ".rb"; ".php"]) in
  AuditReport.files_scanned r = List.length read
  /\ AuditReport.lines_scanned r
     = list_sum
         (map (fun e => match read_text_ignore e with
                        | Ok content => List.length (Text.splitlines content)
                        | Raise _ => 0
                        end)
              read).
Proof.
  intros H.
  change (AuditReport.files_scanned r
          = List.length (eligible_files rt (project_path self) tree)
          /\ AuditReport.lines_scanned r
             = list_sum (map line_count
                             (eligible_files rt (project_path self) tree))).
  revert H.
  destruct (scan_files_run rt tree self (fun _ => True)) as (s1 & E & _);
    [|exact I|].
  { intros e _ c s _.
    destruct (@file_step _ (scan_file rt e) c s (emits_scan_file rt e))
      as (s' & E & _).
    eauto. }
  unfold scan, scan_collect, bind. rewrite E.
  destruct (scan_dependencies rt tree s1) as [[deps|err] s2]; [|discriminate].
  simpl. intros [= <- _]. simpl. auto.
Qed.

(* ------------------------------------------------------------------ *)
(** ** Where the findings of a report come from *)

Lemma set_id_id fid f : Finding.id (set_id fid f) = fid.
Proof. reflexivity. Qed.

Lemma scan_file_kept_origin rt tree self e :
  In e (eligible_files rt (project_path self) tree) ->
  kept_by rt
    (fun s =>
       patterns s = patterns self
       /\ exists added,
            findings s = findings self ++ added
            /\ Forall (from_file rt (patterns self) (project_path self) tree)
                      added)
    e.
Proof.
  intros Hin c s (Hpat & added & Hf & Hall).
  pose proof (@extend_after_emits _ (scan_file rt e) c s
                (emits_scan_file rt e)) as H.
  unfold try_except.
  destruct ((ff <- scan_file rt e ;; _ <- extend_findings ff ;; ret c) s)
    as [[c'|err] s1].
  - destruct H as (-> & new & Hok & -> & _).
    exists (with_new s new). split; [reflexivity|]. simpl.
    split; [exact Hpat|]. exists (added ++ new).
    rewrite Hf, app_assoc. split; [reflexivity|].
    apply Forall_app. split; [exact Hall|].
    destruct (scan_file rt e s) as [[out|err] s2] eqn:E; simpl in Hok;
      [|discriminate].
    injection Hok as ->.
    apply scan_file_hits in E. destruct E as (-> & _).
    apply Forall_forall. intros f Hf'.
    apply in_assign_ids in Hf'. destruct Hf' as (h & Hh & Heq).
    exists e, h. rewrite <- Hpat. auto.
  - destruct H as (_ & k & ->). exists (bump k s). split; [reflexivity|].
    simpl. split; [exact Hpat|]. exists added. auto.
Qed.

Lemma scan_requirements_cases tree self req s1 :
  scan_requirements tree self = (Ok req, s1) ->
  (requirements_txt tree = None /\ req = [])
  \/ (exists content,
        requirements_txt tree = Some (Ok content)
        /\ req = assign_ids (finding_counter self) (requirement_hits content)).
Proof.
  intros H. destruct (requirements_txt tree) as [[content|e]|] eqn:E.
  - right. exists content. split; [reflexivity|].
    rewrite (scan_requirements_hits tree content self E) in H.
    now injection H as <- _.
  - unfold scan_requirements in H. rewrite E in H. discriminate.
  - left. unfold scan_requirements in H. rewrite E in H.
    now injection H as <- _.
Qed.

Lemma scan_dependencies_origin rt tree self out self' :
  scan_dependencies rt tree self = (Ok out, self') ->
  Forall (from_manifest tree) out.
Proof.
  unfold scan_dependencies, bind. intros H.
  destruct (scan_requirements tree self) as [[req|e] s1] eqn:Hreq;
    [|discriminate].
  assert (Hall : Forall (from_manifest tree) req).
  { destruct (scan_requirements_cases _ _ _ _ Hreq)
      as [(_ & ->) | (content & E & ->)]; [constructor|].
    apply Forall_forall. intros f Hf.
    apply in_assign_ids in Hf. destruct Hf as (h & Hh & Heq).
    left. exists content, h. auto. }
  destruct (scan_package_json_cases rt tree req s1) as [E | E];
    rewrite E in H; injection H as <- _; [exact Hall|].
  apply Forall_app. split; [exact Hall|]. constructor; [|constructor].
  right. split; [|reflexivity].
  intros Hnone.
  rewrite (scan_package_json_skips rt tree req s1 (or_introl Hnone)) in E.
  injection E as E _. rewrite <- (app_nil_r req) in E at 1.
  apply app_inv_head in E. discriminate.
Qed.

Lemma scan_collect_origin rt tree self counters collected :
  scan_collect rt tree self = (Ok counters, collected) ->
  exists added,
    findings collected = findings self ++ added
    /\ Forall (fun f => from_file rt (patterns self) (project_path self) tree f
                        \/ from_manifest tree f) added
    /\ finding_counter self <= finding_counter collected.
Proof.
  unfold scan_collect, bind at 1. intros H.
  destruct (scan_files_run rt tree self
              (fun s =>
                 patterns s = patterns self
                 /\ exists added,
                      findings s = findings self ++ added
                      /\ Forall (from_file rt (patterns self)
                                   (project_path self) tree) added))
    as (s1 & E & _ & added & Hf & Hall).
  { intros e Hin. now apply scan_file_kept_origin. }
  { split; [reflexivity|]. exists []. now rewrite app_nil_r. }
  assert (Hcount : finding_counter self <= finding_counter s1).
  { destruct (scan_files_preserves rt tree
                (fun s => finding_counter self <= finding_counter s))
      with (self := self) as (c' & s' & E' & Hle); [|lia|].
    - intros fp c s content _ Hle.
      pose proof (@extend_after_emits _ (scan_file rt fp) c s
                    (emits_scan_file rt fp)) as Hx.
      unfold try_except.
      destruct ((ff <- scan_file rt fp ;; _ <- extend_findings ff ;; ret c) s)
        as [[c''|err] s2].
      + destruct Hx as (-> & new & _ & -> & _). eexists. split; [reflexivity|].
        simpl. lia.
      + destruct Hx as (_ & k & ->). eexists. split; [reflexivity|].
        simpl. lia.
    - rewrite E in E'. now injection E' as _ <-. }
  rewrite E in H.
  pose proof (@extend_after_emits _ (scan_dependencies rt tree)
                (List.length (eligible_files rt (project_path self) tree),
                 list_sum (map line_count
                               (eligible_files rt (project_path self) tree)))
                s1 (emits_scan_dependencies rt tree)) as Hd.
  rewrite H in Hd. destruct Hd as (_ & new & Hok & -> & _).
  exists (added ++ new). simpl. rewrite Hf, app_assoc.
  split; [reflexivity|]. split; [|lia].
  apply Forall_app. split.
  - eapply Forall_impl; [|exact Hall]. intros f Hfrom. now left.
  - destruct (scan_dependencies rt tree s1) as [[out|err] s2] eqn:Ed;
      simpl in Hok; [|discriminate].
    injection Hok as ->.
    eapply Forall_impl; [|exact (scan_dependencies_origin _ _ _ _ _ Ed)].
    intros f Hfrom. now right.
Qed.

(** X2. A scan adds to what the auditor holds: the report holds every
    finding the auditor held before, next to the findings of this scan,
    and the counter does not go back. A second [scan()] of one auditor
    therefore reports the findings of the first scan again. *)
Theorem scan_keeps_earlier_findings rt tree start_time end_time self r self' :
  scan rt tree start_time end_time self = (Ok r, self') ->
  exists added,
    Permutation (AuditReport.findings r) (findings self ++ added)
    /\ finding_counter self <= finding_counter self'
    /\ forall f, In f (findings self) -> In f (AuditReport.findings r).
Proof.
  intros Hscan.
  destruct (scan_collect_then_sort _ _ _ _ _ _ _ Hscan)
    as (counters & collected & Hcol & Hsort & Hcnt).
  destruct (scan_collect_origin _ _ _ _ _ Hcol) as (added & Hf & _ & Hle).
  assert (Hperm : Permutation (AuditReport.findings r) (findings self ++ added))
    by (rewrite Hsort, <- Hf; apply sort_by_key_perm).
  exists added. split; [exact Hperm|]. split; [lia|].
  intros f Hin. eapply Permutation_in; [symmetry; exact Hperm|].
  apply in_or_app. now left.
Qed.

(** X3. Every finding in the report of an auditor that held none comes,
    but for its id, from a file that [scan] reads (a file of an iterated
    extension, outside the skipped directories, that can be read) or from
    one of the two manifests. No finding comes from anywhere else. *)
Theorem scan_findings_have_origin rt tree start_time end_time self r self' :
  findings self = [] ->
  scan rt tree start_time end_time self = (Ok r, self') ->
  Forall (fun f => from_file rt (patterns self) (project_path self) tree f
                   \/ from_manifest tree f)
         (AuditReport.findings r).
Proof.
  intros Hnil Hscan.
  destruct (scan_collect_then_sort _ _ _ _ _ _ _ Hscan)
    as (counters & collected & Hcol & Hsort & _).
  destruct (scan_collect_origin _ _ _ _ _ Hcol) as (added & Hf & Hall & _).
  rewrite Hnil in Hf. simpl in Hf. rewrite Hsort, Hf.
  eapply Permutation_Forall; [symmetry; apply sort_by_key_perm | exact Hall].
Qed.

(* ------------------------------------------------------------------ *)
(** ** What a textual finding says *)

Lemma in_enumerate_from (l : list string) a i x :
  In (i, x) (combine (seq a (List.length l)) l) ->
  a <= i < a + List.length l /\ x = nth (i - a) l EmptyString.
Proof.
  revert a. induction l as [|y l IH]; intros a; simpl; [tauto|].
  intros [[= <- <-] | Hin].
  - rewrite Nat.sub_diag. split; [lia | reflexivity].
  - apply IH in Hin. destruct Hin as (Hi & ->). split; [lia|].
    replace (i - a) with (S (i - S a)) by lia. reflexivity.
Qed.

Lemma in_textual_hits rt reg rel_path lines h :
  In h (textual_hits rt reg rel_path lines) ->
  exists category rules rule_ i,
    In (category, rules) reg /\ In rule_ rules
    /\ 1 <= i <= List.length lines
    /\ line_matches rt rule_ (nth (i - 1) lines EmptyString) = true
    /\ h = pending (PatternDef.title rule_) (PatternDef.severity rule_)
             category rel_path i (snippet lines i)
             (PatternDef.description rule_) (PatternDef.recommendation rule_)
             (PatternDef.cwe rule_) (PatternDef.owasp rule_).
Proof.
  unfold textual_hits. intros Hin.
  apply in_flat_map in Hin. destruct Hin as ([category rules] & Hcat & Hin).
  apply in_flat_map in Hin. destruct Hin as (rule_ & Hrule & Hin).
  unfold rule_hits in Hin.
  apply in_flat_map in Hin. destruct Hin as ([i line] & Hline & Hin).
  apply in_enumerate_from in Hline. destruct Hline as (Hi & ->).
  destruct (line_matches rt rule_ _) eqn:Hm; [|destruct Hin].
  destruct Hin as [<- | []].
  exists category, rules, rule_, i. repeat split; auto; lia.
Qed.

(** X4. A textual finding is never made up: it sits on a line of the file
    that the pattern of one rule of the registry matches, under the
    category the registry lists the rule in, and its title, severity,
    description, recommendation and references are those of that rule,
    whatever the file and the line. *)
Theorem textual_finding_matches_its_rule rt lines rel_path self out self' :
  scan_patterns rt lines rel_path self = (Ok out, self') ->
  forall f, In f out ->
    exists category rules rule_,
      In (category, rules) (patterns self) /\ In rule_ rules
      /\ 1 <= Finding.line_number f <= List.length lines
      /\ line_matches rt rule_
           (nth (Finding.line_number f - 1) lines EmptyString) = true
      /\ Finding.category f = category
      /\ Finding.file_path f = rel_path
      /\ Finding.title f = PatternDef.title rule_
      /\ Finding.severity f = PatternDef.severity rule_
      /\ Finding.description f = PatternDef.description rule_
      /\ Finding.recommendation f = PatternDef.recommendation rule_
      /\ Finding.cwe_id f = PatternDef.cwe rule_
      /\ Finding.owasp_category f = PatternDef.owasp rule_.
Proof.
  intros Hok f Hin.
  pose proof (scan_patterns_ok_compiles _ _ _ _ _ _ Hok) as Hreg.
  rewrite (scan_patterns_hits rt lines rel_path self Hreg) in Hok.
  injection Hok as <- _.
  apply in_assign_ids in Hin. destruct Hin as (h & Hh & ->).
  apply in_textual_hits in Hh.
  destruct Hh as (category & rules & rule_ & i & Hcat & Hrule & Hi & Hm & ->).
  exists category, rules, rule_. simpl. repeat split; auto; lia.
Qed.

(* ------------------------------------------------------------------ *)
(** ** The categories of a report *)

Lemma in_node_hits rel_path node h :
  In h (node_hits rel_path node) ->
  (Finding.category h = "code_quality" /\ Finding.severity h = LOW)
  \/ (Finding.category h = "injection" /\ Finding.severity h = MEDIUM).
Proof.
  unfold node_hits.
  destruct (kind_of node) as [lineno|[|] lineno|names lineno|]; simpl;
    try tauto.
  - intros [<- | []]. auto.
  - intros [<- | []]. auto.
  - intros Hin. apply in_flat_map in Hin. destruct Hin as (alias & _ & Hin).
    destruct (String.eqb alias "pickle"); [|destruct Hin].
    destruct Hin as [<- | []]. auto.
Qed.

Lemma in_requirement_hits content h :
  In h (requirement_hits content) ->
  Finding.category h = "dependencies".
Proof.
  unfold requirement_hits. intros Hin.
  apply in_flat_map in Hin.
  destruct Hin as ([vuln_pattern [title severity]] & _ & Hin).
  destruct (mentions vuln_pattern content); [|destruct Hin].
  now destruct Hin as [<- | []].
Qed.

Lemma origin_category rt reg path tree f :
  from_file rt reg path tree f \/ from_manifest tree f ->
  In (Finding.category f)
     (map fst reg ++ ["code_quality"; "injection"; "dependencies"]).
Proof.
  intros [(e & h & _ & Hh & ->) | [(content & h & _ & Hh & ->) | (_ & ->)]];
    apply in_or_app; simpl.
  - unfold file_hits in Hh.
    destruct (read_text_ignore e) as [content|err]; [|destruct Hh].
    apply in_app_or in Hh. destruct Hh as [Hh | Hh].
    + left. apply in_textual_hits in Hh.
      destruct Hh as (category & rules & rule_ & i & Hcat & _ & _ & _ & ->).
      simpl. apply in_map_iff. now exists (category, rules).
    + right. destruct (String.eqb _ ".py"); [|destruct Hh].
      unfold structural_hits in Hh.
      destruct (ast_parse rt content) as [tree'|err]; [|destruct Hh].
      apply in_flat_map in Hh. destruct Hh as (node & _ & Hh).
      apply in_node_hits in Hh. destruct Hh as [(-> & _) | (-> & _)]; auto.
  - right. rewrite (in_requirement_hits _ _ Hh). auto.
  - right. auto.
Qed.

(** X5. The categories are a closed set: every finding in a report of a
    newly built auditor is filed under secrets, injection, xss, crypto,
    auth, logging, code_quality or dependencies. *)
Theorem scan_categories_closed rt tree start_time end_time project r self' :
  scan rt tree start_time end_time (__init__ project) = (Ok r, self') ->
  Forall (fun f => In (Finding.category f) known_categories)
         (AuditReport.findings r).
Proof.
  intros Hscan.
  pose proof (scan_findings_have_origin rt tree start_time end_time
                (__init__ project) r self' eq_refl Hscan) as Hall.
  eapply Forall_impl; [|exact Hall].
  intros f Hfrom. apply origin_category in Hfrom.
  simpl in Hfrom. unfold known_categories. simpl.
  intuition.
Qed.

(* ------------------------------------------------------------------ *)
(** ** The structural inspector sees every node once *)

Lemma walk_queue_nodes fuel todo :
  forest_size todo <= fuel ->
  Permutation (walk_queue fuel todo) (flat_map nodes todo).
Proof.
  revert todo. induction fuel as [|fuel IH]; intros todo Hle.
  - destruct todo as [|node rest]; [constructor|].
    rewrite forest_size_cons in Hle. lia.
  - destruct todo as [|[kind children] rest]; [constructor|].
    rewrite forest_size_cons in Hle. cbn [walk_queue flat_map nodes].
    simpl app. constructor.
    rewrite IH by (simpl in *; lia).
    rewrite flat_map_app. apply Permutation_app_comm.
Qed.

Lemma ast_walk_nodes tree : Permutation (ast_walk tree) (nodes tree).
Proof.
  unfold ast_walk.
  rewrite walk_queue_nodes by (unfold forest_size; simpl; lia).
  simpl. now rewrite app_nil_r.
Qed.

Lemma node_hits_report rel_path node :
  map title_and_line (node_hits rel_path node) = node_report node.
Proof.
  unfold node_hits, node_report.
  destruct (kind_of node) as [lineno|[|] lineno|names lineno|];
    try reflexivity.
  induction names as [|alias names IH]; [reflexivity|].
  cbn [flat_map filter]. rewrite map_app, IH.
  now destruct (String.eqb alias "pickle").
Qed.

(** X6. When a source parses, the structural inspector reports every
    [assert] statement and every handler without an exception type once,
    and every [import] statement once for each of its names that is
    [pickle] (so [import pickle, pickle] is reported twice), at the line of
    the node, wherever the node is nested in the tree, and reports nothing
    else. *)
Theorem structural_findings_cover_tree
  rt file_path content rel_path tree self out self' :
  ast_parse rt content = Ok tree ->
  _analyze_python_ast rt file_path content rel_path self = (Ok out, self') ->
  Permutation (map title_and_line out) (flat_map node_report (nodes tree))
  /\ Forall (fun f => Finding.file_path f = rel_path
                      /\ (Finding.severity f = LOW
                          \/ Finding.severity f = MEDIUM)) out.
Proof.
  intros Hparse Hok.
  apply analyze_python_ast_hits in Hok. destruct Hok as (-> & _).
  unfold structural_hits. rewrite Hparse. split.
  - rewrite map_assign_ids by reflexivity.
    rewrite map_flat_map_.
    rewrite (flat_map_ext _ _ (node_hits_report rel_path)).
    apply Permutation_flat_map, ast_walk_nodes.
  - apply Forall_forall. intros f Hin.
    apply in_assign_ids in Hin. destruct Hin as (h & Hh & ->).
    apply in_flat_map in Hh. destruct Hh as (node & _ & Hh).
    split.
    + unfold node_hits in Hh.
      destruct (kind_of node) as [lineno|[|] lineno|names lineno|];
        simpl in Hh; try tauto;
        try (destruct Hh as [<- | []]; reflexivity).
      apply in_flat_map in Hh. destruct Hh as (alias & _ & Hh).
      destruct (String.eqb alias "pickle"); [|destruct Hh].
      now destruct Hh as [<- | []].
    + apply in_node_hits in Hh. simpl. tauto.
Qed.

(* ------------------------------------------------------------------ *)
(** ** When the report document can be written *)

Lemma split_from_length sep cur s :
  List.length (Str.split_from sep cur s) = S (occurrences sep s).
Proof.
  revert cur. induction s as [|c s IH]; intros cur; simpl; [reflexivity|].
  destruct (Ascii.eqb c sep); simpl; now rewrite IH.
Qed.

Lemma truthy_some value cwe :
  truthy value = Some cwe <-> value = Some cwe /\ cwe <> EmptyString.
Proof.
  destruct value as [[|c s]|]; simpl; split.
  - discriminate.
  - intros (H & Hne). injection H as <-. now destruct Hne.
  - intros [= <-]. split; [reflexivity | discriminate].
  - now intros ([= <-] & _).
  - discriminate.
  - now intros (H & _).
Qed.

Lemma render_cwe_raises cwe_id :
  render_cwe cwe_id = None <-> cwe_renders cwe_id = false.
Proof.
  unfold render_cwe, cwe_renders.
  destruct (truthy cwe_id) as [cwe|]; [|split; discriminate].
  unfold Str.split.
  pose proof (split_from_length "-" EmptyString cwe) as Hlen.
  destruct (nth_error (Str.split_from "-" EmptyString cwe) 1) as [number|] eqn:E.
  - assert (1 < List.length (Str.split_from "-" EmptyString cwe))
      by (apply nth_error_Some; congruence).
    split; [discriminate|]. intros H0. apply Nat.ltb_ge in H0. lia.
  - apply nth_error_None in E. split; [|reflexivity].
    intros _. apply Nat.ltb_ge. lia.
Qed.

Lemma cwe_renders_false f :
  cwe_renders (Finding.cwe_id f) = false <-> cwe_without_hyphen f.
Proof.
  unfold cwe_renders, cwe_without_hyphen.
  destruct (truthy (Finding.cwe_id f)) as [cwe|] eqn:E.
  - apply truthy_some in E. destruct E as (E & Hne). split.
    + intros H. apply Nat.ltb_ge in H. exists cwe. repeat split; auto. lia.
    + intros (cwe' & E' & _ & H0). rewrite E in E'. injection E' as <-.
      apply Nat.ltb_ge. lia.
  - split; [discriminate|].
    intros (cwe & E' & Hne & _).
    assert (truthy (Finding.cwe_id f) = Some cwe)
      by (apply truthy_some; auto).
    congruence.
Qed.

Lemma render_finding_raises f :
  render_finding f = None <-> cwe_without_hyphen f.
Proof.
  rewrite <- cwe_renders_false, <- render_cwe_raises.
  unfold render_finding.
  destruct (render_cwe (Finding.cwe_id f)); split; congruence.
Qed.

Lemma in_pieces_entry f current findings :
  In (Entry f) (pieces current findings) <-> In f findings.
Proof.
  revert current. induction findings as [|g findings IH]; intros current;
    [simpl; tauto|].
  assert (Hentry :
    In (Entry f) (Entry g :: pieces (Some (Finding.severity g)) findings)
    <-> In f (g :: findings)).
  { simpl. rewrite IH. split; intros [H | H]; auto; left; congruence. }
  simpl pieces.
  destruct current as [s|]; [destruct (Severity_eqb _ s)|];
    try exact Hentry;
    (split; [intros [H | H]; [discriminate | now apply Hentry]
            | intros H; right; now apply Hentry]).
Qed.

Lemma render_pieces_raises l :
  render_pieces l = None <->
  exists f, In (Entry f) l /\ render_finding f = None.
Proof.
  induction l as [|[s|g] l IH]; simpl.
  - split; [discriminate | intros (f & [] & _)].
  - destruct (render_pieces l) as [md|].
    + split; [discriminate|].
      intros (f & [H | H] & Hf); [discriminate|].
      assert (Hx : Some md = None) by (apply IH; eauto).
      discriminate Hx.
    + split; [|reflexivity]. intros _.
      destruct (proj1 IH eq_refl) as (f & Hin & Hf). eauto.
  - destruct (render_finding g) as [text|] eqn:Eg.
    + destruct (render_pieces l) as [md|].
      * split; [discriminate|].
        intros (f & [H | H] & Hf); [injection H as ->; congruence|].
        assert (Hx : Some md = None) by (apply IH; eauto).
        discriminate Hx.
      * split; [|reflexivity]. intros _.
        destruct (proj1 IH eq_refl) as (f & Hin & Hf). eauto.
    + split; [|reflexivity]. intros _. exists g. auto.
Qed.

(** X7. [generate_report_markdown] raises [IndexError] exactly when some
    finding of the report has a [cwe_id] that is not empty and holds no
    hyphen; for every other report it returns the document. *)
Theorem markdown_raises_iff_cwe_without_hyphen strftime report :
  generate_report_markdown strftime report = IndexError
  <-> exists f, In f (AuditReport.findings report) /\ cwe_without_hyphen f.
Proof.
  unfold generate_report_markdown.
  destruct (AuditReport.findings report) as [|f0 fs] eqn:E.
  - split; [discriminate | intros (f & [] & _)].
  - destruct (render_pieces (pieces None (f0 :: fs))) as [body|] eqn:Eb.
    + split; [discriminate|].
      intros (f & Hin & Hf).
      assert (render_pieces (pieces None (f0 :: fs)) = None); [|congruence].
      apply render_pieces_raises. exists f.
      split; [now apply in_pieces_entry | now apply render_finding_raises].
    + split; [|reflexivity]. intros _.
      apply render_pieces_raises in Eb. destruct Eb as (f & Hin & Hf).
      exists f.
      split; [now apply in_pieces_entry in Hin
             | now apply render_finding_raises].
Qed.

Lemma origin_cwe_renders rt reg path tree f :
  registry_cwe_render reg = true ->
  from_file rt reg path tree f \/ from_manifest tree f ->
  cwe_renders (Finding.cwe_id f) = true.
Proof.
  intros Hreg
    [(e & h & _ & Hh & ->) | [(content & h & _ & Hh & ->) | (_ & ->)]];
    simpl.
  - unfold file_hits in Hh.
    destruct (read_text_ignore e) as [content|err]; [|destruct Hh].
    apply in_app_or in Hh. destruct Hh as [Hh | Hh].
    + apply in_textual_hits in Hh.
      destruct Hh as (category & rules & rule_ & i & Hcat & Hrule & _ & _ & ->).
      simpl. unfold registry_cwe_render in Hreg.
      rewrite forallb_forall in Hreg. apply Hreg.
      unfold all_rules. apply in_flat_map. now exists (category, rules).
    + destruct (String.eqb _ ".py"); [|destruct Hh].
      unfold structural_hits in Hh.
      destruct (ast_parse rt content) as [tree'|err]; [|destruct Hh].
      apply in_flat_map in Hh. destruct Hh as (node & _ & Hh).
      unfold node_hits in Hh.
      destruct (kind_of node) as [lineno|[|] lineno|names lineno|];
        simpl in Hh; try tauto;
        try (destruct Hh as [<- | []]; reflexivity).
      apply in_flat_map in Hh. destruct Hh as (alias & _ & Hh).
      destruct (String.eqb alias "pickle"); [|destruct Hh].
      now destruct Hh as [<- | []].
  - unfold requirement_hits in Hh. apply in_flat_map in Hh.
    destruct Hh as ([vuln_pattern [title severity]] & _ & Hh).
    destruct (mentions vuln_pattern content); [|destruct Hh].
    now destruct Hh as [<- | []].
  - reflexivity.
Qed.

(** X8. The document of a report that a newly built auditor returns can
    always be written: every [cwe_id] the scanners give has a hyphen, so
    [generate_report_markdown] does not raise on it. *)
Theorem scan_report_renders rt tree start_time end_time project r self'
  strftime :
  scan rt tree start_time end_time (__init__ project) = (Ok r, self') ->
  exists md, generate_report_markdown strftime r = Document md.
Proof.
  intros Hscan.
  destruct (generate_report_markdown strftime r) as [md|] eqn:E; [eauto|].
  apply markdown_raises_iff_cwe_without_hyphen in E.
  destruct E as (f & Hin & Hbad).
  apply cwe_renders_false in Hbad.
  pose proof (scan_findings_have_origin rt tree start_time end_time
                (__init__ project) r self' eq_refl Hscan) as Hall.
  rewrite Forall_forall in Hall. specialize (Hall f Hin).
  apply origin_cwe_renders in Hall; [congruence|].
  vm_compute. reflexivity.
Qed.

(* ------------------------------------------------------------------ *)
(** ** The headings of the report document *)

Lemma pieces_group s group rest current :
  Forall (fun f => Finding.severity f = s) group ->
  group <> [] ->
  pieces current (group ++ rest)
  = (match current with
     | Some c => if Severity_eqb s c then [] else [Heading s]
     | None => [Heading s]
     end)
    ++ map Entry group ++ pieces (Some s) rest.
Proof.
  intros Hall. revert current.
  induction Hall as [|f group Hf Hall IH]; intros current Hne;
    [now destruct Hne|].
  cbn [app pieces map]. rewrite Hf.
  assert (Hrest : pieces (Some s) (group ++ rest)
                  = map Entry group ++ pieces (Some s) rest).
  { destruct group as [|g group]; [reflexivity|].
    rewrite IH by discriminate.
    assert (Severity_eqb s s = true) as -> by now destruct s.
    reflexivity. }
  rewrite Hrest.
  destruct current as [c|]; [destruct (Severity_eqb s c)|]; reflexivity.
Qed.

Lemma pieces_groups (grp : Severity -> list Finding.t) sevs current :
  (forall s, Forall (fun f => Finding.severity f = s) (grp s)) ->
  NoDup sevs ->
  not_current current sevs ->
  pieces current (flat_map grp sevs)
  = flat_map (fun s => match grp s with
                       | [] => []
                       | f :: group => Heading s :: map Entry (f :: group)
                       end) sevs.
Proof.
  intros Hgrp. revert current.
  induction sevs as [|s sevs IH]; intros current Hnd Hcur; [reflexivity|].
  inversion Hnd as [|? ? Hnotin Hnd']; subst.
  cbn [flat_map].
  destruct (grp s) as [|f group] eqn:E.
  - simpl. apply IH; [exact Hnd'|].
    destruct current as [c|]; simpl in *; tauto.
  - rewrite pieces_group with (s := s);
      [| rewrite <- E; apply Hgrp | discriminate].
    rewrite (IH (Some s) Hnd' Hnotin).
    assert (Hhead : match current with
                    | Some c => if Severity_eqb s c then [] else [Heading s]
                    | None => [Heading s]
                    end = [Heading s]).
    { destruct current as [c|]; [|reflexivity].
      destruct (Severity_eqb s c) eqn:Ec; [|reflexivity].
      apply Severity_eqb_eq in Ec. subst c. simpl in Hcur. tauto. }
    rewrite Hhead. reflexivity.
Qed.

Lemma filter_below_empty s f fs :
  Forall (key_le rank f) fs ->
  severity_order s < rank f ->
  filter (has_severity s) fs = [].
Proof.
  intros Hall Hlt. induction Hall as [|g fs Hg Hall IH]; [reflexivity|].
  cbn [filter]. rewrite IH, has_severity_rank.
  unfold key_le in Hg.
  destruct (Nat.eqb_spec (rank g) (severity_order s)); [lia | reflexivity].
Qed.

Lemma filter_cons_severity s f fs :
  filter (has_severity s) (f :: fs)
  = if Severity_eqb (Finding.severity f) s
    then f :: filter (has_severity s) fs
    else filter (has_severity s) fs.
Proof. reflexivity. Qed.

Lemma sorted_by_groups fs :
  StronglySorted (key_le rank) fs ->
  fs = flat_map (fun s => filter (has_severity s) fs) all_severities.
Proof.
  induction 1 as [|f fs Hs IH Hall]; [reflexivity|].
  unfold all_severities in *. cbn [flat_map] in *.
  rewrite !app_nil_r in *.
  pose proof (fun s => filter_below_empty s f fs Hall) as Hempty.
  unfold rank in Hempty at 1.
  rewrite !filter_cons_severity.
  destruct (Finding.severity f); cbn [Severity_eqb];
    cbn [severity_order] in Hempty.
  - cbn [app]. f_equal. exact IH.
  - rewrite (Hempty CRITICAL) in * by (simpl; lia).
    cbn [app] in *. f_equal. exact IH.
  - rewrite (Hempty CRITICAL), (Hempty HIGH) in * by (simpl; lia).
    cbn [app] in *. f_equal. exact IH.
  - rewrite (Hempty CRITICAL), (Hempty HIGH), (Hempty MEDIUM) in *
      by (simpl; lia).
    cbn [app] in *. f_equal. exact IH.
  - rewrite (Hempty CRITICAL), (Hempty HIGH), (Hempty MEDIUM), (Hempty LOW)
      in * by (simpl; lia).
    cbn [app] in *. f_equal. exact IH.
Qed.

Lemma filter_has_severity s fs :
  Forall (fun f => Finding.severity f = s) (filter (has_severity s) fs).
Proof.
  apply Forall_forall. intros f Hin. apply filter_In in Hin.
  destruct Hin as (_ & H). now apply Severity_eqb_eq in H.
Qed.

Lemma sorted_pieces fs :
  StronglySorted (key_le rank) fs -> pieces None fs = by_severity fs.
Proof.
  intros Hs. unfold by_severity.
  rewrite (sorted_by_groups fs Hs) at 1.
  apply (pieces_groups (fun s => filter (has_severity s) fs)).
  - intros s. apply filter_has_severity.
  - unfold all_severities.
    repeat (constructor; [simpl; intuition discriminate|]). constructor.
  - exact I.
Qed.

(** X9. In the document of a report that [scan] returns, every severity
    that occurs has one heading, the headings come in rank order from
    CRITICAL to INFO, and under each heading stand the findings of that
    severity, in the order of the report. *)
Theorem scan_report_one_heading_per_severity
  rt tree start_time end_time self r self' :
  scan rt tree start_time end_time self = (Ok r, self') ->
  pieces None (AuditReport.findings r) = by_severity (AuditReport.findings r).
Proof.
  intros Hscan.
  destruct (scan_collect_then_sort _ _ _ _ _ _ _ Hscan)
    as (counters & collected & _ & Hsort & _).
  apply sorted_pieces. rewrite Hsort. apply sort_by_key_sorted.
Qed.

(* ------------------------------------------------------------------ *)
(** ** Risk level, compliance table and exit status *)

Lemma counts_partition report :
  List.length (AuditReport.findings report)
  = AuditReport.count CRITICAL report + AuditReport.count HIGH report
    + AuditReport.count MEDIUM report + AuditReport.count LOW report
    + AuditReport.count INFO report.
Proof.
  unfold AuditReport.count.
  induction (AuditReport.findings report) as [|f fs IH]; [reflexivity|].
  cbn [filter List.length]. rewrite IH.
  destruct (Finding.severity f); cbn [Severity_eqb List.length]; lia.
Qed.

Lemma risk_level_clean risk :
  risk_level risk = ([9989]%N ++ u " CLEAN") <-> risk = 0.
Proof.
  unfold risk_level.
  destruct (Nat.leb_spec 75 risk); [split; [intros H0; vm_compute in H0; discriminate | lia]|].
  destruct (Nat.leb_spec 50 risk); [split; [intros H1; vm_compute in H1; discriminate | lia]|].
  destruct (Nat.leb_spec 25 risk); [split; [intros H2; vm_compute in H2; discriminate | lia]|].
  destruct (Nat.ltb_spec 0 risk); [split; [intros H3; vm_compute in H3; discriminate | lia]|].
  split; [lia | reflexivity].
Qed.

Lemma risk_score_zero report :
  AuditReport.risk_score report = 0 <->
  forall f, In f (AuditReport.findings report) -> Finding.severity f = INFO.
Proof.
  rewrite risk_score_clamped_sum. unfold weighted_counts.
  simpl AuditReport.weights. split.
  - intros H f Hin.
    assert (Hc : AuditReport.count CRITICAL report = 0) by lia.
    assert (Hh : AuditReport.count HIGH report = 0) by lia.
    assert (Hm : AuditReport.count MEDIUM report = 0) by lia.
    assert (Hl : AuditReport.count LOW report = 0) by lia.
    rewrite count_zero in Hc, Hh, Hm, Hl.
    specialize (Hc f Hin). specialize (Hh f Hin).
    specialize (Hm f Hin). specialize (Hl f Hin).
    destruct (Finding.severity f); congruence.
  - intros H.
    assert (Hz : forall s, s <> INFO -> AuditReport.count s report = 0).
    { intros s Hs. apply count_zero. intros f Hin. rewrite (H f Hin).
      congruence. }
    rewrite (Hz CRITICAL), (Hz HIGH), (Hz MEDIUM), (Hz LOW) by discriminate.
    reflexivity.
Qed.

(** X10. The document calls a report CLEAN exactly when every finding in
    it, if any, is of severity INFO: such findings are listed, and the
    OWASP row says that issues were found, under a CLEAN risk level. *)
Theorem clean_level_iff_only_info report :
  risk_level (AuditReport.risk_score report) = ([9989]%N ++ u " CLEAN")
  <-> forall f, In f (AuditReport.findings report) ->
                Finding.severity f = INFO.
Proof.
  rewrite risk_level_clean. apply risk_score_zero.
Qed.

(** X11. The exit status of [main] and the compliance table of the
    document agree: the status is 0 exactly when the CWE row reports no
    critical issue and the PCI row passes, and it is 2 exactly when the CWE
    row asks for a review. *)
Theorem exit_status_agrees_with_compliance report :
  (exit_code report = 0 <->
   cwe_status report = ([9989]%N ++ u " No Critical Issues")
   /\ pci_status report = ([9989]%N ++ u " Passing"))
  /\ (exit_code report = 2 <->
      cwe_status report = ([9888; 65039]%N ++ u " Review Required")).
Proof.
  unfold exit_code, cwe_status, pci_status.
  destruct (0 <? AuditReport.critical_count report);
    destruct (0 <? AuditReport.high_count report);
    repeat split; try discriminate; try reflexivity;
    try (intros (H & H'); vm_compute in H; vm_compute in H'; discriminate);
    try (intros H; vm_compute in H; discriminate).
Qed.

(** X12. A nonzero exit status shows in the risk score: status 2 comes
    with a score of 25 or more, status 1 with a score of 15 or more, and a
    score below 15 comes with status 0. *)
Theorem exit_status_bounds_risk_score report :
  (exit_code report = 2 -> 25 <= AuditReport.risk_score report)
  /\ (exit_code report = 1 -> 15 <= AuditReport.risk_score report)
  /\ (AuditReport.risk_score report < 15 -> exit_code report = 0).
Proof.
  rewrite risk_score_clamped_sum. unfold exit_code, weighted_counts.
  unfold AuditReport.critical_count, AuditReport.high_count.
  simpl AuditReport.weights.
  destruct (Nat.ltb_spec 0 (AuditReport.count CRITICAL report));
    destruct (Nat.ltb_spec 0 (AuditReport.count HIGH report));
    repeat split; intros; try discriminate; try reflexivity; lia.
Qed.

(** X13. In the structured output the per-severity counts add up to
    [total_findings]. *)
Theorem summary_counts_add_up rt report :
  exists total critical high medium low info,
    json_at ["summary"; "total_findings"] (AuditReport.to_dict rt report)
    = Some (JInt total)
    /\ json_at ["summary"; "critical"] (AuditReport.to_dict rt report)
       = Some (JInt critical)
    /\ json_at ["summary"; "high"] (AuditReport.to_dict rt report)
       = Some (JInt high)
    /\ json_at ["summary"; "medium"] (AuditReport.to_dict rt report)
       = Some (JInt medium)
    /\ json_at ["summary"; "low"] (AuditReport.to_dict rt report)
       = Some (JInt low)
    /\ json_at ["summary"; "info"] (AuditReport.to_dict rt report)
       = Some (JInt info)
    /\ (total = critical + high + medium + low + info)%Z.
Proof.
  do 6 eexists.
  do 6 (split; [reflexivity|]).
  unfold AuditReport.critical_count, AuditReport.high_count.
  rewrite counts_partition. lia.
Qed.

(* ------------------------------------------------------------------ *)
(** ** Ids *)

(** X14. [_generate_finding_id] gives different ids at different counter
    values, also past NF-9999 where the ids get longer: it always returns,
    moves the counter on by one, and never gives an id twice as long as the
    counter only grows. *)
Theorem generated_ids_differ self self' :
  finding_counter self <> finding_counter self' ->
  exists fid fid',
    _generate_finding_id self = (Ok fid, bump 1 self)
    /\ _generate_finding_id self' = (Ok fid', bump 1 self')
    /\ fid <> fid'.
Proof.
  intros Hne. unfold _generate_finding_id. simpl.
  eexists _, _. split; [reflexivity|]. split; [reflexivity|].
  intros H. injection H as H. apply format_04d_inj in H. lia.
Qed.

(* ------------------------------------------------------------------ *)
(** ** [package.json] *)

Lemma dict_get_set x y v d :
  Dict.get x (Dict.set y v d) = if String.eqb y x then Some v else Dict.get x d.
Proof.
  induction d as [|[k w] d IH]; [reflexivity|].
  cbn [Dict.set]. destruct (String.eqb_spec k y) as [-> | Hne].
  - cbn [Dict.get]. now destruct (String.eqb y x).
  - cbn [Dict.get]. rewrite IH.
    destruct (String.eqb_spec k x) as [-> | Hkx]; [|reflexivity].
    destruct (String.eqb_spec y x); [congruence | reflexivity].
Qed.

Lemma dict_mem_merge x a b :
  Dict.mem x (Dict.merge a b) = Dict.mem x a || Dict.mem x b.
Proof.
  unfold Dict.merge. revert a.
  induction b as [|[k v] b IH]; intros a; simpl.
  - now rewrite orb_false_r.
  - rewrite IH. unfold Dict.mem at 1 3 4. rewrite dict_get_set.
    cbn [Dict.get].
    destruct (String.eqb k x); [|reflexivity].
    now destruct (Dict.get x a).
Qed.

Lemma scan_package_json_declared rt tree text pkg acc self :
  package_json tree = Some (Ok text) ->
  json_loads rt text = Ok (JDict pkg) ->
  scan_package_json rt tree acc self
  = if declares_lodash pkg
    then (Ok (acc ++ [lodash_finding (finding_id (S (finding_counter self)))]),
          bump 1 self)
    else (Ok acc, self).
Proof.
  intros Hpkg Hjson. unfold scan_package_json, declares_lodash, section_of.
  rewrite Hpkg. unfold try_except, bind, lift. rewrite Hjson.
  unfold json_get_or_empty.
  destruct (Dict.get "dependencies" pkg) as [[| | | | |d1]|];
    try reflexivity;
    (destruct (Dict.get "devDependencies" pkg) as [[| | | | |d2]|];
     try reflexivity);
    cbn [json_mapping]; rewrite dict_mem_merge;
    (match goal with
     | |- context [Dict.mem "lodash" ?a || Dict.mem "lodash" ?b] =>
         destruct (Dict.mem "lodash" a || Dict.mem "lodash" b)
     end; [|reflexivity]);
    unfold append_finding, bind, _generate_finding_id, ret, bump;
    simpl; unfold finding_id, lodash_finding; now rewrite Nat.add_1_r.
Qed.

(** X15. When [requirements.txt] is missing or can be read and
    [package.json] parses to an object, [scan_dependencies] returns the
    findings of [requirements.txt] and after them the lodash finding
    exactly when [lodash] is a key of [dependencies] or of
    [devDependencies], whatever the version. A section that is missing
    counts as empty; when one of the two is not an object, the lodash
    finding is left out and no error leaves the function. *)
Theorem lodash_reported_iff_declared rt tree text pkg self :
  (forall e, requirements_txt tree <> Some (Raise e)) ->
  package_json tree = Some (Ok text) ->
  json_loads rt text = Ok (JDict pkg) ->
  exists req self',
    scan_dependencies rt tree self
    = (Ok (req ++ if declares_lodash pkg
                  then [lodash_finding
                          (finding_id (S (finding_counter self
                                          + List.length req)))]
                  else []),
       self')
    /\ Forall (at_line_1_of "requirements.txt") req
    /\ ((exists fid,
           In (lodash_finding fid)
              (req ++ if declares_lodash pkg
                      then [lodash_finding
                              (finding_id (S (finding_counter self
                                              + List.length req)))]
                      else []))
        <-> declares_lodash pkg = true).
Proof.
  intros Hreq Hpkg Hjson.
  assert (H : exists req,
            scan_requirements tree self
            = (Ok req, bump (List.length req) self)
            /\ Forall (at_line_1_of "requirements.txt") req).
  { destruct (requirements_txt tree) as [[content|e]|] eqn:E.
    - exists (assign_ids (finding_counter self) (requirement_hits content)).
      rewrite (scan_requirements_hits tree content self E).
      rewrite assign_ids_length. split; [reflexivity|].
      apply requirement_hits_shape.
    - now destruct (Hreq e).
    - exists []. unfold scan_requirements. rewrite E. unfold ret.
      rewrite bump_0. split; [reflexivity | constructor]. }
  destruct H as (req & Ereq & Hshape).
  exists req.
  exists (if declares_lodash pkg
          then bump 1 (bump (List.length req) self)
          else bump (List.length req) self).
  split; [|split; [exact Hshape|]].
  - unfold scan_dependencies, bind. rewrite Ereq.
    rewrite (scan_package_json_declared rt tree text pkg req _ Hpkg Hjson).
    destruct (declares_lodash pkg); [reflexivity|].
    now rewrite app_nil_r.
  - destruct (declares_lodash pkg).
    + split; [reflexivity|]. intros _. eexists. apply in_or_app. right.
      left. reflexivity.
    + split; [|discriminate]. intros (fid & Hin).
      rewrite app_nil_r in Hin. rewrite Forall_forall in Hshape.
      destruct (Hshape _ Hin) as (Hpath & _). discriminate Hpath.
Qed.

(* ------------------------------------------------------------------ *)
(** ** The arguments of [main] *)

Lemma index_first x l :
  In x l ->
  exists before after,
    l = before ++ x :: after /\ ~ In x before
    /\ Str.index x l = List.length before.
Proof.
  induction l as [|y l IH]; intros Hin; [destruct Hin|].
  simpl. destruct (String.eqb_spec y x) as [-> | Hne].
  - exists [], l. auto.
  - destruct Hin as [-> | Hin]; [congruence|].
    destruct (IH Hin) as (before & after & -> & Hnot & Hidx).
    exists (y :: before), after. simpl. rewrite Hidx.
    repeat split; auto. intros [E | E]; auto.
Qed.

Lemma index_app x before after :
  ~ In x before -> Str.index x (before ++ x :: after) = List.length before.
Proof.
  induction before as [|y before IH]; intros Hnot; simpl.
  - now rewrite String.eqb_refl.
  - destruct (String.eqb_spec y x) as [-> | Hne].
    + destruct Hnot. now left.
    + rewrite IH; [reflexivity|]. intros H. apply Hnot. now right.
Qed.

Lemma existsb_eqb_In x l : existsb (String.eqb x) l = true <-> In x l.
Proof.
  rewrite existsb_exists. split.
  - intros (y & Hin & E). apply String.eqb_eq in E. now subst.
  - intros Hin. exists x. split; [exact Hin | apply String.eqb_refl].
Qed.

(** X16. Of its arguments [main] takes the one after the program name as
    the project path, whatever it is; [--json] counts wherever it stands;
    and the output file is the argument that follows the first [--output],
    so an [--output] that comes last names no file and is ignored. *)
Theorem main_arguments_read argv project_path output_json output_file :
  main_arguments argv = Some (project_path, output_json, output_file) ->
  2 <= List.length argv
  /\ project_path = nth 1 argv EmptyString
  /\ (output_json = true <-> In "--json" argv)
  /\ forall file,
       output_file = Some file <->
       exists before after,
         argv = before ++ "--output" :: file :: after
         /\ ~ In "--output" before.
Proof.
  unfold main_arguments.
  destruct (Nat.ltb_spec (List.length argv) 2); [discriminate|].
  cbv zeta. intros H0.
  assert (Hp : nth 1 argv EmptyString = project_path) by congruence.
  assert (Hj : existsb (String.eqb "--json") argv = output_json)
    by congruence.
  assert (Ho : (if existsb (String.eqb "--output") argv
                then if Str.index "--output" argv + 1 <? List.length argv
                     then Some (nth (Str.index "--output" argv + 1) argv
                                    EmptyString)
                     else None
                else None) = output_file) by congruence.
  clear H0. subst project_path output_json output_file.
  split; [lia|]. split; [reflexivity|].
  split; [apply existsb_eqb_In|].
  intros file. split.
  - destruct (existsb (String.eqb "--output") argv) eqn:E; [|discriminate].
    apply existsb_eqb_In in E.
    destruct (index_first _ _ E) as (before & after & Hargv & Hnot & Hidx).
    rewrite Hidx.
    destruct (Nat.ltb_spec (List.length before + 1) (List.length argv));
      [|discriminate].
    intros [= <-]. subst argv.
    destruct after as [|a after].
    + rewrite length_app in *. simpl in *. lia.
    + exists before, after. split; [|exact Hnot].
      rewrite app_nth2 by lia.
      replace (List.length before + 1 - List.length before) with 1 by lia.
      reflexivity.
  - intros (before & after & -> & Hnot).
    assert (E : existsb (String.eqb "--output")
                  (before ++ "--output" :: file :: after) = true).
    { apply existsb_eqb_In, in_or_app. right. now left. }
    rewrite E, index_app by exact Hnot.
    destruct (Nat.ltb_spec (List.length before + 1)
                (List.length (before ++ "--output" :: file :: after)))
      as [_ | Hge].
    + rewrite app_nth2 by lia.
      replace (List.length before + 1 - List.length before) with 1 by lia.
      reflexivity.
    + rewrite length_app in Hge. simpl in Hge. lia.
Qed.

(* ------------------------------------------------------------------ *)
(** ** The further statements on sample inputs *)

(** [scan_counts_files_read]: the file whose scan fails is counted; the
    files under [node_modules], [.venv], [target] and [.tox] and the
    unreadable file are not. *)
Lemma scan_counts_files_read_witness :
  exists r after,
    scan Sample.runtime Example.tree_counts 0%Z 5%Z Sample.auditor
    = (Ok r, after)
    /\ AuditReport.files_scanned r = 2
    /\ AuditReport.lines_scanned r = 2
    /\ List.length (AuditReport.findings r) = 1.
Proof.
  assert (E : exists r after,
            scan Sample.runtime Example.tree_counts 0%Z 5%Z Sample.auditor
            = (Ok r, after)
            /\ List.length (AuditReport.findings r) = 1)
    by (vm_compute; eauto).
  destruct E as (r & after & E & Hlen). exists r, after.
  destruct (scan_counts_files_read _ _ _ _ _ _ _ E) as (Hfiles & Hlines).
  split; [exact E|]. split; [rewrite Hfiles; vm_compute; reflexivity|].
  split; [rewrite Hlines; vm_compute; reflexivity | exact Hlen].
Defined.

(** [scan_keeps_earlier_findings] on the second scan of one auditor. *)
Lemma scan_keeps_earlier_findings_witness :
  exists r after,
    scan Sample.runtime Sample.tree_two_languages 6%Z 9%Z Example.scanned_once
    = (Ok r, after)
    /\ findings Example.scanned_once <> []
    /\ forall f, In f (findings Example.scanned_once) ->
                 In f (AuditReport.findings r).
Proof.
  assert (E : exists r after,
            scan Sample.runtime Sample.tree_two_languages 6%Z 9%Z
              Example.scanned_once = (Ok r, after))
    by (vm_compute; eauto).
  destruct E as (r & after & E). exists r, after.
  split; [exact E|]. split; [vm_compute; discriminate|].
  destruct (scan_keeps_earlier_findings _ _ _ _ _ _ _ E)
    as (added & _ & _ & Hkept).
  exact Hkept.
Defined.

(** [scan_findings_have_origin] on a tree with findings of every kind. *)
Lemma scan_findings_have_origin_witness :
  exists r after,
    scan Sample.runtime Sample.tree_mixed 0%Z 5%Z Sample.auditor
    = (Ok r, after)
    /\ Forall (fun f => from_file Sample.runtime _load_security_patterns
                          ["project"] Sample.tree_mixed f
                        \/ from_manifest Sample.tree_mixed f)
              (AuditReport.findings r).
Proof.
  assert (E : exists r after,
            scan Sample.runtime Sample.tree_mixed 0%Z 5%Z Sample.auditor
            = (Ok r, after)) by (vm_compute; eauto).
  destruct E as (r & after & E). exists r, after. split; [exact E|].
  exact (scan_findings_have_origin _ _ _ _ Sample.auditor _ _ eq_refl E).
Defined.

(** [textual_finding_matches_its_rule] on three lines. *)
Lemma textual_finding_matches_its_rule_witness :
  exists out after,
    scan_patterns Sample.runtime Sample.lines_two_matches "x.js"
      Sample.auditor = (Ok out, after)
    /\ out <> []
    /\ forall f, In f out ->
         exists rule_,
           In rule_ (all_rules _load_security_patterns)
           /\ line_matches Sample.runtime rule_
                (nth (Finding.line_number f - 1) Sample.lines_two_matches
                     EmptyString) = true
           /\ Finding.severity f = PatternDef.severity rule_.
Proof.
  assert (E : exists out after,
            scan_patterns Sample.runtime Sample.lines_two_matches "x.js"
              Sample.auditor = (Ok out, after)
            /\ out <> [])
    by (vm_compute; eexists _, _; split; [reflexivity | discriminate]).
  destruct E as (out & after & E & Hne). exists out, after.
  split; [exact E|]. split; [exact Hne|].
  intros f Hin.
  destruct (textual_finding_matches_its_rule _ _ _ _ _ _ E f Hin)
    as (category & rules & rule_ & Hcat & Hrule & _ & Hm & _ & _ & _ & Hsev & _).
  exists rule_. split; [|split; [exact Hm | exact Hsev]].
  unfold all_rules. apply in_flat_map. exists (category, rules).
  split; [exact Hcat | exact Hrule].
Defined.

(** [scan_categories_closed] on the same tree. *)
Lemma scan_categories_closed_witness :
  exists r after,
    scan Sample.runtime Sample.tree_mixed 0%Z 5%Z (__init__ ["project"])
    = (Ok r, after)
    /\ Forall (fun f => In (Finding.category f) known_categories)
              (AuditReport.findings r).
Proof.
  assert (E : exists r after,
            scan Sample.runtime Sample.tree_mixed 0%Z 5%Z
              (__init__ ["project"]) = (Ok r, after))
    by (vm_compute; eauto).
  destruct E as (r & after & E). exists r, after. split; [exact E|].
  exact (scan_categories_closed _ _ _ _ _ _ _ E).
Defined.

(** [structural_findings_cover_tree] on a source with an import of pickle,
    an assertion and a bare handler nested in a [try]. *)
Lemma structural_findings_cover_tree_witness :
  exists tree out after,
    ast_parse Sample.runtime Sample.src_assert_pickle = Ok tree
    /\ _analyze_python_ast Sample.runtime
         (Sample.file "x.py" Sample.src_assert_pickle)
         Sample.src_assert_pickle "x.py" Sample.auditor = (Ok out, after)
    /\ List.length out = 3
    /\ Permutation (map title_and_line out)
                   (flat_map node_report (nodes tree)).
Proof.
  assert (E : exists tree out after,
            ast_parse Sample.runtime Sample.src_assert_pickle = Ok tree
            /\ _analyze_python_ast Sample.runtime
                 (Sample.file "x.py" Sample.src_assert_pickle)
                 Sample.src_assert_pickle "x.py" Sample.auditor
               = (Ok out, after)
            /\ List.length out = 3)
    by (vm_compute; eexists _, _, _; repeat split).
  destruct E as (tree & out & after & Hparse & E & Hlen).
  exists tree, out, after.
  split; [exact Hparse|]. split; [exact E|]. split; [exact Hlen|].
  exact (proj1 (structural_findings_cover_tree _ _ _ _ _ _ _ _ Hparse E)).
Defined.

(** [markdown_raises_iff_cwe_without_hyphen] on a report with the CWE id
    [CWE798]. *)
Lemma markdown_raises_witness :
  generate_report_markdown Sample.sample_isoformat
    Example.report_cwe_without_hyphen = IndexError.
Proof.
  apply markdown_raises_iff_cwe_without_hyphen.
  eexists. split; [left; reflexivity|].
  exists "CWE798". repeat split. discriminate.
Defined.

(** [scan_report_renders] and [scan_report_one_heading_per_severity] on
    the report of the tree with findings of every severity. *)
Lemma scan_report_renders_witness :
  exists r after md,
    scan Sample.runtime Sample.tree_mixed 0%Z 5%Z (__init__ ["project"])
    = (Ok r, after)
    /\ generate_report_markdown Sample.sample_isoformat r = Document md.
Proof.
  assert (E : exists r after,
            scan Sample.runtime Sample.tree_mixed 0%Z 5%Z
              (__init__ ["project"]) = (Ok r, after))
    by (vm_compute; eauto).
  destruct E as (r & after & E).
  destruct (scan_report_renders _ _ _ _ _ _ _ Sample.sample_isoformat E)
    as (md & Hmd).
  exists r, after, md. split; [exact E | exact Hmd].
Defined.

Lemma scan_report_one_heading_per_severity_witness :
  exists r after,
    scan Sample.runtime Sample.tree_mixed 0%Z 5%Z Sample.auditor
    = (Ok r, after)
    /\ pieces None (AuditReport.findings r)
       = by_severity (AuditReport.findings r)
    /\ List.length (filter (fun p => match p with
                                     | Heading _ => true
                                     | Entry _ => false
                                     end)
                           (pieces None (AuditReport.findings r))) = 5.
Proof.
  assert (E : exists r after,
            scan Sample.runtime Sample.tree_mixed 0%Z 5%Z Sample.auditor
            = (Ok r, after)
            /\ List.length (filter (fun p => match p with
                                             | Heading _ => true
                                             | Entry _ => false
                                             end)
                                   (pieces None (AuditReport.findings r))) = 5)
    by (vm_compute; eauto).
  destruct E as (r & after & E & Hfive). exists r, after.
  split; [exact E|]. split; [|exact Hfive].
  exact (scan_report_one_heading_per_severity _ _ _ _ _ _ _ E).
Defined.

(** [exit_status_bounds_risk_score] on a report with a HIGH and a CRITICAL
    finding. *)
Lemma exit_status_bounds_risk_score_witness :
  25 <= AuditReport.risk_score (Sample.report_of [HIGH; CRITICAL])
  /\ 15 <= AuditReport.risk_score (Sample.report_of [LOW; HIGH]).
Proof.
  split.
  - apply (exit_status_bounds_risk_score (Sample.report_of [HIGH; CRITICAL])).
    reflexivity.
  - apply (exit_status_bounds_risk_score (Sample.report_of [LOW; HIGH])).
    reflexivity.
Defined.

(** [generated_ids_differ] on the counter values 0 and 12. *)
Lemma generated_ids_differ_witness :
  exists fid fid',
    _generate_finding_id Sample.auditor = (Ok fid, bump 1 Sample.auditor)
    /\ _generate_finding_id (bump 12 Sample.auditor)
       = (Ok fid', bump 1 (bump 12 Sample.auditor))
    /\ fid <> fid'.
Proof.
  apply generated_ids_differ. vm_compute. discriminate.
Defined.

(** [lodash_reported_iff_declared] on manifests that name Django and
    Flask and declare lodash. *)
Lemma lodash_reported_iff_declared_witness :
  exists req after,
    scan_dependencies Sample.runtime Sample.tree_mixed Sample.auditor
    = (Ok (req ++ [lodash_finding (finding_id (S (List.length req)))]), after)
    /\ Forall (at_line_1_of "requirements.txt") req.
Proof.
  destruct (lodash_reported_iff_declared Sample.runtime Sample.tree_mixed
              Sample.json_lodash
              [("dependencies", JDict [("lodash", JStr "4.17.0")])]
              Sample.auditor)
    as (req & after & E & Hshape & _).
  - intros e. discriminate.
  - reflexivity.
  - reflexivity.
  - exists req, after. split; [exact E | exact Hshape].
Defined.

(** [main_arguments_read]: the file after the first [--output] is taken,
    and an [--output] in last place names none. *)
Lemma main_arguments_read_witness :
  main_arguments Example.argv_output_file
  = Some ("project", false, Some "report.md")
  /\ (exists before after,
        Example.argv_output_file
        = before ++ "--output" :: "report.md" :: after
        /\ ~ In "--output" before)
  /\ main_arguments Example.argv_output_last = Some ("project", true, None)
  /\ ~ (exists file before after,
          Example.argv_output_last = before ++ "--output" :: file :: after
          /\ ~ In "--output" before).
Proof.
  split; [reflexivity|]. split.
  - apply (main_arguments_read Example.argv_output_file "project" false
             (Some "report.md") eq_refl).
    reflexivity.
  - split; [reflexivity|].
    intros (file & Hsplit).
    apply (main_arguments_read Example.argv_output_last "project" true None
             eq_refl) in Hsplit.
    discriminate.
Defined.

(* ------------------------------------------------------------------ *)
(** ** The structured output loses nothing *)

Lemma Severity_value_inj a b :
  Severity_value a = Severity_value b -> a = b.
Proof. destruct a, b; simpl; intros H; (reflexivity || discriminate H). Qed.

Lemma json_of_optional_inj a b :
  json_of_optional a = json_of_optional b -> a = b.
Proof.
  destruct a, b; simpl; intros H;
    (congruence || discriminate H || reflexivity).
Qed.

Lemma finding_to_dict_inj f g :
  Finding.to_dict f = Finding.to_dict g -> f = g.
Proof.
  destruct f, g. unfold Finding.to_dict. cbn [Finding.id Finding.title
    Finding.severity Finding.category Finding.file_path Finding.line_number
    Finding.code_snippet Finding.description Finding.recommendation
    Finding.cwe_id Finding.owasp_category].
  intros H.
  injection H as Hid Htitle Hsev Hcat Hfile Hline Hsnip Hdesc Hrec Hcwe Howasp.
  apply Severity_value_inj in Hsev.
  apply json_of_optional_inj in Hcwe. apply json_of_optional_inj in Howasp.
  apply Nat2Z.inj in Hline.
  subst. reflexivity.
Qed.

Lemma map_finding_to_dict_inj l l' :
  map Finding.to_dict l = map Finding.to_dict l' -> l = l'.
Proof.
  revert l'. induction l as [|f l IH]; intros [|g l'] H;
    try reflexivity; try discriminate H.
  cbn [map] in H.
  assert (Hf : Finding.to_dict f = Finding.to_dict g) by congruence.
  assert (Hl : map Finding.to_dict l = map Finding.to_dict l') by congruence.
  apply finding_to_dict_inj in Hf. apply IH in Hl. now subst.
Qed.

(** X17. The structured output loses nothing of the findings: two reports
    with different lists of findings give different dictionaries, so every
    field of every finding, its severity and whether a reference is absent
    can be read back from [to_dict]. *)
Theorem report_dict_determines_findings rt report report' :
  AuditReport.findings report <> AuditReport.findings report' ->
  AuditReport.to_dict rt report <> AuditReport.to_dict rt report'.
Proof.
  intros Hne H. apply Hne. unfold AuditReport.to_dict in H.
  injection H as _ _ _ _ _ _ _ _ _ _ _ _ Hfindings.
  exact (map_finding_to_dict_inj _ _ Hfindings).
Qed.

(** [report_dict_determines_findings] on two reports that differ in the
    severity of one finding. *)
Lemma report_dict_determines_findings_witness :
  AuditReport.to_dict Sample.runtime (Sample.report_of [HIGH; LOW])
  <> AuditReport.to_dict Sample.runtime (Sample.report_of [HIGH; MEDIUM]).
Proof.
  apply report_dict_determines_findings. discriminate.
Defined.

(* ------------------------------------------------------------------ *)
(** ** Scans of one tree in two processes *)

Lemma forallb_false_In A (f : A -> bool) l :
  forallb f l = false -> exists x, In x l /\ f x = false.
Proof.
  induction l as [|x l IH]; simpl; [discriminate|].
  destruct (f x) eqn:E; simpl.
  - intros H. destruct (IH H) as (y & Hin & Hy). eauto.
  - intros _. eauto.
Qed.

Lemma all_compile_false_broken rt reg :
  all_compile rt reg = false -> has_broken_rule rt reg.
Proof.
  unfold all_compile. intros H.
  apply forallb_false_In in H. destruct H as (rule_ & Hin & Hre).
  unfold all_rules in Hin. apply in_flat_map in Hin.
  destruct Hin as ([category rules] & Hcat & Hrule).
  destruct (re_compile rt (PatternDef.pattern rule_)) as [regex|e] eqn:E;
    [discriminate|].
  exists category, rules, rule_, e. auto.
Qed.

Lemma analyze_python_ast_parses rt file_path content rel_path self :
  parses rt content = true ->
  exists out, fst (_analyze_python_ast rt file_path content rel_path self)
              = Ok out.
Proof.
  unfold parses, _analyze_python_ast.
  destruct (ast_parse rt content) as [tree|e].
  - intros _. apply returns_for_each. intros node acc _.
    destruct (kind_of node) as [lineno|[|] lineno|names lineno|];
      try apply returns_append; try apply returns_ret.
    apply returns_for_each. intros alias acc1 _.
    destruct (String.eqb alias "pickle");
      [apply returns_append | apply returns_ret].
  - destruct e; try discriminate. intros _. simpl. eauto.
Qed.

Lemma analyze_python_ast_raises rt file_path content rel_path self :
  parses rt content = false ->
  exists e, fst (_analyze_python_ast rt file_path content rel_path self)
            = Raise e.
Proof.
  unfold parses, _analyze_python_ast.
  destruct (ast_parse rt content) as [tree|e]; [discriminate|].
  destruct e; try discriminate; intros _; simpl; eauto.
Qed.

Lemma scan_file_when_returns rt e self :
  file_scan_returns rt (patterns self) e = true ->
  exists out, fst (scan_file rt e self) = Ok out.
Proof.
  unfold file_scan_returns, scan_file.
  destruct (read_text_ignore e) as [content|err]; [|simpl; eauto].
  intros H. apply andb_prop in H. destruct H as (Hreg & Hparse).
  apply all_compile_registry_compiles in Hreg.
  unfold bind at 1.
  rewrite (scan_patterns_hits rt _ _ self Hreg).
  destruct (String.eqb _ ".py"); [|simpl; eauto].
  unfold bind.
  destruct (analyze_python_ast_parses rt e content (path_str (rel_parts e))
              (bump (List.length
                       (textual_hits rt (patterns self)
                          (path_str (rel_parts e)) (Text.splitlines content)))
                    self) Hparse) as (out & E).
  destruct (_analyze_python_ast rt e content (path_str (rel_parts e)) _)
    as [[out'|err] s2]; simpl in E; [|discriminate].
  simpl. eauto.
Qed.

Lemma scan_file_when_raises rt e self :
  file_scan_returns rt (patterns self) e = false ->
  exists x, fst (scan_file rt e self) = Raise x.
Proof.
  unfold file_scan_returns.
  destruct (read_text_ignore e) as [content|err] eqn:Hread; [|discriminate].
  destruct (all_compile rt (patterns self)) eqn:Hreg.
  - cbn [andb]. intros Hparse. unfold scan_file. rewrite Hread.
    apply all_compile_registry_compiles in Hreg.
    unfold bind at 1.
    rewrite (scan_patterns_hits rt _ _ self Hreg).
    destruct (String.eqb _ ".py"); [|discriminate].
    unfold bind.
    destruct (analyze_python_ast_raises rt e content (path_str (rel_parts e))
                (bump (List.length
                         (textual_hits rt (patterns self)
                            (path_str (rel_parts e))
                            (Text.splitlines content)))
                      self) Hparse) as (x & E).
    destruct (_analyze_python_ast rt e content (path_str (rel_parts e)) _)
      as [[out'|err] s2]; simpl in E; [discriminate|].
    simpl. eauto.
  - intros _. apply all_compile_false_broken in Hreg.
    exact (scan_file_raises rt e content self Hread Hreg).
Qed.

Lemma map_anonymous_assign_ids c hits :
  map anonymous (assign_ids c hits) = map anonymous hits.
Proof. apply map_assign_ids. reflexivity. Qed.

(** One turn of the loop over the files adds what it keeps of the file. *)
Lemma file_turn rt e (c : nat * nat) self :
  exists self',
    try_except (ff <- scan_file rt e ;; _ <- extend_findings ff ;; ret c)
               (ret c) self
    = (Ok c, self')
    /\ patterns self' = patterns self
    /\ project_path self' = project_path self
    /\ map anonymous (findings self')
       = map anonymous (findings self)
         ++ map anonymous (kept_hits rt (patterns self) e).
Proof.
  pose proof (@extend_after_emits _ (scan_file rt e) c self
                (emits_scan_file rt e)) as H.
  unfold try_except, kept_hits.
  destruct ((ff <- scan_file rt e ;; _ <- extend_findings ff ;; ret c) self)
    as [[c'|err] s1].
  - destruct H as (-> & new & Hok & -> & _).
    exists (with_new self new). split; [reflexivity|]. simpl.
    split; [reflexivity|]. split; [reflexivity|].
    destruct (file_scan_returns rt (patterns self) e) eqn:Hret.
    + destruct (scan_file rt e self) as [[out|x] s2] eqn:E; simpl in Hok;
        [|discriminate].
      injection Hok as ->.
      apply scan_file_hits in E. destruct E as (-> & _).
      now rewrite map_app, map_anonymous_assign_ids.
    + destruct (scan_file_when_raises rt e self Hret) as (x & Hx).
      congruence.
  - destruct H as (Hraise & k & ->).
    exists (bump k self). split; [reflexivity|]. simpl.
    split; [reflexivity|]. split; [reflexivity|].
    destruct (file_scan_returns rt (patterns self) e) eqn:Hret.
    + destruct (scan_file_when_returns rt e self Hret) as (out & Hout).
      congruence.
    + simpl. now rewrite app_nil_r.
Qed.

Lemma scan_one_findings rt path l :
  forall (c : nat * nat) self,
  exists c' self',
    for_each l (scan_one rt path) c self = (Ok c', self')
    /\ patterns self' = patterns self
    /\ project_path self' = project_path self
    /\ map anonymous (findings self')
       = map anonymous (findings self)
         ++ map anonymous
              (flat_map (kept_hits rt (patterns self))
                        (filter (eligible path) l)).
Proof.
  induction l as [|e l IH]; intros [files lines] self.
  - exists (files, lines), self. simpl. now rewrite app_nil_r.
  - cbn [for_each]. unfold bind at 1, scan_one at 1.
    assert (Hel : eligible path e
                  = negb (in_skipped_directory (path ++ rel_parts e))
                    && match read_text_ignore e with
                       | Ok _ => true
                       | Raise _ => false
                       end) by reflexivity.
    cbn [filter].
    destruct (in_skipped_directory (path ++ rel_parts e)).
    + rewrite Hel. cbn [negb andb]. unfold ret at 1. apply IH.
    + destruct (read_text_ignore e) as [content|err] eqn:Hread;
        rewrite Hel; cbn [negb andb].
      * destruct (file_turn rt e
                    (files + 1, lines + List.length (Text.splitlines content))
                    self) as (s1 & E & Hpat & Hpath & Hfind).
        cbv zeta. rewrite E.
        destruct (IH (files + 1, lines + List.length (Text.splitlines content))
                    s1) as (c' & s2 & E2 & Hpat2 & Hpath2 & Hfind2).
        exists c', s2. split; [exact E2|].
        split; [congruence|]. split; [congruence|].
        rewrite Hfind2, Hfind, Hpat. cbn [flat_map].
        now rewrite map_app, app_assoc.
      * unfold ret at 1. apply IH.
Qed.

Lemma scan_extensions_findings rt path tree exts :
  forall (c : nat * nat) self,
  exists c' self',
    for_each exts
      (fun ext counters =>
         for_each (rglob tree ext) (scan_one rt path) counters)
      c self
    = (Ok c', self')
    /\ patterns self' = patterns self
    /\ project_path self' = project_path self
    /\ map anonymous (findings self')
       = map anonymous (findings self)
         ++ map anonymous
              (flat_map (kept_hits rt (patterns self))
                 (flat_map (fun ext => filter (eligible path) (rglob tree ext))
                           exts)).
Proof.
  induction exts as [|ext exts IH]; intros c self.
  - exists c, self. simpl. now rewrite app_nil_r.
  - cbn [for_each flat_map]. unfold bind at 1.
    destruct (scan_one_findings rt path (rglob tree ext) c self)
      as (c1 & s1 & E1 & Hpat1 & Hpath1 & Hfind1).
    rewrite E1.
    destruct (IH c1 s1) as (c2 & s2 & E2 & Hpat2 & Hpath2 & Hfind2).
    exists c2, s2. split; [exact E2|].
    split; [congruence|]. split; [congruence|].
    rewrite Hfind2, Hfind1, Hpat1, flat_map_app, map_app.
    now rewrite app_assoc.
Qed.

(** The loop over the files, as lists: the counters are those of the files
    it reads, and the findings it adds are what it keeps of each of them,
    in the order it reads them. *)
Lemma scan_files_list rt tree self :
  exists self',
    scan_files rt tree self
    = (Ok (List.length (eligible_files rt (project_path self) tree),
           list_sum (map line_count
                         (eligible_files rt (project_path self) tree))),
       self')
    /\ patterns self' = patterns self
    /\ project_path self' = project_path self
    /\ map anonymous (findings self')
       = map anonymous (findings self)
         ++ map anonymous
              (flat_map (kept_hits rt (patterns self))
                        (eligible_files rt (project_path self) tree)).
Proof.
  destruct (scan_files_run rt tree self (fun _ => True)) as (s1 & E & _);
    [|exact I|].
  { intros e _ c s _.
    destruct (@file_step _ (scan_file rt e) c s (emits_scan_file rt e))
      as (s' & E & _).
    eauto. }
  destruct (scan_extensions_findings rt (project_path self) tree
              (set_iter rt extensions) (0, 0) self)
    as (c' & s2 & E2 & Hpat & Hpath & Hfind).
  rewrite <- scan_files_unfold in E2. rewrite E in E2.
  injection E2 as _ <-.
  exists s1. auto.
Qed.

Lemma scan_package_json_list rt tree acc self :
  scan_package_json rt tree acc self
  = (Ok (acc ++ assign_ids (finding_counter self) (lodash_hits rt tree)),
     bump (List.length (lodash_hits rt tree)) self).
Proof.
  unfold lodash_hits.
  destruct (package_json tree) as [[text|e]|] eqn:Hpkg.
  - destruct (json_loads rt text) as [pkg_data|e] eqn:Hjson.
    + destruct pkg_data as [| | | | |pkg];
        try (unfold scan_package_json; rewrite Hpkg;
             unfold try_except, bind, lift; rewrite Hjson;
             simpl; now rewrite app_nil_r, bump_0).
      rewrite (scan_package_json_declared rt tree text pkg acc self Hpkg Hjson).
      destruct (declares_lodash pkg); [reflexivity|].
      simpl. now rewrite app_nil_r, bump_0.
    + rewrite (scan_package_json_skips rt tree acc self).
      * simpl. now rewrite app_nil_r, bump_0.
      * right. eauto.
  - unfold scan_package_json. rewrite Hpkg. unfold try_except, bind, lift.
    simpl. now rewrite app_nil_r, bump_0.
  - rewrite (scan_package_json_skips rt tree acc self (or_introl Hpkg)).
    simpl. now rewrite app_nil_r, bump_0.
Qed.

(** The dependency scanner, as a list, when [requirements.txt] is missing
    or can be read. *)
Lemma scan_dependencies_list rt tree self :
  (forall e, requirements_txt tree <> Some (Raise e)) ->
  scan_dependencies rt tree self
  = (Ok (assign_ids (finding_counter self) (dependency_hits rt tree)),
     bump (List.length (dependency_hits rt tree)) self).
Proof.
  intros Hreq. unfold scan_dependencies, bind, dependency_hits.
  destruct (requirements_txt tree) as [[content|e]|] eqn:E.
  - rewrite (scan_requirements_hits tree content self E).
    rewrite scan_package_json_list.
    rewrite assign_ids_app, length_app, bump_bump. reflexivity.
  - now destruct (Hreq e).
  - unfold scan_requirements. rewrite E. unfold ret.
    rewrite scan_package_json_list. reflexivity.
Qed.

Lemma scan_dependencies_unreadable rt tree self e :
  requirements_txt tree = Some (Raise e) ->
  scan_dependencies rt tree self = (Raise e, self).
Proof.
  intros Hreq. unfold scan_dependencies, scan_requirements, bind.
  rewrite Hreq. reflexivity.
Qed.

(** [scan] up to the sort, as lists. *)
Lemma scan_collect_list rt tree self :
  (forall e, requirements_txt tree <> Some (Raise e)) ->
  exists collected,
    scan_collect rt tree self
    = (Ok (List.length (eligible_files rt (project_path self) tree),
           list_sum (map line_count
                         (eligible_files rt (project_path self) tree))),
       collected)
    /\ project_path collected = project_path self
    /\ map anonymous (findings collected)
       = map anonymous (findings self)
         ++ map anonymous
              (collected_hits rt (patterns self) (project_path self) tree).
Proof.
  intros Hreq. unfold scan_collect, bind at 1.
  destruct (scan_files_list rt tree self) as (s1 & E & Hpat & Hpath & Hfind).
  rewrite E. unfold bind at 1.
  rewrite (scan_dependencies_list rt tree s1 Hreq).
  unfold bind, extend_findings, ret. eexists. split; [reflexivity|].
  cbn [project_path findings bump]. split; [exact Hpath|].
  rewrite map_app, Hfind, map_anonymous_assign_ids.
  unfold collected_hits. now rewrite map_app, app_assoc.
Qed.

Lemma scan_collect_unreadable rt tree self e :
  requirements_txt tree = Some (Raise e) ->
  exists self', scan_collect rt tree self = (Raise e, self').
Proof.
  intros Hreq. unfold scan_collect, bind at 1.
  destruct (scan_files_list rt tree self) as (s1 & E & _).
  rewrite E. unfold bind at 1.
  rewrite (scan_dependencies_unreadable rt tree s1 e Hreq). eauto.
Qed.

(** [scan], as lists, when [requirements.txt] is missing or can be read. *)
Lemma scan_list rt tree start_time end_time self :
  (forall e, requirements_txt tree <> Some (Raise e)) ->
  exists collected after,
    scan_collect rt tree self
    = (Ok (List.length (eligible_files rt (project_path self) tree),
           list_sum (map line_count
                         (eligible_files rt (project_path self) tree))),
       collected)
    /\ scan rt tree start_time end_time self
       = (Ok (AuditReport.mk (path_str (project_path self)) start_time
                (elapsed_ms rt start_time end_time)
                (List.length (eligible_files rt (project_path self) tree))
                (list_sum (map line_count
                               (eligible_files rt (project_path self) tree)))
                (sort_by_key rank (findings collected))),
          after)
    /\ map anonymous (findings collected)
       = map anonymous (findings self)
         ++ map anonymous
              (collected_hits rt (patterns self) (project_path self) tree).
Proof.
  intros Hreq.
  destruct (scan_collect_list rt tree self Hreq)
    as (collected & E & Hpath & Hfind).
  exists collected. eexists. split; [exact E|]. split; [|exact Hfind].
  unfold scan, bind at 1. rewrite E.
  unfold bind, sort_findings, get, ret. cbn [findings project_path].
  rewrite Hpath. reflexivity.
Qed.

Lemma scan_ok_requirements rt tree start_time end_time self r after :
  scan rt tree start_time end_time self = (Ok r, after) ->
  forall e, requirements_txt tree <> Some (Raise e).
Proof.
  intros H e Hreq.
  destruct (scan_collect_unreadable rt tree self e Hreq) as (s1 & E).
  unfold scan, bind at 1 in H. rewrite E in H. discriminate H.
Qed.

Lemma kept_hits_same_library rt rt' reg e :
  same_library rt rt' -> kept_hits rt reg e = kept_hits rt' reg e.
Proof.
  destruct rt, rt'. unfold same_library. cbn [re_compile ast_parse json_loads].
  intros (-> & -> & _). reflexivity.
Qed.

Lemma dependency_hits_same_library rt rt' tree :
  same_library rt rt' -> dependency_hits rt tree = dependency_hits rt' tree.
Proof.
  destruct rt, rt'. unfold same_library. cbn [re_compile ast_parse json_loads].
  intros (_ & _ & ->). reflexivity.
Qed.

Lemma eligible_files_perm rt rt' path tree :
  Permutation (set_iter rt extensions) (set_iter rt' extensions) ->
  Permutation (eligible_files rt path tree) (eligible_files rt' path tree).
Proof.
  intros Hperm. unfold eligible_files. now apply Permutation_flat_map.
Qed.

(** In another order of the extensions a scan collects the same findings,
    in another order. *)
Lemma collected_hits_perm rt rt' reg path tree :
  same_library rt rt' ->
  Permutation (set_iter rt extensions) (set_iter rt' extensions) ->
  Permutation (collected_hits rt reg path tree)
              (collected_hits rt' reg path tree).
Proof.
  intros Hlib Hperm. unfold collected_hits.
  rewrite (dependency_hits_same_library rt rt' tree Hlib).
  apply Permutation_app_tail.
  rewrite (flat_map_ext (kept_hits rt reg) (kept_hits rt' reg)
             (fun e => kept_hits_same_library rt rt' reg e Hlib)).
  apply Permutation_flat_map. now apply eligible_files_perm.
Qed.

Lemma scan_collect_same_order rt rt' tree self :
  same_library rt rt' ->
  set_iter rt extensions = set_iter rt' extensions ->
  scan_collect rt tree self = scan_collect rt' tree self.
Proof.
  destruct rt, rt'. unfold same_library.
  cbn [re_compile ast_parse json_loads set_iter].
  intros (-> & -> & ->) Hset.
  unfold scan_collect, bind.
  rewrite !scan_files_unfold. cbn [set_iter]. rewrite Hset. reflexivity.
Qed.

(** Two lists in the order of their keys with the same keys, in whatever
    order, have the same sequence of keys. *)
Lemma sorted_keys_unique A (key : A -> nat) (l l' : list A) :
  StronglySorted (key_le key) l ->
  StronglySorted (key_le key) l' ->
  Permutation (map key l) (map key l') ->
  map key l = map key l'.
Proof.
  revert l'. induction l as [|a l IH]; intros l' Hs Hs' Hperm.
  - apply Permutation_nil in Hperm. now rewrite Hperm.
  - destruct l' as [|b l'].
    + apply Permutation_sym, Permutation_nil in Hperm. discriminate Hperm.
    + inversion Hs as [|? ? Hsl Hall]; subst.
      inversion Hs' as [|? ? Hsl' Hall']; subst.
      cbn [map] in *.
      assert (Hab : key b <= key a).
      { assert (Hin : In (key a) (key b :: map key l'))
          by (eapply Permutation_in; [exact Hperm | now left]).
        destruct Hin as [-> | Hin]; [lia|].
        apply in_map_iff in Hin. destruct Hin as (x & <- & Hx).
        rewrite Forall_forall in Hall'. exact (Hall' x Hx). }
      assert (Hba : key a <= key b).
      { assert (Hin : In (key b) (key a :: map key l))
          by (eapply Permutation_in;
              [apply Permutation_sym; exact Hperm | now left]).
        destruct Hin as [-> | Hin]; [lia|].
        apply in_map_iff in Hin. destruct Hin as (x & <- & Hx).
        rewrite Forall_forall in Hall. exact (Hall x Hx). }
      assert (E : key a = key b) by lia.
      rewrite E in *. f_equal.
      apply IH; [exact Hsl | exact Hsl'|].
      now apply Permutation_cons_inv with (a := key b).
Qed.

Lemma map_rank_severity l l' :
  map rank l = map rank l' ->
  map Finding.severity l = map Finding.severity l'.
Proof.
  revert l'. induction l as [|f l IH]; intros [|g l'] H;
    try reflexivity; try discriminate H.
  cbn [map] in *. injection H as Hf Hl. f_equal; [|now apply IH].
  unfold rank in Hf.
  destruct (Finding.severity f), (Finding.severity g);
    (reflexivity || discriminate Hf).
Qed.

Lemma map_rank_anonymous l : map rank (map anonymous l) = map rank l.
Proof. rewrite map_map. reflexivity. Qed.

Lemma count_by_severities s r :
  AuditReport.count s r
  = List.length (filter (fun x => Severity_eqb x s)
                        (map Finding.severity (AuditReport.findings r))).
Proof.
  unfold AuditReport.count.
  induction (AuditReport.findings r) as [|f fs IH]; [reflexivity|].
  cbn [map filter]. destruct (Severity_eqb (Finding.severity f) s);
    cbn [List.length]; now rewrite IH.
Qed.

(** The summary of the structured output depends on the sequence of the
    severities only. *)
Lemma summary_by_severities rt rt' r r' :
  map Finding.severity (AuditReport.findings r)
  = map Finding.severity (AuditReport.findings r') ->
  json_at ["summary"] (AuditReport.to_dict rt r)
  = json_at ["summary"] (AuditReport.to_dict rt' r').
Proof.
  intros H.
  assert (Hcount : forall s, AuditReport.count s r = AuditReport.count s r')
    by (intros s; now rewrite !count_by_severities, H).
  assert (Hlen : List.length (AuditReport.findings r)
                 = List.length (AuditReport.findings r')).
  { rewrite <- (length_map Finding.severity (AuditReport.findings r)), H.
    apply length_map. }
  assert (Hrisk : AuditReport.risk_score r = AuditReport.risk_score r').
  { rewrite !risk_score_clamped_sum. unfold weighted_counts.
    now rewrite !Hcount. }
  unfold AuditReport.to_dict, AuditReport.critical_count,
    AuditReport.high_count.
  rewrite Hlen, Hrisk, !Hcount. reflexivity.
Qed.

(** C5, as the code has it. Take two scans of one tree that start from the
    same auditor state, such as a newly built auditor each time, in
    processes with the same regular expression engine, parser and JSON
    reader, whatever their clocks read and in whatever order each of them
    iterates the set of extensions. When one returns a report the other
    does too, and the structured outputs agree on the [meta] part but for
    [scan_time] and [duration_ms], on the whole [summary] with all counts
    and the risk score, on the sequence of the severities of the findings,
    and on the findings but for their ids and their order: the same
    findings are reported, with ids and an order among those of equal
    severity that follow the order of the extensions. When both processes
    iterate the extensions in the same order, the outputs are the same but
    for [scan_time] and [duration_ms], ids and order included. *)
Theorem scan_output_up_to_ids_and_ties rt rt' tree self
  start_time end_time start_time' end_time' r after :
  same_library rt rt' ->
  Permutation (set_iter rt extensions) (set_iter rt' extensions) ->
  scan rt tree start_time end_time self = (Ok r, after) ->
  exists r' after',
    scan rt' tree start_time' end_time' self = (Ok r', after')
    /\ json_at ["meta"] (without_clock (AuditReport.to_dict rt r))
       = json_at ["meta"] (without_clock (AuditReport.to_dict rt' r'))
    /\ json_at ["summary"] (AuditReport.to_dict rt r)
       = json_at ["summary"] (AuditReport.to_dict rt' r')
    /\ map Finding.severity (AuditReport.findings r)
       = map Finding.severity (AuditReport.findings r')
    /\ Permutation (map anonymous (AuditReport.findings r))
                   (map anonymous (AuditReport.findings r'))
    /\ (set_iter rt extensions = set_iter rt' extensions ->
        without_clock (AuditReport.to_dict rt r)
        = without_clock (AuditReport.to_dict rt' r')).
Proof.
  intros Hlib Hperm H.
  pose proof (scan_ok_requirements rt tree start_time end_time self r after H)
    as Hreq.
  destruct (scan_list rt tree start_time end_time self Hreq)
    as (collected & after0 & Ecollect & E & Hfind).
  destruct (scan_list rt' tree start_time' end_time' self Hreq)
    as (collected' & after' & Ecollect' & E' & Hfind').
  rewrite E in H. injection H as <- _.
  eexists. exists after'. split; [exact E'|].
  pose proof (eligible_files_perm rt rt' (project_path self) tree Hperm)
    as Hfiles.
  assert (Hanon : Permutation
                    (map anonymous (sort_by_key rank (findings collected)))
                    (map anonymous (sort_by_key rank (findings collected')))).
  { rewrite (sort_by_key_perm _ rank (findings collected)).
    rewrite (sort_by_key_perm _ rank (findings collected')).
    rewrite Hfind, Hfind'. apply Permutation_app_head.
    apply Permutation_map. now apply collected_hits_perm. }
  assert (Hsev : map Finding.severity (sort_by_key rank (findings collected))
                 = map Finding.severity
                       (sort_by_key rank (findings collected'))).
  { apply map_rank_severity.
    apply sorted_keys_unique; try apply sort_by_key_sorted.
    rewrite <- (map_rank_anonymous (sort_by_key rank (findings collected))).
    rewrite <- (map_rank_anonymous (sort_by_key rank (findings collected'))).
    now apply Permutation_map. }
  split; [|split; [|split; [|split]]].
  - cbn. rewrite (Permutation_length Hfiles).
    rewrite (Permutation_list_sum (Permutation_map line_count Hfiles)).
    reflexivity.
  - apply summary_by_severities. exact Hsev.
  - exact Hsev.
  - exact Hanon.
  - intros Hset.
    rewrite (scan_collect_same_order rt rt' tree self Hlib Hset) in Ecollect.
    rewrite Ecollect' in Ecollect. injection Ecollect as Hlen Hsum <-.
    cbn. rewrite Hlen, Hsum. reflexivity.
Qed.

(** [scan_output_up_to_ids_and_ties] on two processes that iterate the
    extensions in opposite orders: the same findings, numbered
    differently. *)
Lemma scan_output_up_to_ids_and_ties_witness :
  exists r after r' after',
    scan Sample.runtime Sample.tree_mixed 0%Z 5%Z Sample.auditor
    = (Ok r, after)
    /\ scan Sample.runtime_reversed Sample.tree_mixed 6%Z 9%Z Sample.auditor
       = (Ok r', after')
    /\ json_at ["summary"] (AuditReport.to_dict Sample.runtime r)
       = json_at ["summary"] (AuditReport.to_dict Sample.runtime_reversed r')
    /\ map Finding.severity (AuditReport.findings r)
       = map Finding.severity (AuditReport.findings r')
    /\ Permutation (map anonymous (AuditReport.findings r))
                   (map anonymous (AuditReport.findings r')).
Proof.
  assert (E : exists r after,
            scan Sample.runtime Sample.tree_mixed 0%Z 5%Z Sample.auditor
            = (Ok r, after)) by (vm_compute; eauto).
  destruct E as (r & after & E).
  destruct (scan_output_up_to_ids_and_ties
              Sample.runtime Sample.runtime_reversed Sample.tree_mixed
              Sample.auditor 0%Z 5%Z 6%Z 9%Z r after)
    as (r' & after' & E' & _ & Hsummary & Hsev & Hperm & _).
  - split; [|split]; reflexivity.
  - exact (Permutation_rev extensions).
  - exact E.
  - exists r, after, r', after'. auto.
Defined.
